(** * Verification of the pnm_retreat_23 tutorial notebooks

    The repository consists of Jupyter notebooks: straight-line Python that
    builds atomic models with ASE and drives abTEM simulations.  The
    development has these parts:

    - [Py]: the abstract syntax of the Python fragment the notebooks are
      written in (node names follow Python's [ast] module), with the
      traversals the static properties are stated with;
    - [Notebooks]: the code cells of the notebooks, cell by cell;
    - [Kernel]: an executable semantics of running a notebook top to bottom
      against an arbitrary outside world (the Python runtime and the
      libraries), which answers every operation the notebook requests;
    - [Ase]: the Sr-to-La substitution cell over a store of NumPy arrays and
      [Atoms] objects;
    - [Analysis]: static readings of the notebooks (simulation calls, file
      names);
    - [Zarr]: the cells that write a measurement to disk and read it back;
    - [Sites] and [Cells]: the call sites that the requests of a run come
      from, and the cells that are followed request by request;
    - the facts about these, and the properties of the notebooks. *)

From Stdlib Require Import ZArith Ascii String List Floats.
From stdpp Require Import gmap strings list.

(** Induction principles for types that nest [list] and [option]. *)
Scheme All for list.
Scheme All for option.

(** ** Syntax of the notebook code *)

Module Py.

Inductive operator := OpAdd | OpSub | OpMult | OpDiv.
Inductive unaryop := OpUSub | OpUAdd | OpNot.
Inductive cmpop := CmpEq | CmpNotEq | CmpLt | CmpLtE | CmpGt | CmpGtE.

(** Expressions.  Literals keep the text of the source token.  As in
    Python's [ast], keyword and starred arguments and slices are expression
    nodes that occur in argument lists and subscripts; so are the
    [key: value] entries of a dict display. *)
Inductive expr :=
| EName (id : string)
| EStr (s : string)
| ENum (tok : string)
| EBool (b : bool)
| ENone
| ETuple (elts : list expr)
| EList (elts : list expr)
| EDict (items : list expr)
| EItem (key : expr) (value : expr)
| EAttribute (value : expr) (attr : string)
| ECall (func : expr) (args : list expr)
| EKeyword (arg : string) (value : expr)
| EStarred (value : expr)
| ESubscript (value : expr) (slice : expr)
| ESlice (lower upper step : option expr)
| EBinOp (left : expr) (op : operator) (right : expr)
| EUnaryOp (op : unaryop) (operand : expr)
| ECompare (left : expr) (op : cmpop) (right : expr)
| EJoinedStr (values : list expr)
| EFormattedValue (value : expr) (format_spec : string)
| EBoolOp (is_and : bool) (values : list expr)
| EIfExp (test body orelse : expr)
| ELambda (params : list string) (body : expr)
| EListComp (elt : expr) (target : expr) (iter : expr) (ifs : list expr).

(** Statements.  [SMagic] is an IPython line ([%matplotlib inline], or a
    help query [abtem.Probe?], which IPython runs as the magic [pinfo]). *)
Inductive stmt :=
| SMagic (name : string) (line : string)
| SImport (module : list string) (asname : option string)
| SImportFrom (module : list string) (name : string)
| SAssign (target : expr) (value : expr)
| SAugAssign (target : expr) (op : operator) (value : expr)
| SExpr (value : expr)
| SPass
| SFunctionDef (name : string) (params : list string) (body : list stmt)
| SClassDef (name : string) (bases : list expr) (body : list stmt)
| SReturn (value : option expr)
| SFor (target iter : expr) (body orelse : list stmt)
| SWhile (test : expr) (body orelse : list stmt)
| SIf (test : expr) (body orelse : list stmt)
| SWith (item : expr) (body : list stmt)
| SRaise (exc : option expr)
| STry (body handlers orelse finalbody : list stmt)
| SExceptHandler (type : option expr) (name : option string) (body : list stmt)
| SAssert (test : expr).

(** A notebook is the list of its code cells, each a list of statements. *)
Definition cell := list stmt.
Definition notebook := list cell.

Definition opt_list {A} (o : option A) : list A :=
  match o with Some a => [a] | None => [] end.

(** Every node of an expression, the expression itself first. *)
Fixpoint subexprs (e : expr) : list expr :=
  e ::
  match e with
  | EName _ | EStr _ | ENum _ | EBool _ | ENone => []
  | ETuple es | EList es | EDict es | EJoinedStr es | EBoolOp _ es =>
      flat_map subexprs es
  | EAttribute v _ | EKeyword _ v | EStarred v | EUnaryOp _ v
  | EFormattedValue v _ | ELambda _ v => subexprs v
  | ECall f args => subexprs f ++ flat_map subexprs args
  | ESubscript v s | EItem v s => subexprs v ++ subexprs s
  | ESlice lo hi st =>
      match lo with Some x => subexprs x | None => [] end ++
      match hi with Some x => subexprs x | None => [] end ++
      match st with Some x => subexprs x | None => [] end
  | EBinOp l _ r | ECompare l _ r => subexprs l ++ subexprs r
  | EIfExp c a b => subexprs c ++ subexprs a ++ subexprs b
  | EListComp elt t it ifs =>
      subexprs elt ++ subexprs t ++ subexprs it ++ flat_map subexprs ifs
  end.

(** Every statement nested in a statement, the statement itself first. *)
Fixpoint substmts (s : stmt) : list stmt :=
  s ::
  match s with
  | SFunctionDef _ _ b | SClassDef _ _ b | SWith _ b | SExceptHandler _ _ b =>
      flat_map substmts b
  | SFor _ _ b o | SWhile _ b o | SIf _ b o =>
      flat_map substmts b ++ flat_map substmts o
  | STry b h o f =>
      flat_map substmts b ++ flat_map substmts h ++
      flat_map substmts o ++ flat_map substmts f
  | _ => []
  end.

(** The expressions a statement holds directly (not those of nested
    statements). *)
Definition stmt_exprs (s : stmt) : list expr :=
  match s with
  | SAssign t v | SAugAssign t _ v => [t; v]
  | SExpr v | SAssert v => [v]
  | SClassDef _ bases _ => bases
  | SReturn o | SRaise o | SExceptHandler o _ _ => opt_list o
  | SFor t it _ _ => [t; it]
  | SWhile c _ _ | SIf c _ _ | SWith c _ => [c]
  | _ => []
  end.

Definition all_stmts (nb : notebook) : list stmt :=
  flat_map substmts (concat nb).

Definition all_exprs (nb : notebook) : list expr :=
  flat_map subexprs (flat_map stmt_exprs (all_stmts nb)).

(** *** Classification of nodes *)

Definition is_loop_stmt (s : stmt) : bool :=
  match s with SFor _ _ _ _ | SWhile _ _ _ => true | _ => false end.

Definition is_loop_expr (e : expr) : bool :=
  match e with EListComp _ _ _ _ => true | _ => false end.

Definition is_branch_stmt (s : stmt) : bool :=
  match s with
  | SIf _ _ _ | STry _ _ _ _ | SExceptHandler _ _ _ | SAssert _ => true
  | _ => false
  end.

Definition is_branch_expr (e : expr) : bool :=
  match e with EIfExp _ _ _ | EBoolOp _ _ => true | _ => false end.

Definition is_definition_stmt (s : stmt) : bool :=
  match s with SFunctionDef _ _ _ | SClassDef _ _ _ => true | _ => false end.

Definition is_definition_expr (e : expr) : bool :=
  match e with ELambda _ _ => true | _ => false end.

Definition is_handler_stmt (s : stmt) : bool :=
  match s with
  | STry _ _ _ _ | SExceptHandler _ _ _ | SRaise _ | SAssert _ | SWith _ _ => true
  | _ => false
  end.

(** The statements a straight-line program is made of: IPython lines,
    imports, assignments (plain and augmented) and expression statements. *)
Definition is_simple_stmt (s : stmt) : bool :=
  match s with
  | SMagic _ _ | SImport _ _ | SImportFrom _ _ | SAssign _ _
  | SAugAssign _ _ _ | SExpr _ => true
  | _ => false
  end.

Definition has_loop (nb : notebook) : bool :=
  existsb is_loop_stmt (all_stmts nb) || existsb is_loop_expr (all_exprs nb).

Definition has_branch (nb : notebook) : bool :=
  existsb is_branch_stmt (all_stmts nb) || existsb is_branch_expr (all_exprs nb).

Definition has_definition (nb : notebook) : bool :=
  existsb is_definition_stmt (all_stmts nb) ||
  existsb is_definition_expr (all_exprs nb).

Definition has_handler (nb : notebook) : bool :=
  existsb is_handler_stmt (all_stmts nb).

Definition straight_line (nb : notebook) : bool :=
  forallb is_simple_stmt (concat nb) &&
  negb (has_loop nb) && negb (has_branch nb) && negb (has_definition nb).

(** *** Calls *)

(** The dotted name an expression spells, if it is a name or a chain of
    attribute accesses on a name: [ase.io.read] is [["ase"; "io"; "read"]]. *)
Fixpoint dotted (e : expr) : option (list string) :=
  match e with
  | EName x => Some [x]
  | EAttribute v a =>
      match dotted v with Some p => Some (p ++ [a]) | None => None end
  | _ => None
  end.

(** The call nodes of a notebook, as (callee, arguments). *)
Definition calls_of (e : expr) : list (expr * list expr) :=
  match e with ECall f args => [(f, args)] | _ => [] end.

Definition all_calls (nb : notebook) : list (expr * list expr) :=
  flat_map calls_of (all_exprs nb).

(** The name a call is made under: the callee's last component,
    [multislice] for [probe.multislice(...)] and [write] for [write(...)]. *)
Definition callee_name (f : expr) : option string :=
  match f with
  | EName x => Some x
  | EAttribute _ a => Some a
  | _ => None
  end.

Definition called_as (names : list string) (c : expr * list expr) : bool :=
  match callee_name (fst c) with
  | Some n => bool_decide (n ∈ names)
  | None => false
  end.

Definition keyword_names (args : list expr) : list string :=
  flat_map (fun a => match a with EKeyword k _ => [k] | _ => [] end) args.

Definition keyword_value (k : string) (args : list expr) : option expr :=
  head (flat_map (fun a => match a with
                           | EKeyword k' v => if String.eqb k k' then [v] else []
                           | _ => []
                           end) args).

Definition first_str (args : list expr) : option string :=
  match args with EStr s :: _ => Some s | _ => None end.

End Py.

(** ** The notebooks

    One definition per notebook, one list per code cell, in the order of
    the file; the comment before a cell is its source text.  The file
    image_simulation_with_abtem_supplement.ipynb holds two notebooks, the
    second one (nanoparticle on amorphous carbon) starting at its line 1140. *)

Module Notebooks.
Import Py.

Definition atomic_models_with_ase : notebook :=
[
  (* cell 1:
       %matplotlib inline
       import abtem
       import ase
       import matplotlib.pyplot as plt
       import numpy as np
       from ase.visualize import view *)
  [
    SMagic "matplotlib" "inline";
    SImport ["abtem"] None;
    SImport ["ase"] None;
    SImport ["matplotlib"; "pyplot"] (Some "plt");
    SImport ["numpy"] (Some "np");
    SImportFrom ["ase"; "visualize"] "view" ];
  (* cell 3:
       atoms = ase.Atoms("N2", positions=[(0.0, 0.0, 0.0), (1.0, 0.0, 0.0)], cell=[6, 6, 6]) *)
  [
    SAssign (EName "atoms") (ECall (EAttribute (EName "ase") "Atoms") [
      EStr "N2";
      EKeyword "positions" (EList [
        ETuple [ENum "0.0"; ENum "0.0"; ENum "0.0"];
        ETuple [ENum "1.0"; ENum "0.0"; ENum "0.0"]]);
      EKeyword "cell" (EList [ENum "6"; ENum "6"; ENum "6"])]) ];
  (* cell 5:
       atoms.positions *)
  [
    SExpr (EAttribute (EName "atoms") "positions") ];
  (* cell 6:
       atoms.numbers *)
  [
    SExpr (EAttribute (EName "atoms") "numbers") ];
  (* cell 7:
       atoms.cell *)
  [
    SExpr (EAttribute (EName "atoms") "cell") ];
  (* cell 9:
       atoms.numbers[0] = 9 *)
  [
    SAssign (ESubscript (EAttribute (EName "atoms") "numbers") (ENum "0")) (ENum "9") ];
  (* cell 11:
       atoms += ase.Atoms("N", positions=[(2.0, 0, 0)])
       atoms *)
  [
    SAugAssign (EName "atoms") OpAdd (ECall (EAttribute (EName "ase") "Atoms") [
      EStr "N";
      EKeyword "positions" (EList [ETuple [ENum "2.0"; ENum "0"; ENum "0"]])]);
    SExpr (EName "atoms") ];
  (* cell 13:
       abtem.show_atoms(atoms); *)
  [
    SExpr (ECall (EAttribute (EName "abtem") "show_atoms") [EName "atoms"]) ];
  (* cell 15:
       from ase.visualize import view
       view(atoms) *)
  [
    SImportFrom ["ase"; "visualize"] "view";
    SExpr (ECall (EName "view") [EName "atoms"]) ];
  (* cell 17:
       srtio3 = ase.io.read("srtio3.cif")
       abtem.show_atoms(srtio3, legend=True) *)
  [
    SAssign (EName "srtio3") (ECall (EAttribute (EAttribute (EName "ase") "io") "read") [
      EStr "srtio3.cif"]);
    SExpr (ECall (EAttribute (EName "abtem") "show_atoms") [
      EName "srtio3";
      EKeyword "legend" (EBool true)]) ];
  (* cell 18:
       view(srtio3) *)
  [
    SExpr (ECall (EName "view") [EName "srtio3"]) ];
  (* cell 20:
       from ase.build import surface
       srtio3_110 = surface(srtio3, indices=(1, 1, 0), layers=2, periodic=True)
       abtem.show_atoms(srtio3_110, plane="xy", legend=True); *)
  [
    SImportFrom ["ase"; "build"] "surface";
    SAssign (EName "srtio3_110") (ECall (EName "surface") [
      EName "srtio3";
      EKeyword "indices" (ETuple [ENum "1"; ENum "1"; ENum "0"]);
      EKeyword "layers" (ENum "2");
      EKeyword "periodic" (EBool true)]);
    SExpr (ECall (EAttribute (EName "abtem") "show_atoms") [
      EName "srtio3_110";
      EKeyword "plane" (EStr "xy");
      EKeyword "legend" (EBool true)]) ];
  (* cell 22:
       repeated_srtio3 = srtio3_110.copy()
       repeated_srtio3 = srtio3_110 * (3, 4, 10)
       abtem.show_atoms(repeated_srtio3, legend=True); *)
  [
    SAssign (EName "repeated_srtio3") (ECall (EAttribute (EName "srtio3_110") "copy") []);
    SAssign (EName "repeated_srtio3") (EBinOp (EName "srtio3_110") OpMult (ETuple [
      ENum "3";
      ENum "4";
      ENum "10"]));
    SExpr (ECall (EAttribute (EName "abtem") "show_atoms") [
      EName "repeated_srtio3";
      EKeyword "legend" (EBool true)]) ];
  (* cell 23:
       abtem.show_atoms(repeated_srtio3, plane="xz"); *)
  [
    SExpr (ECall (EAttribute (EName "abtem") "show_atoms") [
      EName "repeated_srtio3";
      EKeyword "plane" (EStr "xz")]) ];
  (* cell 25:
       sto_lto = repeated_srtio3.copy()
       mask = sto_lto.symbols == "Sr"
       mask = mask * (sto_lto.positions[:, 1] < 7.5)
       sto_lto.numbers[mask] = 57 *)
  [
    SAssign (EName "sto_lto") (ECall (EAttribute (EName "repeated_srtio3") "copy") []);
    SAssign (EName "mask") (ECompare (EAttribute (EName "sto_lto") "symbols") CmpEq (EStr "Sr"));
    SAssign (EName "mask") (EBinOp (EName "mask") OpMult (ECompare (ESubscript (EAttribute (EName "sto_lto") "positions") (ETuple [
      ESlice None None None;
      ENum "1"])) CmpLt (ENum "7.5")));
    SAssign (ESubscript (EAttribute (EName "sto_lto") "numbers") (EName "mask")) (ENum "57") ];
  (* cell 27:
       sto_lto.center(axis=2, vacuum=5) *)
  [
    SExpr (ECall (EAttribute (EName "sto_lto") "center") [
      EKeyword "axis" (ENum "2");
      EKeyword "vacuum" (ENum "5")]) ];
  (* cell 28:
       fig, (ax1, ax2) = plt.subplots(1, 2, figsize=(8, 4))
       abtem.show_atoms(sto_lto, ax=ax1)
       abtem.show_atoms(sto_lto, ax=ax2, plane="yz"); *)
  [
    SAssign (ETuple [
      EName "fig";
      ETuple [EName "ax1"; EName "ax2"]
    ]) (ECall (EAttribute (EName "plt") "subplots") [ENum "1"; ENum "2"; EKeyword "figsize" (ETuple [ENum "8"; ENum "4"])]);
    SExpr (ECall (EAttribute (EName "abtem") "show_atoms") [
      EName "sto_lto";
      EKeyword "ax" (EName "ax1")]);
    SExpr (ECall (EAttribute (EName "abtem") "show_atoms") [
      EName "sto_lto";
      EKeyword "ax" (EName "ax2");
      EKeyword "plane" (EStr "yz")]) ];
  (* cell 30:
       from ase.io import write
       write("sto_lto.cif", sto_lto) *)
  [
    SImportFrom ["ase"; "io"] "write";
    SExpr (ECall (EName "write") [EStr "sto_lto.cif"; EName "sto_lto"]) ];
  (* cell 32:
       graphene = ase.build.graphene(vacuum=2, a=2.46)
       abtem.show_atoms(graphene); *)
  [
    SAssign (EName "graphene") (ECall (EAttribute (EAttribute (EName "ase") "build") "graphene") [
      EKeyword "vacuum" (ENum "2");
      EKeyword "a" (ENum "2.46")]);
    SExpr (ECall (EAttribute (EName "abtem") "show_atoms") [EName "graphene"]) ];
  (* cell 34:
       orthogonal_graphene, transform = abtem.orthogonalize_cell(graphene, return_transform=True)
       abtem.show_atoms(orthogonal_graphene); *)
  [
    SAssign (ETuple [
      EName "orthogonal_graphene";
      EName "transform"
    ]) (ECall (EAttribute (EName "abtem") "orthogonalize_cell") [EName "graphene"; EKeyword "return_transform" (EBool true)]);
    SExpr (ECall (EAttribute (EName "abtem") "show_atoms") [EName "orthogonal_graphene"]) ]
].

Definition image_simulation_with_abtem : notebook :=
[
  (* cell 1:
       %matplotlib ipympl
       import abtem
       import ase
       import matplotlib.pyplot as plt
       import numpy as np
       abtem.config.set({"visualize.cmap": "viridis"})
       abtem.config.set({"visualize.continuous_update": True})
       abtem.config.set({"visualize.autoscale": True})
       abtem.config.set({"device": "cpu"})
       abtem.config.set({"fft": "fftw"}) *)
  [
    SMagic "matplotlib" "ipympl";
    SImport ["abtem"] None;
    SImport ["ase"] None;
    SImport ["matplotlib"; "pyplot"] (Some "plt");
    SImport ["numpy"] (Some "np");
    SExpr (ECall (EAttribute (EAttribute (EName "abtem") "config") "set") [
      EDict [EItem (EStr "visualize.cmap") (EStr "viridis")]]);
    SExpr (ECall (EAttribute (EAttribute (EName "abtem") "config") "set") [
      EDict [EItem (EStr "visualize.continuous_update") (EBool true)]]);
    SExpr (ECall (EAttribute (EAttribute (EName "abtem") "config") "set") [
      EDict [EItem (EStr "visualize.autoscale") (EBool true)]]);
    SExpr (ECall (EAttribute (EAttribute (EName "abtem") "config") "set") [
      EDict [EItem (EStr "device") (EStr "cpu")]]);
    SExpr (ECall (EAttribute (EAttribute (EName "abtem") "config") "set") [
      EDict [EItem (EStr "fft") (EStr "fftw")]]) ];
  (* cell 2:
       abtem.__version__ *)
  [
    SExpr (EAttribute (EName "abtem") "__version__") ];
  (* cell 4:
       atoms = ase.io.read("sto_lto.cif")
       fig, (ax1, ax2) = plt.subplots(1, 2)
       abtem.show_atoms(atoms, ax=ax1, plane="xy", title="Beam view", legend=True)
       abtem.show_atoms(atoms, ax=ax2, plane="yz", title="Side view") *)
  [
    SAssign (EName "atoms") (ECall (EAttribute (EAttribute (EName "ase") "io") "read") [
      EStr "sto_lto.cif"]);
    SAssign (ETuple [
      EName "fig";
      ETuple [EName "ax1"; EName "ax2"]
    ]) (ECall (EAttribute (EName "plt") "subplots") [ENum "1"; ENum "2"]);
    SExpr (ECall (EAttribute (EName "abtem") "show_atoms") [
      EName "atoms";
      EKeyword "ax" (EName "ax1");
      EKeyword "plane" (EStr "xy");
      EKeyword "title" (EStr "Beam view");
      EKeyword "legend" (EBool true)]);
    SExpr (ECall (EAttribute (EName "abtem") "show_atoms") [
      EName "atoms";
      EKeyword "ax" (EName "ax2");
      EKeyword "plane" (EStr "yz");
      EKeyword "title" (EStr "Side view")]) ];
  (* cell 6:
       potential = abtem.Potential(atoms, sampling=0.05, slice_thickness=2) *)
  [
    SAssign (EName "potential") (ECall (EAttribute (EName "abtem") "Potential") [
      EName "atoms";
      EKeyword "sampling" (ENum "0.05");
      EKeyword "slice_thickness" (ENum "2")]) ];
  (* cell 8:
       len(potential) *)
  [
    SExpr (ECall (EName "len") [EName "potential"]) ];
  (* cell 10:
       potential_array = potential.build() *)
  [
    SAssign (EName "potential_array") (ECall (EAttribute (EName "potential") "build") []) ];
  (* cell 12:
       potential_array.array *)
  [
    SExpr (EAttribute (EName "potential_array") "array") ];
  (* cell 14:
       potential_array.compute() *)
  [
    SExpr (ECall (EAttribute (EName "potential_array") "compute") []) ];
  (* cell 16:
       potential_array.array *)
  [
    SExpr (EAttribute (EName "potential_array") "array") ];
  (* cell 18:
       potential_array.show(cbar=True); *)
  [
    SExpr (ECall (EAttribute (EName "potential_array") "show") [
      EKeyword "cbar" (EBool true)]) ];
  (* cell 19:
       # potential_array.to_hyperspy().plot() *)
  [];
  (* cell 21:
       potential_array.to_images().show(interact=True, cbar=True) *)
  [
    SExpr (ECall (EAttribute (ECall (EAttribute (EName "potential_array") "to_images") []) "show") [
      EKeyword "interact" (EBool true);
      EKeyword "cbar" (EBool true)]) ];
  (* cell 23:
       abtem.Probe? *)
  [
    SMagic "pinfo" "abtem.Probe" ];
  (* cell 24:
       probe = abtem.Probe(energy=150e3, defocus=50, semiangle_cutoff=20, Cs=0.) *)
  [
    SAssign (EName "probe") (ECall (EAttribute (EName "abtem") "Probe") [
      EKeyword "energy" (ENum "150e3");
      EKeyword "defocus" (ENum "50");
      EKeyword "semiangle_cutoff" (ENum "20");
      EKeyword "Cs" (ENum "0.")]) ];
  (* cell 26:
       probe.grid.match(potential) *)
  [
    SExpr (ECall (EAttribute (EAttribute (EName "probe") "grid") "match") [
      EName "potential"]) ];
  (* cell 28:
       probe_waves = probe.build()
       probe_waves.array *)
  [
    SAssign (EName "probe_waves") (ECall (EAttribute (EName "probe") "build") []);
    SExpr (EAttribute (EName "probe_waves") "array") ];
  (* cell 29:
       probe_waves.compute() *)
  [
    SExpr (ECall (EAttribute (EName "probe_waves") "compute") []) ];
  (* cell 31:
       probe_waves.intensity().show(title="Probe intensity") *)
  [
    SExpr (ECall (EAttribute (ECall (EAttribute (EName "probe_waves") "intensity") []) "show") [
      EKeyword "title" (EStr "Probe intensity")]) ];
  (* cell 32:
       probe_waves.diffraction_patterns().show(
           title="Reciprocal space probe intensity", units="mrad"
       ); *)
  [
    SExpr (ECall (EAttribute (ECall (EAttribute (EName "probe_waves") "diffraction_patterns") []) "show") [
      EKeyword "title" (EStr "Reciprocal space probe intensity");
      EKeyword "units" (EStr "mrad")]) ];
  (* cell 34:
       focal_series = np.linspace(0, 200, 5)
       focal_series_probe = abtem.Probe(
           energy=200e3, defocus=focal_series, semiangle_cutoff=20, extent=10, sampling=0.05
       ) *)
  [
    SAssign (EName "focal_series") (ECall (EAttribute (EName "np") "linspace") [
      ENum "0";
      ENum "200";
      ENum "5"]);
    SAssign (EName "focal_series_probe") (ECall (EAttribute (EName "abtem") "Probe") [
      EKeyword "energy" (ENum "200e3");
      EKeyword "defocus" (EName "focal_series");
      EKeyword "semiangle_cutoff" (ENum "20");
      EKeyword "extent" (ENum "10");
      EKeyword "sampling" (ENum "0.05")]) ];
  (* cell 36:
       focal_series_probe.build().compute().show(interact=True) *)
  [
    SExpr (ECall (EAttribute (ECall (EAttribute (ECall (EAttribute (EName "focal_series_probe") "build") []) "compute") []) "show") [
      EKeyword "interact" (EBool true)]) ];
  (* cell 38:
       focal_series_probe.build().show(explode=True, figsize=(10, 3)) *)
  [
    SExpr (ECall (EAttribute (ECall (EAttribute (EName "focal_series_probe") "build") []) "show") [
      EKeyword "explode" (EBool true);
      EKeyword "figsize" (ETuple [ENum "10"; ENum "3"])]) ];
  (* cell 40:
       position = [(8, 8), (6, 8), (4, 8)]
       exit_wave = probe.multislice(potential, scan=position) *)
  [
    SAssign (EName "position") (EList [
      ETuple [ENum "8"; ENum "8"];
      ETuple [ENum "6"; ENum "8"];
      ETuple [ENum "4"; ENum "8"]]);
    SAssign (EName "exit_wave") (ECall (EAttribute (EName "probe") "multislice") [
      EName "potential";
      EKeyword "scan" (EName "position")]) ];
  (* cell 42:
       exit_wave.compute() *)
  [
    SExpr (ECall (EAttribute (EName "exit_wave") "compute") []) ];
  (* cell 44:
       exit_wave_image = exit_wave.intensity()
       exit_wave_image.show(interact=True) *)
  [
    SAssign (EName "exit_wave_image") (ECall (EAttribute (EName "exit_wave") "intensity") []);
    SExpr (ECall (EAttribute (EName "exit_wave_image") "show") [
      EKeyword "interact" (EBool true)]) ];
  (* cell 46:
       exit_wave_diffraction = exit_wave.diffraction_patterns(max_angle=100)
       exit_wave_diffraction.show(interact=True, cbar=True, units="mrad") *)
  [
    SAssign (EName "exit_wave_diffraction") (ECall (EAttribute (EName "exit_wave") "diffraction_patterns") [
      EKeyword "max_angle" (ENum "100")]);
    SExpr (ECall (EAttribute (EName "exit_wave_diffraction") "show") [
      EKeyword "interact" (EBool true);
      EKeyword "cbar" (EBool true);
      EKeyword "units" (EStr "mrad")]) ];
  (* cell 49:
       scan = abtem.GridScan(
           start=(0, 0),
           end=(1 / 3, 1),
           sampling=probe.ctf.nyquist_sampling,
           fractional=True,
           potential=potential,
       ) *)
  [
    SAssign (EName "scan") (ECall (EAttribute (EName "abtem") "GridScan") [
      EKeyword "start" (ETuple [ENum "0"; ENum "0"]);
      EKeyword "end" (ETuple [EBinOp (ENum "1") OpDiv (ENum "3"); ENum "1"]);
      EKeyword "sampling" (EAttribute (EAttribute (EName "probe") "ctf") "nyquist_sampling");
      EKeyword "fractional" (EBool true);
      EKeyword "potential" (EName "potential")]) ];
  (* cell 51:
       fig, ax = abtem.show_atoms(atoms)
       scan.add_to_plot(ax, color="k") *)
  [
    SAssign (ETuple [
      EName "fig";
      EName "ax"]) (ECall (EAttribute (EName "abtem") "show_atoms") [EName "atoms"]);
    SExpr (ECall (EAttribute (EName "scan") "add_to_plot") [
      EName "ax";
      EKeyword "color" (EStr "k")]) ];
  (* cell 53:
       bright = abtem.AnnularDetector(inner=0, outer=20)
       maadf = abtem.AnnularDetector(inner=50, outer=120)
       haadf = abtem.AnnularDetector(inner=100, outer=180)
       detectors = [bright, maadf, haadf] *)
  [
    SAssign (EName "bright") (ECall (EAttribute (EName "abtem") "AnnularDetector") [
      EKeyword "inner" (ENum "0");
      EKeyword "outer" (ENum "20")]);
    SAssign (EName "maadf") (ECall (EAttribute (EName "abtem") "AnnularDetector") [
      EKeyword "inner" (ENum "50");
      EKeyword "outer" (ENum "120")]);
    SAssign (EName "haadf") (ECall (EAttribute (EName "abtem") "AnnularDetector") [
      EKeyword "inner" (ENum "100");
      EKeyword "outer" (ENum "180")]);
    SAssign (EName "detectors") (EList [EName "bright"; EName "maadf"; EName "haadf"]) ];
  (* cell 55:
       print(f"alpha_max = {min(probe.cutoff_angles):.1f} mrad") *)
  [
    SExpr (ECall (EName "print") [
      EJoinedStr [
        EStr "alpha_max = ";
        EFormattedValue (ECall (EName "min") [
          EAttribute (EName "probe") "cutoff_angles"]) ".1f";
        EStr " mrad"]]) ];
  (* cell 57:
       bright_region = bright.get_detector_region(probe)
       maadf_region = maadf.get_detector_region(probe)
       haadf_region = haadf.get_detector_region(probe) *)
  [
    SAssign (EName "bright_region") (ECall (EAttribute (EName "bright") "get_detector_region") [
      EName "probe"]);
    SAssign (EName "maadf_region") (ECall (EAttribute (EName "maadf") "get_detector_region") [
      EName "probe"]);
    SAssign (EName "haadf_region") (ECall (EAttribute (EName "haadf") "get_detector_region") [
      EName "probe"]) ];
  (* cell 59:
       stacked_regions = abtem.stack(
           (bright_region, maadf_region, haadf_region), ("bright", "MAADF", "HAADF")
       )
       visualization = stacked_regions.show(explode=True, units="mrad", figsize=(8, 4)) *)
  [
    SAssign (EName "stacked_regions") (ECall (EAttribute (EName "abtem") "stack") [
      ETuple [EName "bright_region"; EName "maadf_region"; EName "haadf_region"];
      ETuple [EStr "bright"; EStr "MAADF"; EStr "HAADF"]]);
    SAssign (EName "visualization") (ECall (EAttribute (EName "stacked_regions") "show") [
      EKeyword "explode" (EBool true);
      EKeyword "units" (EStr "mrad");
      EKeyword "figsize" (ETuple [ENum "8"; ENum "4"])]) ];
  (* cell 61:
       scanned_measurements = probe.scan(
           scan=scan,
           detectors=detectors,
           potential=potential,
       )
       scanned_measurements.compute() *)
  [
    SAssign (EName "scanned_measurements") (ECall (EAttribute (EName "probe") "scan") [
      EKeyword "scan" (EName "scan");
      EKeyword "detectors" (EName "detectors");
      EKeyword "potential" (EName "potential")]);
    SExpr (ECall (EAttribute (EName "scanned_measurements") "compute") []) ];
  (* cell 63:
       stacked_measurements = abtem.stack(scanned_measurements, ("BF", "MAADF", "HAADF"))
       stacked_measurements.show(explode=True) *)
  [
    SAssign (EName "stacked_measurements") (ECall (EAttribute (EName "abtem") "stack") [
      EName "scanned_measurements";
      ETuple [EStr "BF"; EStr "MAADF"; EStr "HAADF"]]);
    SExpr (ECall (EAttribute (EName "stacked_measurements") "show") [
      EKeyword "explode" (EBool true)]) ];
  (* cell 65:
       interpolated_measurements = stacked_measurements.interpolate(0.1)
       interpolated_measurements.show(explode=True) *)
  [
    SAssign (EName "interpolated_measurements") (ECall (EAttribute (EName "stacked_measurements") "interpolate") [
      ENum "0.1"]);
    SExpr (ECall (EAttribute (EName "interpolated_measurements") "show") [
      EKeyword "explode" (EBool true)]) ];
  (* cell 67:
       blurred_measurements = interpolated_measurements.gaussian_filter(0.4)
       blurred_measurements.show(explode=True) *)
  [
    SAssign (EName "blurred_measurements") (ECall (EAttribute (EName "interpolated_measurements") "gaussian_filter") [
      ENum "0.4"]);
    SExpr (ECall (EAttribute (EName "blurred_measurements") "show") [
      EKeyword "explode" (EBool true)]) ];
  (* cell 69:
       tiled_measurements = blurred_measurements.tile((8, 3)) *)
  [
    SAssign (EName "tiled_measurements") (ECall (EAttribute (EName "blurred_measurements") "tile") [
      ETuple [ENum "8"; ENum "3"]]) ];
  (* cell 71:
       noisy_measurements = tiled_measurements.poisson_noise(dose_per_area=1e4, seed=100) *)
  [
    SAssign (EName "noisy_measurements") (ECall (EAttribute (EName "tiled_measurements") "poisson_noise") [
      EKeyword "dose_per_area" (ENum "1e4");
      EKeyword "seed" (ENum "100")]) ];
  (* cell 72:
       noisy_measurements.show(explode=True, figsize=(8, 4)); *)
  [
    SExpr (ECall (EAttribute (EName "noisy_measurements") "show") [
      EKeyword "explode" (EBool true);
      EKeyword "figsize" (ETuple [ENum "8"; ENum "4"])]) ]
].

Definition image_simulation_with_abtem_supplement : notebook :=
[
  (* cell 1:
       %matplotlib ipympl
       import abtem
       import ase
       import matplotlib.pyplot as plt
       import numpy as np
       abtem.config.set({"visualize.cmap": "viridis"})
       abtem.config.set({"visualize.continuous_update": True})
       abtem.config.set({"visualize.autoscale": True})
       abtem.config.set({"device": "cpu"})
       abtem.config.set({"fft": "fftw"}) *)
  [
    SMagic "matplotlib" "ipympl";
    SImport ["abtem"] None;
    SImport ["ase"] None;
    SImport ["matplotlib"; "pyplot"] (Some "plt");
    SImport ["numpy"] (Some "np");
    SExpr (ECall (EAttribute (EAttribute (EName "abtem") "config") "set") [
      EDict [EItem (EStr "visualize.cmap") (EStr "viridis")]]);
    SExpr (ECall (EAttribute (EAttribute (EName "abtem") "config") "set") [
      EDict [EItem (EStr "visualize.continuous_update") (EBool true)]]);
    SExpr (ECall (EAttribute (EAttribute (EName "abtem") "config") "set") [
      EDict [EItem (EStr "visualize.autoscale") (EBool true)]]);
    SExpr (ECall (EAttribute (EAttribute (EName "abtem") "config") "set") [
      EDict [EItem (EStr "device") (EStr "cpu")]]);
    SExpr (ECall (EAttribute (EAttribute (EName "abtem") "config") "set") [
      EDict [EItem (EStr "fft") (EStr "fftw")]]) ];
  (* cell 3:
       atoms = ase.io.read("sto_lto.cif")
       abtem.show_atoms(atoms) *)
  [
    SAssign (EName "atoms") (ECall (EAttribute (EAttribute (EName "ase") "io") "read") [
      EStr "sto_lto.cif"]);
    SExpr (ECall (EAttribute (EName "abtem") "show_atoms") [EName "atoms"]) ];
  (* cell 5:
       plane_wave = abtem.PlaneWave(energy=150e3) *)
  [
    SAssign (EName "plane_wave") (ECall (EAttribute (EName "abtem") "PlaneWave") [
      EKeyword "energy" (ENum "150e3")]) ];
  (* cell 7:
       potential = abtem.Potential(atoms, sampling=0.05, slice_thickness=2, exit_planes=1) *)
  [
    SAssign (EName "potential") (ECall (EAttribute (EName "abtem") "Potential") [
      EName "atoms";
      EKeyword "sampling" (ENum "0.05");
      EKeyword "slice_thickness" (ENum "2");
      EKeyword "exit_planes" (ENum "1")]) ];
  (* cell 9:
       exit_wave = plane_wave.multislice(potential).compute() *)
  [
    SAssign (EName "exit_wave") (ECall (EAttribute (ECall (EAttribute (EName "plane_wave") "multislice") [
      EName "potential"]) "compute") []) ];
  (* cell 11:
       exit_wave.show(interact=True) *)
  [
    SExpr (ECall (EAttribute (EName "exit_wave") "show") [EKeyword "interact" (EBool true)]) ];
  (* cell 13:
       Cs = -100e-6 * 1e10
       focal_series = np.linspace(0, 200, 5)
       ctf = abtem.CTF(Cs=Cs, energy=150e3, defocus=focal_series)
       #ctf.scherzer_defocus *)
  [
    SAssign (EName "Cs") (EBinOp (EUnaryOp OpUSub (ENum "100e-6")) OpMult (ENum "1e10"));
    SAssign (EName "focal_series") (ECall (EAttribute (EName "np") "linspace") [
      ENum "0";
      ENum "200";
      ENum "5"]);
    SAssign (EName "ctf") (ECall (EAttribute (EName "abtem") "CTF") [
      EKeyword "Cs" (EName "Cs");
      EKeyword "energy" (ENum "150e3");
      EKeyword "defocus" (EName "focal_series")]) ];
  (* cell 14:
       #ctf.defocus = ctf.scherzer_defocus *)
  [];
  (* cell 16:
       ctf.profiles().show() *)
  [
    SExpr (ECall (EAttribute (ECall (EAttribute (EName "ctf") "profiles") []) "show") []) ];
  (* cell 18:
       ctf.semiangle_cutoff = ctf.crossover_angle
       #ctf.profiles().show(legend=True) *)
  [
    SAssign (EAttribute (EName "ctf") "semiangle_cutoff") (EAttribute (EName "ctf") "crossover_angle") ];
  (* cell 20:
       image = exit_wave.apply_ctf(ctf).intensity() *)
  [
    SAssign (EName "image") (ECall (EAttribute (ECall (EAttribute (EName "exit_wave") "apply_ctf") [
      EName "ctf"]) "intensity") []) ];
  (* cell 21:
       image.show(interact=True) *)
  [
    SExpr (ECall (EAttribute (EName "image") "show") [EKeyword "interact" (EBool true)]) ];
  (* cell 23:
       noisy_image = image.tile((2, 2)).poisson_noise(1e4)
       noisy_image.show(title="HRTEM image", interact=True) *)
  [
    SAssign (EName "noisy_image") (ECall (EAttribute (ECall (EAttribute (EName "image") "tile") [
      ETuple [ENum "2"; ENum "2"]]) "poisson_noise") [ENum "1e4"]);
    SExpr (ECall (EAttribute (EName "noisy_image") "show") [
      EKeyword "title" (EStr "HRTEM image");
      EKeyword "interact" (EBool true)]) ];
  (* cell 24:
       atoms = ase.io.read("sto_lto.cif")
       potential = abtem.Potential(atoms, sampling=0.05, slice_thickness=2)
       probe = abtem.Probe(energy=150e3, defocus=50, semiangle_cutoff=20)
       scan = abtem.GridScan(
           start=(0, 0),
           end=(1 / 3, 1),
           sampling=probe.ctf.nyquist_sampling,
           fractional=True,
           potential=potential,
       ) *)
  [
    SAssign (EName "atoms") (ECall (EAttribute (EAttribute (EName "ase") "io") "read") [
      EStr "sto_lto.cif"]);
    SAssign (EName "potential") (ECall (EAttribute (EName "abtem") "Potential") [
      EName "atoms";
      EKeyword "sampling" (ENum "0.05");
      EKeyword "slice_thickness" (ENum "2")]);
    SAssign (EName "probe") (ECall (EAttribute (EName "abtem") "Probe") [
      EKeyword "energy" (ENum "150e3");
      EKeyword "defocus" (ENum "50");
      EKeyword "semiangle_cutoff" (ENum "20")]);
    SAssign (EName "scan") (ECall (EAttribute (EName "abtem") "GridScan") [
      EKeyword "start" (ETuple [ENum "0"; ENum "0"]);
      EKeyword "end" (ETuple [EBinOp (ENum "1") OpDiv (ENum "3"); ENum "1"]);
      EKeyword "sampling" (EAttribute (EAttribute (EName "probe") "ctf") "nyquist_sampling");
      EKeyword "fractional" (EBool true);
      EKeyword "potential" (EName "potential")]) ];
  (* cell 26:
       detector = abtem.PixelatedDetector(max_angle=100) *)
  [
    SAssign (EName "detector") (ECall (EAttribute (EName "abtem") "PixelatedDetector") [
      EKeyword "max_angle" (ENum "100")]) ];
  (* cell 28:
       measurement_4d = probe.scan(scan=scan, potential=potential, detectors=detector)
       measurement_4d.array *)
  [
    SAssign (EName "measurement_4d") (ECall (EAttribute (EName "probe") "scan") [
      EKeyword "scan" (EName "scan");
      EKeyword "potential" (EName "potential");
      EKeyword "detectors" (EName "detector")]);
    SExpr (EAttribute (EName "measurement_4d") "array") ];
  (* cell 30:
       measurement_4d.to_zarr("measurement_4d.zarr") *)
  [
    SExpr (ECall (EAttribute (EName "measurement_4d") "to_zarr") [
      EStr "measurement_4d.zarr"]) ];
  (* cell 32:
       measurement_4d = abtem.from_zarr("measurement_4d.zarr")
       measurement_4d.array *)
  [
    SAssign (EName "measurement_4d") (ECall (EAttribute (EName "abtem") "from_zarr") [
      EStr "measurement_4d.zarr"]);
    SExpr (EAttribute (EName "measurement_4d") "array") ];
  (* cell 34:
       measurement_4d.show(interact=True) *)
  [
    SExpr (ECall (EAttribute (EName "measurement_4d") "show") [
      EKeyword "interact" (EBool true)]) ];
  (* cell 36:
       measurement_4d[1, 1].show(); *)
  [
    SExpr (ECall (EAttribute (ESubscript (EName "measurement_4d") (ETuple [
      ENum "1";
      ENum "1"])) "show") []) ];
  (* cell 38:
       polar_binned = measurement_4d.polar_binning(nbins_radial=100, nbins_azimuthal=1)
       polar_binned.array *)
  [
    SAssign (EName "polar_binned") (ECall (EAttribute (EName "measurement_4d") "polar_binning") [
      EKeyword "nbins_radial" (ENum "100");
      EKeyword "nbins_azimuthal" (ENum "1")]);
    SExpr (EAttribute (EName "polar_binned") "array") ];
  (* cell 40:
       binned_images = polar_binned.to_image_ensemble().compute().interpolate(0.1).tile((3, 1))
       binned_images.show(interact=True) *)
  [
    SAssign (EName "binned_images") (ECall (EAttribute (ECall (EAttribute (ECall (EAttribute (ECall (EAttribute (EName "polar_binned") "to_image_ensemble") []) "compute") []) "interpolate") [
      ENum "0.1"]) "tile") [ETuple [ENum "3"; ENum "1"]]);
    SExpr (ECall (EAttribute (EName "binned_images") "show") [
      EKeyword "interact" (EBool true)]) ];
  (* cell 42:
       center_of_mass = measurement_4d.center_of_mass(units="1/Å")
       center_of_mass.array *)
  [
    SAssign (EName "center_of_mass") (ECall (EAttribute (EName "measurement_4d") "center_of_mass") [
      EKeyword "units" (EStr "1/Å")]);
    SExpr (EAttribute (EName "center_of_mass") "array") ];
  (* cell 44:
       interpolated_center_of_mass = center_of_mass.interpolate(0.1).tile((3, 1))
       interpolated_center_of_mass.imag().show(title="COM real part", cbar=True); *)
  [
    SAssign (EName "interpolated_center_of_mass") (ECall (EAttribute (ECall (EAttribute (EName "center_of_mass") "interpolate") [
      ENum "0.1"]) "tile") [ETuple [ENum "3"; ENum "1"]]);
    SExpr (ECall (EAttribute (ECall (EAttribute (EName "interpolated_center_of_mass") "imag") []) "show") [
      EKeyword "title" (EStr "COM real part");
      EKeyword "cbar" (EBool true)]) ];
  (* cell 46:
       interpolated_center_of_mass.show(cbar=True, cmap="hsluv", title="COM domain coloring"); *)
  [
    SExpr (ECall (EAttribute (EName "interpolated_center_of_mass") "show") [
      EKeyword "cbar" (EBool true);
      EKeyword "cmap" (EStr "hsluv");
      EKeyword "title" (EStr "COM domain coloring")]) ];
  (* cell 48:
       integrated_gradient = interpolated_center_of_mass.integrate_gradient()
       integrated_gradient.show(); *)
  [
    SAssign (EName "integrated_gradient") (ECall (EAttribute (EName "interpolated_center_of_mass") "integrate_gradient") []);
    SExpr (ECall (EAttribute (EName "integrated_gradient") "show") []) ];
  (* cell 50:
       atoms *)
  [
    SExpr (EName "atoms") ];
  (* cell 51:
       sigmas = {"O": .1, "Sr": .1, "La":.1, "Ti":.1}
       frozen_phonons = abtem.FrozenPhonons(atoms * (1, 1, 4), sigmas=sigmas, num_configs=8) *)
  [
    SAssign (EName "sigmas") (EDict [
      EItem (EStr "O") (ENum ".1");
      EItem (EStr "Sr") (ENum ".1");
      EItem (EStr "La") (ENum ".1");
      EItem (EStr "Ti") (ENum ".1")]);
    SAssign (EName "frozen_phonons") (ECall (EAttribute (EName "abtem") "FrozenPhonons") [
      EBinOp (EName "atoms") OpMult (ETuple [ENum "1"; ENum "1"; ENum "4"]);
      EKeyword "sigmas" (EName "sigmas");
      EKeyword "num_configs" (ENum "8")]) ];
  (* cell 53:
       iterator = iter(frozen_phonons) *)
  [
    SAssign (EName "iterator") (ECall (EName "iter") [EName "frozen_phonons"]) ];
  (* cell 54:
       config = next(iterator)
       abtem.show_atoms(config, scale=.5); *)
  [
    SAssign (EName "config") (ECall (EName "next") [EName "iterator"]);
    SExpr (ECall (EAttribute (EName "abtem") "show_atoms") [
      EName "config";
      EKeyword "scale" (ENum ".5")]) ];
  (* cell 56:
       frozen_phonon_potential = abtem.Potential(
           frozen_phonons, sampling=0.05, slice_thickness=2
       ) *)
  [
    SAssign (EName "frozen_phonon_potential") (ECall (EAttribute (EName "abtem") "Potential") [
      EName "frozen_phonons";
      EKeyword "sampling" (ENum "0.05");
      EKeyword "slice_thickness" (ENum "2")]) ];
  (* cell 57:
       frozen_phonon_potential.build().project().compute().show(interact=True) *)
  [
    SExpr (ECall (EAttribute (ECall (EAttribute (ECall (EAttribute (ECall (EAttribute (EName "frozen_phonon_potential") "build") []) "project") []) "compute") []) "show") [
      EKeyword "interact" (EBool true)]) ];
  (* cell 59:
       exit_waves = probe.multislice(potential=frozen_phonon_potential)
       exit_waves.array *)
  [
    SAssign (EName "exit_waves") (ECall (EAttribute (EName "probe") "multislice") [
      EKeyword "potential" (EName "frozen_phonon_potential")]);
    SExpr (EAttribute (EName "exit_waves") "array") ];
  (* cell 60:
       exit_waves.compute() *)
  [
    SExpr (ECall (EAttribute (EName "exit_waves") "compute") []) ];
  (* cell 62:
       exit_waves.diffraction_patterns().shape *)
  [
    SExpr (EAttribute (ECall (EAttribute (EName "exit_waves") "diffraction_patterns") []) "shape") ];
  (* cell 63:
       exit_waves.diffraction_patterns().show(interact=True) *)
  [
    SExpr (ECall (EAttribute (ECall (EAttribute (EName "exit_waves") "diffraction_patterns") []) "show") [
      EKeyword "interact" (EBool true)]) ];
  (* cell 65:
       probe.cutoff_angles *)
  [
    SExpr (EAttribute (EName "probe") "cutoff_angles") ];
  (* cell 66:
       mean_diffraction_pattern = exit_waves.diffraction_patterns().mean(0) *)
  [
    SAssign (EName "mean_diffraction_pattern") (ECall (EAttribute (ECall (EAttribute (EName "exit_waves") "diffraction_patterns") []) "mean") [
      ENum "0"]) ];
  (* cell 67:
       #exit_waves.diffraction_patterns(). *)
  [];
  (* cell 69:
       mean_diffraction_pattern.show(power=0.25, units="mrad"); *)
  [
    SExpr (ECall (EAttribute (EName "mean_diffraction_pattern") "show") [
      EKeyword "power" (ENum "0.25");
      EKeyword "units" (EStr "mrad")]) ];
  (* cell 71:
       from ase.io import read
       cluster = read("cluster_on_carbon.cfg")
       print(
           "Number of atoms: {} \nCell: {:.2f} x {:.2f} x {:.2f}".format(
               len(cluster), *np.diag(cluster.cell)
           )
       ) *)
  [
    SImportFrom ["ase"; "io"] "read";
    SAssign (EName "cluster") (ECall (EName "read") [EStr "cluster_on_carbon.cfg"]);
    SExpr (ECall (EName "print") [
      ECall (EAttribute (EStr "Number of atoms: {} \nCell: {:.2f} x {:.2f} x {:.2f}") "format") [
        ECall (EName "len") [EName "cluster"];
        EStarred (ECall (EAttribute (EName "np") "diag") [
          EAttribute (EName "cluster") "cell"])]]) ];
  (* cell 72:
       abtem.show_atoms(cluster, plane="xz", title="Side view") *)
  [
    SExpr (ECall (EAttribute (EName "abtem") "show_atoms") [
      EName "cluster";
      EKeyword "plane" (EStr "xz");
      EKeyword "title" (EStr "Side view")]) ];
  (* cell 74:
       cluster_potential = abtem.Potential(cluster, gpts=768, slice_thickness=2)
       S = abtem.SMatrix(
           potential=cluster_potential, interpolation=6, energy=150e3, semiangle_cutoff=25
       )
       S.cutoff_angles *)
  [
    SAssign (EName "cluster_potential") (ECall (EAttribute (EName "abtem") "Potential") [
      EName "cluster";
      EKeyword "gpts" (ENum "768");
      EKeyword "slice_thickness" (ENum "2")]);
    SAssign (EName "S") (ECall (EAttribute (EName "abtem") "SMatrix") [
      EKeyword "potential" (EName "cluster_potential");
      EKeyword "interpolation" (ENum "6");
      EKeyword "energy" (ENum "150e3");
      EKeyword "semiangle_cutoff" (ENum "25")]);
    SExpr (EAttribute (EName "S") "cutoff_angles") ];
  (* cell 76:
       S.dummy_probes(plane="exit").show() *)
  [
    SExpr (ECall (EAttribute (ECall (EAttribute (EName "S") "dummy_probes") [
      EKeyword "plane" (EStr "exit")]) "show") []) ];
  (* cell 78:
       ctf = abtem.CTF(defocus=[0, 70])
       S.dummy_probes(plane="exit", ctf=ctf).show(interact=True) *)
  [
    SAssign (EName "ctf") (ECall (EAttribute (EName "abtem") "CTF") [
      EKeyword "defocus" (EList [ENum "0"; ENum "70"])]);
    SExpr (ECall (EAttribute (ECall (EAttribute (EName "S") "dummy_probes") [
      EKeyword "plane" (EStr "exit");
      EKeyword "ctf" (EName "ctf")]) "show") [EKeyword "interact" (EBool true)]) ];
  (* cell 80:
       S.build().array *)
  [
    SExpr (EAttribute (ECall (EAttribute (EName "S") "build") []) "array") ];
  (* cell 82:
       plane_waves = S.build().waves *)
  [
    SAssign (EName "plane_waves") (EAttribute (ECall (EAttribute (EName "S") "build") []) "waves") ];
  (* cell 84:
       plane_waves[:50:10].complex_images().compute().show(
           interact=True, cbar=True, cmap="hsv"
       ) *)
  [
    SExpr (ECall (EAttribute (ECall (EAttribute (ECall (EAttribute (ESubscript (EName "plane_waves") (ESlice None (Some (ENum "50")) (Some (ENum "10")))) "complex_images") []) "compute") []) "show") [
      EKeyword "interact" (EBool true);
      EKeyword "cbar" (EBool true);
      EKeyword "cmap" (EStr "hsv")]) ];
  (* cell 86:
       maadf_detector = abtem.AnnularDetector(inner=60, outer=150) *)
  [
    SAssign (EName "maadf_detector") (ECall (EAttribute (EName "abtem") "AnnularDetector") [
      EKeyword "inner" (ENum "60");
      EKeyword "outer" (ENum "150")]) ];
  (* cell 88:
       image_prism = S.scan(
           detectors=maadf_detector,
           max_batch_reduction=50,
           ctf=ctf,
       ) *)
  [
    SAssign (EName "image_prism") (ECall (EAttribute (EName "S") "scan") [
      EKeyword "detectors" (EName "maadf_detector");
      EKeyword "max_batch_reduction" (ENum "50");
      EKeyword "ctf" (EName "ctf")]) ];
  (* cell 90:
       image_prism.array *)
  [
    SExpr (EAttribute (EName "image_prism") "array") ];
  (* cell 92:
       image_prism.compute() *)
  [
    SExpr (ECall (EAttribute (EName "image_prism") "compute") []) ];
  (* cell 94:
       image_prism.gaussian_filter(0.35).interpolate(0.1).show(interact=True); *)
  [
    SExpr (ECall (EAttribute (ECall (EAttribute (ECall (EAttribute (EName "image_prism") "gaussian_filter") [
      ENum "0.35"]) "interpolate") [ENum "0.1"]) "show") [EKeyword "interact" (EBool true)]) ];
  (* cell 96:
       exit_waves = probe.multislice(potential=frozen_phonon_potential)
       exit_waves.array *)
  [
    SAssign (EName "exit_waves") (ECall (EAttribute (EName "probe") "multislice") [
      EKeyword "potential" (EName "frozen_phonon_potential")]);
    SExpr (EAttribute (EName "exit_waves") "array") ];
  (* cell 97:
       exit_waves = probe.multislice(potential=frozen_phonon_potential)
       exit_waves.compute(scheduler="threads", num_workers=2) *)
  [
    SAssign (EName "exit_waves") (ECall (EAttribute (EName "probe") "multislice") [
      EKeyword "potential" (EName "frozen_phonon_potential")]);
    SExpr (ECall (EAttribute (EName "exit_waves") "compute") [
      EKeyword "scheduler" (EStr "threads");
      EKeyword "num_workers" (ENum "2")]) ];
  (* cell 98:
 *)
  [];
  (* cell 100:
       from dask.distributed import Client
       client = Client(n_workers=4, threads_per_worker=1)
       client *)
  [
    SImportFrom ["dask"; "distributed"] "Client";
    SAssign (EName "client") (ECall (EName "Client") [
      EKeyword "n_workers" (ENum "4");
      EKeyword "threads_per_worker" (ENum "1")]);
    SExpr (EName "client") ];
  (* cell 102:
       exit_waves = probe.multislice(potential=frozen_phonon_potential)
       exit_waves.compute() *)
  [
    SAssign (EName "exit_waves") (ECall (EAttribute (EName "probe") "multislice") [
      EKeyword "potential" (EName "frozen_phonon_potential")]);
    SExpr (ECall (EAttribute (EName "exit_waves") "compute") []) ]
].

Definition nanoparticle_on_carbon : notebook :=
[
  (* cell 1:
       %matplotlib inline
       import abtem
       import ase
       import matplotlib.pyplot as plt
       import numpy as np
       from ase.visualize import view *)
  [
    SMagic "matplotlib" "inline";
    SImport ["abtem"] None;
    SImport ["ase"] None;
    SImport ["matplotlib"; "pyplot"] (Some "plt");
    SImport ["numpy"] (Some "np");
    SImportFrom ["ase"; "visualize"] "view" ];
  (* cell 2:
       from ase.build import bulk
       carbon = bulk("C", cubic=True)
       carbon *= (14, 14, 14)
       carbon.positions[:] += (
           np.random.randn(len(carbon), 3) * 0.5
       )  # displace atoms with a standard deviation of .5 Å
       carbon.wrap()
       abtem.show_atoms(carbon) *)
  [
    SImportFrom ["ase"; "build"] "bulk";
    SAssign (EName "carbon") (ECall (EName "bulk") [
      EStr "C";
      EKeyword "cubic" (EBool true)]);
    SAugAssign (EName "carbon") OpMult (ETuple [ENum "14"; ENum "14"; ENum "14"]);
    SAugAssign (ESubscript (EAttribute (EName "carbon") "positions") (ESlice None None None)) OpAdd (EBinOp (ECall (EAttribute (EAttribute (EName "np") "random") "randn") [
      ECall (EName "len") [EName "carbon"];
      ENum "3"]) OpMult (ENum "0.5"));
    SExpr (ECall (EAttribute (EName "carbon") "wrap") []);
    SExpr (ECall (EAttribute (EName "abtem") "show_atoms") [EName "carbon"]) ];
  (* cell 4:
       from ase.cluster import Decahedron
       cluster = Decahedron(
           "Cu",
           10,  # Number of atoms on the facets perpendicular to the five fold axis.
           2,  # Number of atoms on the facets parallel to the five fold axis.
           0,  # Depth of re-entrence at the pentagon corners.
       )
       cluster.rotate("x", 30)
       abtem.show_atoms(cluster) *)
  [
    SImportFrom ["ase"; "cluster"] "Decahedron";
    SAssign (EName "cluster") (ECall (EName "Decahedron") [
      EStr "Cu";
      ENum "10";
      ENum "2";
      ENum "0"]);
    SExpr (ECall (EAttribute (EName "cluster") "rotate") [EStr "x"; ENum "30"]);
    SExpr (ECall (EAttribute (EName "abtem") "show_atoms") [EName "cluster"]) ];
  (* cell 6:
       center_height = 30
       translated_cluster = cluster.copy()
       translated_cluster.translate(np.diag(carbon.cell) / 2 + (0, 0, center_height)) *)
  [
    SAssign (EName "center_height") (ENum "30");
    SAssign (EName "translated_cluster") (ECall (EAttribute (EName "cluster") "copy") []);
    SExpr (ECall (EAttribute (EName "translated_cluster") "translate") [
      EBinOp (EBinOp (ECall (EAttribute (EName "np") "diag") [
        EAttribute (EName "carbon") "cell"
      ]) OpDiv (ENum "2")) OpAdd (ETuple [ENum "0"; ENum "0"; EName "center_height"])]) ];
  (* cell 8:
       cluster_on_carbon = carbon + translated_cluster
       #cluster_on_carbon.wrap()
       abtem.show_atoms(cluster_on_carbon, plane="xz") *)
  [
    SAssign (EName "cluster_on_carbon") (EBinOp (EName "carbon") OpAdd (EName "translated_cluster"));
    SExpr (ECall (EAttribute (EName "abtem") "show_atoms") [
      EName "cluster_on_carbon";
      EKeyword "plane" (EStr "xz")]) ];
  (* cell 10:
       cluster_on_carbon.center(axis=2, vacuum=4) *)
  [
    SExpr (ECall (EAttribute (EName "cluster_on_carbon") "center") [
      EKeyword "axis" (ENum "2");
      EKeyword "vacuum" (ENum "4")]) ];
  (* cell 11:
       rotated = cluster_on_carbon.copy()
       rotated.rotate("x", 180, rotate_cell=True) *)
  [
    SAssign (EName "rotated") (ECall (EAttribute (EName "cluster_on_carbon") "copy") []);
    SExpr (ECall (EAttribute (EName "rotated") "rotate") [
      EStr "x";
      ENum "180";
      EKeyword "rotate_cell" (EBool true)]) ];
  (* cell 12:
       fig, (ax1, ax2) = plt.subplots(1, 2, figsize=(10, 4))
       abtem.show_atoms(rotated, plane="yx", ax=ax1)
       abtem.show_atoms(cluster_on_carbon, plane="xz", ax=ax2) *)
  [
    SAssign (ETuple [
      EName "fig";
      ETuple [EName "ax1"; EName "ax2"]
    ]) (ECall (EAttribute (EName "plt") "subplots") [ENum "1"; ENum "2"; EKeyword "figsize" (ETuple [ENum "10"; ENum "4"])]);
    SExpr (ECall (EAttribute (EName "abtem") "show_atoms") [
      EName "rotated";
      EKeyword "plane" (EStr "yx");
      EKeyword "ax" (EName "ax1")]);
    SExpr (ECall (EAttribute (EName "abtem") "show_atoms") [
      EName "cluster_on_carbon";
      EKeyword "plane" (EStr "xz");
      EKeyword "ax" (EName "ax2")]) ];
  (* cell 13:
       potential = abtem.Potential(cluster_on_carbon, sampling=.05) *)
  [
    SAssign (EName "potential") (ECall (EAttribute (EName "abtem") "Potential") [
      EName "cluster_on_carbon";
      EKeyword "sampling" (ENum ".05")]) ];
  (* cell 14:
       projected = potential.build().to_images().compute() *)
  [
    SAssign (EName "projected") (ECall (EAttribute (ECall (EAttribute (ECall (EAttribute (EName "potential") "build") []) "to_images") []) "compute") []) ];
  (* cell 15:
       fig, ax = plt.subplots()
       visualization = projected.show(ax=ax, display=False)
       visualization.axis_off()
       visualization.adjust_tight_bbox()
       animation = visualization.animate(interval=100)
       animation.save("../intro_multislice/potential.gif", writer="pillow") *)
  [
    SAssign (ETuple [
      EName "fig";
      EName "ax"]) (ECall (EAttribute (EName "plt") "subplots") []);
    SAssign (EName "visualization") (ECall (EAttribute (EName "projected") "show") [
      EKeyword "ax" (EName "ax");
      EKeyword "display" (EBool false)]);
    SExpr (ECall (EAttribute (EName "visualization") "axis_off") []);
    SExpr (ECall (EAttribute (EName "visualization") "adjust_tight_bbox") []);
    SAssign (EName "animation") (ECall (EAttribute (EName "visualization") "animate") [
      EKeyword "interval" (ENum "100")]);
    SExpr (ECall (EAttribute (EName "animation") "save") [
      EStr "../intro_multislice/potential.gif";
      EKeyword "writer" (EStr "pillow")]) ];
  (* cell 17:
       write("cluster_on_carbon.cfg", cluster_on_carbon) *)
  [
    SExpr (ECall (EName "write") [EStr "cluster_on_carbon.cfg"; EName "cluster_on_carbon"]) ]
].

(** The four notebooks, in the order of the files. *)
Definition all_notebooks : list notebook :=
  [atomic_models_with_ase; image_simulation_with_abtem;
   image_simulation_with_abtem_supplement; nanoparticle_on_carbon].

(** The statements of the nanoparticle notebook before its last one. *)
Definition nanoparticle_init : list stmt :=
  removelast (concat nanoparticle_on_carbon).

End Notebooks.

(** ** Running a notebook

    A notebook defines no function of its own, so every operation it
    performs (an import, an attribute access, a call, an operator, an item
    assignment) is carried out by the Python runtime or by a library.  The
    kernel below sequences these operations as the notebook's statements
    prescribe and sends each one as a [request] to a [World], which answers
    with a value or with an exception.  The only exceptions the kernel
    raises by itself are [NameError], for a name that is not bound, and the
    [ValueError] of unpacking a wrong number of values. *)

Module Kernel.
Import Py.

Inductive value :=
| VNone
| VBool (b : bool)
| VStr (s : string)
| VNum (tok : string)
| VTuple (vs : list value)
| VList (vs : list value)
| VDict (items : list value)
| VItem (k v : value)
| VSlice (lower upper step : option value)
| VKeyword (arg : string) (v : value)
| VStarred (v : value)
| VJoined (parts : list value)
| VBuiltin (name : string)
| VModule (path : list string)
| VObject (id : N).

Inductive request :=
| RMagic (name line : string)
| RImport (path : list string) (top : bool)
| RImportFrom (path : list string) (name : string)
| RGetAttr (v : value) (attr : string)
| RSetAttr (v : value) (attr : string) (x : value)
| RLoadMethod (recv : value) (method : string)
| RCallMethod (recv : value) (method : string) (args : list value)
| RCall (f : value) (args : list value)
| RGetItem (v ix : value)
| RSetItem (v ix x : value)
| RBinOp (op : operator) (l r : value)
| RInplace (op : operator) (l r : value)
| RUnaryOp (op : unaryop) (v : value)
| RCompare (op : cmpop) (l r : value)
| RFormat (v : value) (spec : string)
| RUnpack (v : value) (n : nat).

Inductive reply :=
| Returned (v : value)
| Threw (e : value).

Definition event : Type := request * reply.

(** The outside world: a state and its answer to each request. *)
Record World := {
  wstate : Type;
  respond : request -> wstate -> reply * wstate
}.

Inductive exn :=
| NameError (name : string)
| UnpackError (expected got : nat)
| SyntaxUnsupported
| Raised (e : value).

Inductive outcome (A : Type) :=
| Ok (a : A)
| Fail (e : exn).
Arguments Ok {A} a.
Arguments Fail {A} e.

(** The names of Python's [builtins] module and those IPython adds. *)
Definition python_builtins : list string :=
  ["abs"; "aiter"; "all"; "anext"; "any"; "ascii"; "bin"; "bool";
   "breakpoint"; "bytearray"; "bytes"; "callable"; "chr"; "classmethod";
   "compile"; "complex"; "delattr"; "dict"; "dir"; "divmod"; "enumerate";
   "eval"; "exec"; "filter"; "float"; "format"; "frozenset"; "getattr";
   "globals"; "hasattr"; "hash"; "help"; "hex"; "id"; "input"; "int";
   "isinstance"; "issubclass"; "iter"; "len"; "list"; "locals"; "map";
   "max"; "memoryview"; "min"; "next"; "object"; "oct"; "open"; "ord";
   "pow"; "print"; "property"; "range"; "repr"; "reversed"; "round"; "set";
   "setattr"; "slice"; "sorted"; "staticmethod"; "str"; "sum"; "super";
   "tuple"; "type"; "vars"; "zip"; "__import__";
   "display"; "get_ipython"; "exit"; "quit"].

Definition is_builtin (x : string) : bool := bool_decide (x ∈ python_builtins).

(** The notebook's global namespace. *)
Abbreviation env := (gmap string value).

Section Run.
Context (W : World).

(** The kernel's state: the world, the events so far (oldest first) and
    the number of syntax nodes visited. *)
Record kstate := {
  world : wstate W;
  trace : list event;
  steps : nat
}.

Definition M (A : Type) : Type := kstate -> outcome A * kstate.

Definition ret {A} (a : A) : M A := fun k => (Ok a, k).

Definition raise {A} (e : exn) : M A := fun k => (Fail e, k).

Definition bind {A B} (c : M A) (f : A -> M B) : M B :=
  fun k =>
    match c k with
    | (Ok a, k') => f a k'
    | (Fail e, k') => (Fail e, k')
    end.

Definition tick : M unit :=
  fun k => (Ok tt, {| world := world k; trace := trace k; steps := S (steps k) |}).

(** Send a request to the world; an exception it throws is raised as is. *)
Definition ask (r : request) : M value :=
  fun k =>
    let '(rep, w) := respond W r (world k) in
    (match rep with Returned v => Ok v | Threw e => Fail (Raised e) end,
     {| world := w; trace := trace k ++ [(r, rep)]; steps := steps k |}).

Notation "x <- c ;; f" := (bind c (fun x => f))
  (at level 100, c at next level, right associativity).
Notation "c ;;; f" := (bind c (fun _ => f))
  (at level 100, right associativity).

Definition mapM {A B} (f : A -> M B) : list A -> M (list B) :=
  fix go l :=
    match l with
    | [] => ret []
    | a :: l' => b <- f a ;; bs <- go l' ;; ret (b :: bs)
    end.

(** Name lookup: the notebook's globals, then the builtins. *)
Definition lookup_name (g : env) (x : string) : M value :=
  match g !! x with
  | Some v => ret v
  | None => if is_builtin x then ret (VBuiltin x) else raise (NameError x)
  end.

(** Evaluation, in Python's order: the callee before the arguments, the
    arguments left to right, the operands left to right.  A call
    [r.m(args)] looks the method up on [r] before the arguments are
    evaluated. *)
Fixpoint eval (g : env) (e : expr) : M value :=
  tick ;;;
  match e with
  | EName x => lookup_name g x
  | EStr s => ret (VStr s)
  | ENum t => ret (VNum t)
  | EBool b => ret (VBool b)
  | ENone => ret VNone
  | ETuple es => vs <- mapM (eval g) es ;; ret (VTuple vs)
  | EList es => vs <- mapM (eval g) es ;; ret (VList vs)
  | EDict es => vs <- mapM (eval g) es ;; ret (VDict vs)
  | EItem k v => a <- eval g k ;; b <- eval g v ;; ret (VItem a b)
  | EAttribute v a => x <- eval g v ;; ask (RGetAttr x a)
  | ECall (EAttribute r m) args =>
      recv <- eval g r ;;
      ask (RLoadMethod recv m) ;;;
      vs <- mapM (eval g) args ;;
      ask (RCallMethod recv m vs)
  | ECall f args =>
      fv <- eval g f ;; vs <- mapM (eval g) args ;; ask (RCall fv vs)
  | EKeyword k v => x <- eval g v ;; ret (VKeyword k x)
  | EStarred v => x <- eval g v ;; ret (VStarred x)
  | ESubscript v s => x <- eval g v ;; i <- eval g s ;; ask (RGetItem x i)
  | ESlice lo hi st =>
      a <- match lo with Some x => v <- eval g x ;; ret (Some v) | None => ret None end ;;
      b <- match hi with Some x => v <- eval g x ;; ret (Some v) | None => ret None end ;;
      c <- match st with Some x => v <- eval g x ;; ret (Some v) | None => ret None end ;;
      ret (VSlice a b c)
  | EBinOp l op r => a <- eval g l ;; b <- eval g r ;; ask (RBinOp op a b)
  | EUnaryOp op v => a <- eval g v ;; ask (RUnaryOp op a)
  | ECompare l op r => a <- eval g l ;; b <- eval g r ;; ask (RCompare op a b)
  | EJoinedStr es => vs <- mapM (eval g) es ;; ret (VJoined vs)
  | EFormattedValue v spec => a <- eval g v ;; ask (RFormat a spec)
  | EBoolOp _ _ | EIfExp _ _ _ | ELambda _ _ | EListComp _ _ _ _ =>
      raise SyntaxUnsupported
  end.

Definition items_of (v : value) : option (list value) :=
  match v with
  | VTuple vs | VList vs => Some vs
  | _ => None
  end.

(** The [n] values a value unpacks to: a tuple or list literal yields its
    items, anything else is iterated by the world. *)
Definition unpack (v : value) (n : nat) : M (list value) :=
  seq <- match items_of v with
         | Some _ => ret v
         | None => ask (RUnpack v n)
         end ;;
  match items_of seq with
  | Some vs => if Nat.eqb (length vs) n then ret vs else raise (UnpackError n (length vs))
  | None => raise (UnpackError n 0)
  end.

(** Binding values to targets, left to right. *)
Definition assign_each (f : env -> expr -> value -> M env) :
    env -> list expr -> list value -> M env :=
  fix go g ts vs :=
    match ts, vs with
    | t :: ts', x :: vs' => g' <- f g t x ;; go g' ts' vs'
    | _, _ => ret g
    end.

(** Binding a value to an assignment target. *)
Fixpoint assign (g : env) (t : expr) (v : value) : M env :=
  tick ;;;
  match t with
  | EName x => ret (<[x := v]> g)
  | EAttribute o a => ov <- eval g o ;; ask (RSetAttr ov a v) ;;; ret g
  | ESubscript o i =>
      ov <- eval g o ;; iv <- eval g i ;; ask (RSetItem ov iv v) ;;; ret g
  | ETuple ts | EList ts =>
      vs <- unpack v (length ts) ;; assign_each assign g ts vs
  | _ => raise SyntaxUnsupported
  end.

(** One statement.  An augmented assignment reads the target, applies the
    in-place operator and stores the result back. *)
Definition exec (g : env) (s : stmt) : M env :=
  tick ;;;
  match s with
  | SMagic n l => ask (RMagic n l) ;;; ret g
  | SImport path (Some a) => m <- ask (RImport path false) ;; ret (<[a := m]> g)
  | SImport (top :: rest) None =>
      m <- ask (RImport (top :: rest) true) ;; ret (<[top := m]> g)
  | SImport [] None => raise SyntaxUnsupported
  | SImportFrom path name => m <- ask (RImportFrom path name) ;; ret (<[name := m]> g)
  | SAssign t v => x <- eval g v ;; assign g t x
  | SAugAssign (EName x) op v =>
      old <- eval g (EName x) ;; r <- eval g v ;;
      new <- ask (RInplace op old r) ;; ret (<[x := new]> g)
  | SAugAssign (EAttribute o a) op v =>
      tick ;;;
      ov <- eval g o ;; old <- ask (RGetAttr ov a) ;; r <- eval g v ;;
      new <- ask (RInplace op old r) ;; ask (RSetAttr ov a new) ;;; ret g
  | SAugAssign (ESubscript o i) op v =>
      tick ;;;
      ov <- eval g o ;; iv <- eval g i ;; old <- ask (RGetItem ov iv) ;;
      r <- eval g v ;;
      new <- ask (RInplace op old r) ;; ask (RSetItem ov iv new) ;;; ret g
  | SExpr e => eval g e ;;; ret g
  | SPass => ret g
  | _ => raise SyntaxUnsupported
  end.

Fixpoint exec_all (g : env) (ss : list stmt) : M env :=
  match ss with
  | [] => ret g
  | s :: ss' => g' <- exec g s ;; exec_all g' ss'
  end.

Definition start (w : wstate W) : kstate :=
  {| world := w; trace := []; steps := 0 |}.

(** Running a notebook in a fresh kernel: all cells, top to bottom,
    stopping at the first exception. *)
Definition run (nb : notebook) (w : wstate W) : outcome env * kstate :=
  exec_all ∅ (concat nb) (start w).

End Run.

Arguments world {W} k.
Arguments trace {W} k.
Arguments steps {W} k.

(** *** Properties of computations *)

(** An event in which the world returned. *)
Definition calm (ev : event) : Prop :=
  match snd ev with Returned _ => True | Threw _ => False end.

(** What the events [d] of a computation look like, given its outcome:
    an exception of the world is the reply to the last request, and no
    earlier request threw; with any other outcome no request threw. *)
Definition disciplined {A} (d : list event) (o : outcome A) : Prop :=
  match o with
  | Fail (Raised v) => exists r d', d = d' ++ [(r, Threw v)] /\ Forall calm d'
  | _ => Forall calm d
  end.

(** [within c n m]: from any state, [c] visits at most [n] nodes and
    sends at most [m] requests, and its events are disciplined. *)
Definition within {W A} (c : M W A) (n m : nat) : Prop :=
  forall k, exists d,
    trace (snd (c k)) = trace k ++ d /\
    steps (snd (c k)) <= steps k + n /\
    length d <= m /\
    disciplined d (fst (c k)).

(** [triple c Q E]: from any state, a result of [c] satisfies [Q] and an
    exception of [c] satisfies [E]. *)
Definition triple {W A} (c : M W A) (Q : A -> Prop) (E : exn -> Prop) : Prop :=
  forall k, match fst (c k) with Ok a => Q a | Fail e => E e end.

(** The exceptions that do not come from the notebook's own text: those
    of the world, and the unpacking of a value of the wrong length. *)
Definition foreign (e : exn) : Prop :=
  match e with NameError _ | SyntaxUnsupported => False | _ => True end.

Definition any_exn (e : exn) : Prop := True.

(** [covers g b]: the namespace binds every name of [b];
    [only g c]: it binds no name outside [c]. *)
Definition covers (g : env) (b : list string) : Prop :=
  forall x, x ∈ b -> is_Some (g !! x).

Definition only (g : env) (c : list string) : Prop :=
  forall x, is_Some (g !! x) -> x ∈ c.

(** Sizes: the nodes of an expression, and of a statement with the
    expressions it holds. *)
Definition size (e : expr) : nat := length (subexprs e).

Definition osize (o : option expr) : nat :=
  match o with Some x => size x | None => 0 end.

Definition stmt_size (s : stmt) : nat :=
  1 + length (flat_map subexprs (stmt_exprs s)).

Fixpoint stmts_size (ss : list stmt) : nat :=
  match ss with [] => 0 | s :: ss' => stmt_size s + stmts_size ss' end.

Definition is_attribute (e : expr) : bool :=
  match e with EAttribute _ _ => true | _ => false end.

(** *** Static counterparts *)

(** Number of syntax nodes of a notebook: the bound on [steps]. *)
Definition nodes (nb : notebook) : nat :=
  length (all_stmts nb) + length (all_exprs nb).

(** The names a target binds. *)
Fixpoint target_names (t : expr) : list string :=
  match t with
  | EName x => [x]
  | ETuple ts | EList ts => flat_map target_names ts
  | _ => []
  end.

(** The names a statement may bind. *)
Definition binds (s : stmt) : list string :=
  match s with
  | SImport _ (Some a) => [a]
  | SImport (top :: _) None => [top]
  | SImportFrom _ name => [name]
  | SAssign t _ => target_names t
  | SAugAssign (EName x) _ _ => [x]
  | _ => []
  end.

(** *** Scoping

    A static check that every name a notebook reads is bound by an earlier
    statement of the notebook or is a builtin, and that the notebook stays
    within the syntax the kernel runs. *)
Definition name_ok (b : list string) (e : expr) : bool :=
  match e with
  | EName x => bool_decide (x ∈ b) || is_builtin x
  | EBoolOp _ _ | EIfExp _ _ _ | ELambda _ _ | EListComp _ _ _ _ => false
  | _ => true
  end.

Definition expr_ok (b : list string) (e : expr) : bool :=
  forallb (name_ok b) (subexprs e).

Fixpoint target_ok (b : list string) (t : expr) : bool :=
  match t with
  | EName _ => true
  | EAttribute o _ => expr_ok b o
  | ESubscript o i => expr_ok b o && expr_ok b i
  | ETuple ts | EList ts => forallb (target_ok b) ts
  | _ => false
  end.

Definition stmt_ok (b : list string) (s : stmt) : bool :=
  match s with
  | SMagic _ _ | SImportFrom _ _ | SPass | SImport _ (Some _)
  | SImport (_ :: _) None => true
  | SAssign t v => expr_ok b v && target_ok b t
  | SAugAssign (EName x) _ v => expr_ok b (EName x) && expr_ok b v
  | SAugAssign (EAttribute o _) _ v => expr_ok b o && expr_ok b v
  | SAugAssign (ESubscript o i) _ v => expr_ok b o && expr_ok b i && expr_ok b v
  | SExpr e => expr_ok b e
  | _ => false
  end.

Fixpoint scoped_from (b : list string) (ss : list stmt) : bool :=
  match ss with
  | [] => true
  | s :: ss' => stmt_ok b s && scoped_from (binds s ++ b) ss'
  end.

Definition well_scoped (nb : notebook) : bool := scoped_from [] (concat nb).

(** *** A world in which nothing fails

    Every request succeeds: an import yields the module, an attribute of
    a module its member, unpacking yields as many objects as asked for,
    and every other operation a fresh opaque object. *)
Definition quiet_respond (r : request) (n : N) : reply * N :=
  match r with
  | RMagic _ _ | RSetAttr _ _ _ | RSetItem _ _ _ | RLoadMethod _ _ =>
      (Returned VNone, n)
  | RImport path top =>
      (Returned (VModule (if top then take 1 path else path)), n)
  | RImportFrom path name => (Returned (VModule (path ++ [name])), n)
  | RGetAttr (VModule p) a => (Returned (VModule (p ++ [a])), n)
  | RFormat _ _ => (Returned (VStr "?"), n)
  | RUnpack _ m =>
      (Returned (VTuple (map (fun i => VObject (n + N.of_nat i)) (seq 0 m))),
       (n + N.of_nat m)%N)
  | _ => (Returned (VObject n), N.succ n)
  end.

Definition quiet : World := {| wstate := N; respond := quiet_respond |}.

(** *** What a trace says about files *)

(** The path a request writes to, for the writers the notebooks use:
    ASE's [write], a measurement's [to_zarr] and an animation's [save]. *)
Definition written_path (r : request) : option string :=
  match r with
  | RCall (VModule ["ase"; "io"; "write"]) (VStr p :: _) => Some p
  | RCallMethod _ "to_zarr" (VStr p :: _) => Some p
  | RCallMethod _ "save" (VStr p :: _) => Some p
  | _ => None
  end.

Definition files_written (t : list event) : list string :=
  omap (fun ev => written_path (fst ev)) t.

(** A notebook writes nothing when no run of it, in any world, sends a
    request that writes a file. *)
Definition writes_nothing (nb : notebook) : Prop :=
  forall (W : World) (w : wstate W),
    files_written (trace (snd (run W nb w))) = [].

Definition threw (ev : event) : bool :=
  match snd ev with Threw _ => true | Returned _ => false end.

End Kernel.

(** ** The Sr-to-La substitution cell

    The cell of atomic_models_with_ase.ipynb that turns part of the
    SrTiO3 crystal into LaTiO3:
<<
    sto_lto = repeated_srtio3.copy()
    mask = sto_lto.symbols == "Sr"
    mask = mask * (sto_lto.positions[:, 1] < 7.5)
    sto_lto.numbers[mask] = 57
>>
    Python variables hold references, and [sto_lto.numbers] is the array
    the object owns, not a copy of it, so the last line mutates [sto_lto]
    in place.  The model keeps objects and arrays in a store addressed by
    location; the boolean masks are temporaries that nothing else refers
    to and are kept as plain lists. *)

Module Ase.

Abbreviation loc := positive.

(** A row of [positions]: x, y, z as float64. *)
Abbreviation vec3 := (float * float * float)%type.

Definition coord (j : nat) (p : vec3) : option float :=
  match j with
  | 0 => Some (fst (fst p))
  | 1 => Some (snd (fst p))
  | 2 => Some (snd p)
  | _ => None
  end.

Inductive ndarray :=
| IntArray (data : list Z)
| Float3Array (data : list vec3).

(** An [Atoms] object: its [numbers] and [positions] arrays, the cell
    vectors and the periodicity flags. *)
Record Atoms := {
  numbers_ref : loc;
  positions_ref : loc;
  cell : vec3 * vec3 * vec3;
  pbc : bool * bool * bool
}.

Inductive object :=
| OArray (a : ndarray)
| OAtoms (a : Atoms).

Abbreviation heap := (gmap loc object).

Definition alloc (o : object) (h : heap) : loc * heap :=
  let l := fresh (dom h) in (l, <[l := o]> h).

Definition get_atoms (h : heap) (r : loc) : option Atoms :=
  match h !! r with Some (OAtoms a) => Some a | _ => None end.

Definition get_ints (h : heap) (l : loc) : option (list Z) :=
  match h !! l with Some (OArray (IntArray d)) => Some d | _ => None end.

Definition get_float3 (h : heap) (l : loc) : option (list vec3) :=
  match h !! l with Some (OArray (Float3Array d)) => Some d | _ => None end.

(** [ase.data.chemical_symbols]: the symbol of each atomic number. *)
Definition chemical_symbols : list string :=
  ["X"; "H"; "He"; "Li"; "Be"; "B"; "C"; "N"; "O"; "F"; "Ne"; "Na"; "Mg";
   "Al"; "Si"; "P"; "S"; "Cl"; "Ar"; "K"; "Ca"; "Sc"; "Ti"; "V"; "Cr";
   "Mn"; "Fe"; "Co"; "Ni"; "Cu"; "Zn"; "Ga"; "Ge"; "As"; "Se"; "Br"; "Kr";
   "Rb"; "Sr"; "Y"; "Zr"; "Nb"; "Mo"; "Tc"; "Ru"; "Rh"; "Pd"; "Ag"; "Cd";
   "In"; "Sn"; "Sb"; "Te"; "I"; "Xe"; "Cs"; "Ba"; "La"; "Ce"; "Pr"; "Nd";
   "Pm"; "Sm"; "Eu"; "Gd"; "Tb"; "Dy"; "Ho"; "Er"; "Tm"; "Yb"; "Lu"; "Hf";
   "Ta"; "W"; "Re"; "Os"; "Ir"; "Pt"; "Au"; "Hg"; "Tl"; "Pb"; "Bi"; "Po";
   "At"; "Rn"; "Fr"; "Ra"; "Ac"; "Th"; "Pa"; "U"; "Np"; "Pu"; "Am"; "Cm";
   "Bk"; "Cf"; "Es"; "Fm"; "Md"; "No"; "Lr"; "Rf"; "Db"; "Sg"; "Bh"; "Hs";
   "Mt"; "Ds"; "Rg"; "Cn"; "Nh"; "Fl"; "Mc"; "Lv"; "Ts"; "Og"].

(** The chemical symbol of an atomic number. *)
Definition symbol (n : Z) : option string :=
  if (n <? 0)%Z then None else chemical_symbols !! Z.to_nat n.

(** The atomic number of a chemical symbol. *)
Definition atomic_number (s : string) : option Z :=
  (fun r => Z.of_nat (fst r)) <$> list_find (fun x => x = s) chemical_symbols.

(** [atoms.copy()]: a new object with copies of the arrays. *)
Definition copy (r : loc) (h : heap) : option (loc * heap) :=
  a ← get_atoms h r;
  ns ← get_ints h (numbers_ref a);
  ps ← get_float3 h (positions_ref a);
  let '(ln, h) := alloc (OArray (IntArray ns)) h in
  let '(lp, h) := alloc (OArray (Float3Array ps)) h in
  Some (alloc (OAtoms {| numbers_ref := ln; positions_ref := lp;
                         cell := cell a; pbc := pbc a |}) h).

(** [atoms.symbols == s]: the numbers compared, element by element, with
    the atomic number that [s] stands for. *)
Definition symbols_eq (r : loc) (s : string) (h : heap) : option (list bool) :=
  a ← get_atoms h r;
  ns ← get_ints h (numbers_ref a);
  z ← atomic_number s;
  Some (map (fun n => Z.eqb n z) ns).

(** [atoms.positions[:, j]]: column [j] of the positions. *)
Definition positions_column (r : loc) (j : nat) (h : heap) : option (list float) :=
  a ← get_atoms h r;
  ps ← get_float3 h (positions_ref a);
  mapM (coord j) ps.

(** [xs < c] for an array and a scalar. *)
Definition lt_scalar (xs : list float) (c : float) : list bool :=
  map (fun x => PrimFloat.ltb x c) xs.

(** [a * b] for boolean arrays: the conjunction of the elements, for
    arrays of one shape or for one array of length one broadcast over
    the other; a [ValueError] otherwise. *)
Definition mul_bool (a b : list bool) : option (list bool) :=
  if Nat.eqb (length a) (length b) then Some (zip_with andb a b)
  else match a, b with
       | [x], _ => Some (map (andb x) b)
       | _, [y] => Some (map (fun x => andb x y) a)
       | _, _ => None
       end.

(** [arr[mask] = v]: in place, for a mask of the array's length; an
    [IndexError] otherwise. *)
Definition setitem_mask (l : loc) (mask : list bool) (v : Z) (h : heap) : option heap :=
  ns ← get_ints h l;
  if Nat.eqb (length mask) (length ns)
  then Some (<[l := OArray (IntArray (zip_with (fun (m : bool) n => if m then v else n) mask ns))]> h)
  else None.

(** The cell; its result is the reference bound to [sto_lto] and the
    store after the cell. *)
Definition substitute (repeated_srtio3 : loc) (h : heap) : option (loc * heap) :=
  '(sto_lto, h) ← copy repeated_srtio3 h;
  mask ← symbols_eq sto_lto "Sr" h;
  ys ← positions_column sto_lto 1 h;
  mask ← mul_bool mask (lt_scalar ys 7.5%float);
  numbers ← numbers_ref <$> get_atoms h sto_lto;
  h ← setitem_mask numbers mask 57 h;
  Some (sto_lto, h).

(** What a structure is, read off the store: atomic numbers, positions,
    cell and periodicity. *)
Abbreviation structure :=
  (list Z * list vec3 * (vec3 * vec3 * vec3) * (bool * bool * bool))%type.

Definition view (h : heap) (r : loc) : option structure :=
  a ← get_atoms h r;
  ns ← get_ints h (numbers_ref a);
  ps ← get_float3 h (positions_ref a);
  Some (ns, ps, cell a, pbc a).

(** Whether the cell changes the atom with number [n] at position [p]. *)
Definition substituted (n : Z) (p : vec3) : bool :=
  bool_decide (symbol n = Some "Sr") && PrimFloat.ltb (snd (fst p)) 7.5%float.

(** *** A small structure *)

(** Two Sr atoms, one of them exactly at y = 7.5, a Ti and an O atom. *)
Definition demo_cell : vec3 * vec3 * vec3 :=
  ((8, 0, 0), (0, 16, 0), (0, 0, 4))%float.

Definition demo_numbers : list Z := [38; 38; 22; 8]%Z.

Definition demo_positions : list vec3 :=
  [ (0, 1, 0); (0, 7.5, 0); (2, 1, 2); (2, 2, 0) ]%float.

Definition demo_heap : gmap positive object :=
  <[3%positive := OAtoms {| numbers_ref := 1; positions_ref := 2;
                            cell := demo_cell; pbc := (true, true, true) |}]>
    (<[2%positive := OArray (Float3Array demo_positions)]>
       (<[1%positive := OArray (IntArray demo_numbers)]> ∅)).

End Ase.

(** ** Static readings of the notebooks *)

Module Analysis.
Import Py.

(** The call sites of a notebook made under one of the given names. *)
Definition calls_named (names : list string) (nb : notebook) : list (expr * list expr) :=
  List.filter (called_as names) (all_calls nb).

(** *** Simulation calls *)

(** The methods that run or build a simulation. *)
Definition simulation_methods : list string := ["multislice"; "scan"; "build"].

(** The right-hand sides of the assignments to the variable [x]. *)
Definition assigned_values (x : string) (nb : notebook) : list expr :=
  flat_map (fun s => match s with
                     | SAssign (EName y) v => if String.eqb x y then [v] else []
                     | _ => []
                     end) (concat nb).

(** Whether an expression is a call [abtem.C(...)] of a member of the
    [abtem] module. *)
Definition is_abtem_call (v : expr) : bool :=
  match v with
  | ECall f _ => match dotted f with Some ["abtem"; _] => true | _ => false end
  | _ => false
  end.

(** Whether [x] is assigned in the notebook, and only ever the result of
    a call into [abtem]. *)
Definition abtem_object (nb : notebook) (x : string) : bool :=
  match assigned_values x nb with
  | [] => false
  | vs => forallb is_abtem_call vs
  end.

(** What the values assigned to [x] are constructed by. *)
Definition constructors (nb : notebook) (x : string) : list (list string) :=
  omap (fun v => match v with ECall f _ => dotted f | _ => None end)
       (assigned_values x nb).

(** Whether [abtem] is the imported module: bound by [import abtem] and
    by no other statement. *)
Definition is_import_abtem (s : stmt) : bool :=
  match s with SImport ["abtem"] None => true | _ => false end.

Definition abtem_imported (nb : notebook) : bool :=
  existsb is_import_abtem (concat nb) &&
  forallb (fun s => is_import_abtem s || negb (bool_decide ("abtem" ∈ Kernel.binds s)))
          (concat nb).

(** The receiver and the method of every simulation call. *)
Definition simulation_calls (nb : notebook) : list (option (list string) * string) :=
  flat_map (fun c => match fst c with
                     | EAttribute r m => [(dotted r, m)]
                     | _ => []
                     end) (calls_named simulation_methods nb).

(** Every simulation call is a method call on a variable that holds an
    object made by [abtem]. *)
Definition delegated (nb : notebook) : bool :=
  forallb (fun c => match fst c with
                    | EAttribute (EName x) _ => abtem_object nb x
                    | _ => false
                    end) (calls_named simulation_methods nb).

(** *** Files *)

(** The text after the last dot of a path. *)
Fixpoint extension (p : string) : option string :=
  match p with
  | EmptyString => None
  | String c p' =>
      match extension p' with
      | Some e => Some e
      | None => if Ascii.eqb c "."%char then Some p' else None
      end
  end.

(** ASE's functions that read and write structure files. *)
Definition structure_io : list string := ["read"; "write"].

(** The functions and methods the notebooks write files with. *)
Definition writers : list string := ["write"; "to_zarr"; "save"].

(** The paths given, as string literals, to the calls made under the
    given names. *)
Definition paths_of (names : list string) (nb : notebook) : list string :=
  omap (fun c => first_str (snd c)) (calls_named names nb).

(** Whether a call names its file by a string literal and leaves the
    format to the file's extension. *)
Definition by_extension (exts : list string) (c : expr * list expr) : bool :=
  match first_str (snd c) with
  | Some p =>
      match extension p with
      | Some e => bool_decide (e ∈ exts) && negb (bool_decide ("format" ∈ keyword_names (snd c)))
      | None => false
      end
  | None => false
  end.

(** The modules a notebook imports, by [import m] or [from m import x]. *)
Definition imports (nb : notebook) : list (list string) :=
  remove_dups
    (flat_map (fun s => match s with
                        | SImport m _ | SImportFrom m _ => [m]
                        | _ => []
                        end) (concat nb)).

(** Where a name is imported from, for [from m import name]. *)
Definition imported_from (nb : notebook) (name : string) : list (list string) :=
  flat_map (fun s => match s with
                     | SImportFrom m n => if String.eqb n name then [m] else []
                     | _ => []
                     end) (concat nb).

End Analysis.

(** ** The zarr cells

    The cells of image_simulation_with_abtem_supplement.ipynb that write
    the 4D-STEM measurement to disk and read it back:
<<
    measurement_4d.to_zarr("measurement_4d.zarr")
    measurement_4d = abtem.from_zarr("measurement_4d.zarr")
>>
    [to_zarr] and [from_zarr] are abTEM's; what they do with the path is
    the world's. *)

Module Zarr.
Import Py Kernel.





End Zarr.

(** ** Requests and the call sites they come from

    What a run asks of the world is fixed by the text of the notebook up
    to the values the world itself returned: a method call is requested
    under the method name written at a call site, with the literal
    arguments written there. *)

Module Sites.
Import Py Kernel.

Definition literals (literal : expr -> value -> bool) :
    list expr -> list value -> bool :=
  fix go es vs :=
    match es, vs with
    | [], [] => true
    | e :: es', v :: vs' => literal e v && go es' vs'
    | _, _ => false
    end.

Definition literal_opt (literal : expr -> value -> bool)
    (o : option expr) (w : option value) : bool :=
  match o, w with
  | Some e, Some v => literal e v
  | None, None => true
  | _, _ => false
  end.

(** [literal e v]: [v] is what [e] evaluates to as far as the text of [e]
    says.  A string or number literal fixes its value, a display, a
    keyword argument, a starred argument or a slice fixes the shape and
    constrains the parts; a name, an attribute, a call, a subscript or an
    operator leaves the value to the namespace and the world. *)
Fixpoint literal (e : expr) (v : value) : bool :=
  match e, v with
  | EStr s, VStr s' => bool_decide (s = s')
  | ENum t, VNum t' => bool_decide (t = t')
  | EBool b, VBool b' => Bool.eqb b b'
  | ENone, VNone => true
  | ETuple es, VTuple vs => literals literal es vs
  | EList es, VList vs => literals literal es vs
  | EDict es, VDict vs => literals literal es vs
  | EJoinedStr es, VJoined vs => literals literal es vs
  | EItem k x, VItem a b => literal k a && literal x b
  | EKeyword k x, VKeyword k' a => bool_decide (k = k') && literal x a
  | EStarred x, VStarred a => literal x a
  | ESlice lo hi st, VSlice a b c =>
      literal_opt literal lo a && literal_opt literal hi b && literal_opt literal st c
  | EStr _, _ | ENum _, _ | EBool _, _ | ENone, _ | ETuple _, _ | EList _, _
  | EDict _, _ | EJoinedStr _, _ | EItem _ _, _ | EKeyword _ _, _
  | EStarred _, _ | ESlice _ _ _, _ => false
  | _, _ => true
  end.

Definition constants (constant : expr -> option value) :
    list expr -> option (list value) :=
  fix go es :=
    match es with
    | [] => Some []
    | e :: es' =>
        match constant e, go es' with
        | Some v, Some vs => Some (v :: vs)
        | _, _ => None
        end
    end.

Definition constant_opt (constant : expr -> option value)
    (o : option expr) : option (option value) :=
  match o with
  | Some e => option_map Some (constant e)
  | None => Some None
  end.

(** The value of an expression made of literals only. *)
Fixpoint constant (e : expr) : option value :=
  match e with
  | EStr s => Some (VStr s)
  | ENum t => Some (VNum t)
  | EBool b => Some (VBool b)
  | ENone => Some VNone
  | ETuple es => option_map VTuple (constants constant es)
  | EList es => option_map VList (constants constant es)
  | EDict es => option_map VDict (constants constant es)
  | EJoinedStr es => option_map VJoined (constants constant es)
  | EItem k x =>
      match constant k, constant x with
      | Some a, Some b => Some (VItem a b)
      | _, _ => None
      end
  | EKeyword k x => option_map (VKeyword k) (constant x)
  | EStarred x => option_map VStarred (constant x)
  | ESlice lo hi st =>
      match constant_opt constant lo, constant_opt constant hi,
            constant_opt constant st with
      | Some a, Some b, Some c => Some (VSlice a b c)
      | _, _, _ => None
      end
  | _ => None
  end.

(** The argument lists of the call sites of the method [m], and of the
    calls that are not method calls. *)
Definition method_sites (m : string) (nodes : list expr) : list (list expr) :=
  flat_map (fun e => match e with
                     | ECall (EAttribute _ m') args =>
                         if String.eqb m' m then [args] else []
                     | _ => []
                     end) nodes.

Definition function_sites (nodes : list expr) : list (list expr) :=
  flat_map (fun e => match e with
                     | ECall f args => if is_attribute f then [] else [args]
                     | _ => []
                     end) nodes.

(** The expression nodes of a list of statements. *)
Definition nodes_of (ss : list stmt) : list expr :=
  flat_map subexprs (flat_map stmt_exprs ss).

Definition is_magic (n l : string) (s : stmt) : bool :=
  match s with
  | SMagic n' l' => bool_decide (n = n') && bool_decide (l = l')
  | _ => false
  end.

Definition is_import (p : list string) (top : bool) (s : stmt) : bool :=
  match s with
  | SImport p' a =>
      bool_decide (p = p') &&
      Bool.eqb top (match a with None => true | Some _ => false end)
  | _ => false
  end.

Definition is_import_from (p : list string) (n : string) (s : stmt) : bool :=
  match s with
  | SImportFrom p' n' => bool_decide (p = p') && bool_decide (n = n')
  | _ => false
  end.

(** [explains ss nodes r]: the request [r] is one that the statements
    [ss], with the expression nodes [nodes], ask for: an IPython line or
    an import that is a statement of [ss], a method looked up or called
    under a name and with the literal arguments of a call site, a function
    called with the literal arguments of a call site.  The other requests
    (attributes, items, operators) are not constrained. *)
Definition explains (ss : list stmt) (nodes : list expr) (r : request) : bool :=
  match r with
  | RMagic n l => existsb (is_magic n l) ss
  | RImport p top => existsb (is_import p top) ss
  | RImportFrom p n => existsb (is_import_from p n) ss
  | RLoadMethod _ m => existsb (fun _ => true) (method_sites m nodes)
  | RCallMethod _ m vs =>
      existsb (fun args => literals literal args vs) (method_sites m nodes)
  | RCall _ vs =>
      existsb (fun args => literals literal args vs) (function_sites nodes)
  | _ => true
  end.

(** [says c P Q]: from any state, [c] only adds events to the trace,
    each with a request that satisfies [P], and a result of [c]
    satisfies [Q]. *)
Definition says {W A} (c : M W A) (P : request -> Prop) (Q : A -> Prop) : Prop :=
  forall k, exists d,
    trace (snd (c k)) = trace k ++ d /\
    Forall (fun ev => P (fst ev)) d /\
    match fst (c k) with Ok a => Q a | Fail _ => True end.

(** The arguments of the requests that call the method [m]. *)
Definition method_calls (m : string) (t : list event) : list (list value) :=
  flat_map (fun ev => match fst ev with
                      | RCallMethod _ m' vs => if String.eqb m' m then [vs] else []
                      | _ => []
                      end) t.

(** Whether every call site of the method [m] in a notebook has literal
    arguments only, and the argument values of these sites. *)
Definition constant_sites (m : string) (nb : notebook) : list (list value) :=
  omap (constants constant) (method_sites m (nodes_of (concat nb))).

Definition all_constant (m : string) (nb : notebook) : bool :=
  forallb (fun args => match constants constant args with Some _ => true | None => false end)
          (method_sites m (nodes_of (concat nb))).

(** The imports a list of statements makes: the module, and the name for
    [from m import name]. *)
Definition import_statements (ss : list stmt) : list (list string * option string) :=
  flat_map (fun s => match s with
                     | SImport p _ => [(p, None)]
                     | SImportFrom p n => [(p, Some n)]
                     | _ => []
                     end) ss.

(** The imports a trace holds. *)
Definition import_requests (t : list event) : list (list string * option string) :=
  flat_map (fun ev => match fst ev with
                      | RImport p _ => [(p, None)]
                      | RImportFrom p n => [(p, Some n)]
                      | _ => []
                      end) t.

(** [updates g b g']: the namespace [g'] binds every name of [b] and
    agrees with [g] on every other name. *)
Definition updates (g : env) (b : list string) (g' : env) : Prop :=
  (forall x, x ∉ b -> g' !! x = g !! x) /\ (forall x, x ∈ b -> is_Some (g' !! x)).

End Sites.

(** ** Cells of atomic_models_with_ase and image_simulation_with_abtem *)

Module Cells.
Import Py Kernel Notebooks.

(** The statements of the cells [i], ..., [i + n - 1] of a notebook. *)
Definition cells_from (i n : nat) (nb : notebook) : list stmt :=
  concat (take n (drop i nb)).

(** The cell that repeats the surface:
<<
    repeated_srtio3 = srtio3_110.copy()
    repeated_srtio3 = srtio3_110 * (3, 4, 10)
    abtem.show_atoms(repeated_srtio3, legend=True);
>>
*)
Definition repeat_cell : list stmt := cells_from 12 1 atomic_models_with_ase.

(** The same cell with the first line's value computed but not bound. *)
Definition repeat_cell_unbound : list stmt :=
  match repeat_cell with
  | SAssign _ v :: rest => SExpr v :: rest
  | ss => ss
  end.

(** Statements run the way a notebook kernel keeps its namespace: a
    statement that raises binds nothing, and the bindings made by the
    statements before it stay.  [names] is the namespace left, [raised]
    the exception the run stopped on, if any. *)
Record left_by (W : World) := {
  names : env;
  raised : option exn;
  state : kstate W
}.
Arguments names {W} l.
Arguments raised {W} l.
Arguments state {W} l.

Fixpoint exec_keeping {W : World} (g : env) (ss : list stmt) (k : kstate W) : left_by W :=
  match ss with
  | [] => {| names := g; raised := None; state := k |}
  | s :: ss' =>
      match exec W g s k with
      | (Ok g', k') => exec_keeping g' ss' k'
      | (Fail e, k') => {| names := g; raised := Some e; state := k' |}
      end
  end.

(** A world in which a product raises and everything else succeeds. *)
Definition no_product_respond (r : request) (n : N) : reply * N :=
  match r with
  | RBinOp OpMult _ _ => (Threw (VStr "ValueError"), n)
  | _ => quiet_respond r n
  end.

Definition no_product : World := {| wstate := N; respond := no_product_respond |}.

(** A namespace for the cell that repeats the surface. *)
Definition repeat_env : env :=
  <["srtio3_110" := VObject 0]> (<["abtem" := VModule ["abtem"]]> ∅).

(** The substitution cell (the one [Ase.substitute] models). *)
Definition substitution_cell : list stmt := cells_from 14 1 atomic_models_with_ase.

(** The events of the substitution cell when every request returns: the
    replies are the parameters, and the later requests are made on the
    values that the earlier ones returned. *)
Definition substitution_events
    (src u sto_lto symbols m1 positions ys m2 mask numbers u' : value) : list event :=
  [ (RLoadMethod src "copy", Returned u);
    (RCallMethod src "copy" [], Returned sto_lto);
    (RGetAttr sto_lto "symbols", Returned symbols);
    (RCompare CmpEq symbols (VStr "Sr"), Returned m1);
    (RGetAttr sto_lto "positions", Returned positions);
    (RGetItem positions (VTuple [VSlice None None None; VNum "1"]), Returned ys);
    (RCompare CmpLt ys (VNum "7.5"), Returned m2);
    (RBinOp OpMult m1 m2, Returned mask);
    (RGetAttr sto_lto "numbers", Returned numbers);
    (RSetItem numbers mask (VNum "57"), Returned u') ].

(** From the substitution cell to the cell that writes the structure:
<<
    sto_lto = repeated_srtio3.copy()
    mask = sto_lto.symbols == "Sr"
    mask = mask * (sto_lto.positions[:, 1] < 7.5)
    sto_lto.numbers[mask] = 57
    sto_lto.center(axis=2, vacuum=5)
    fig, (ax1, ax2) = plt.subplots(1, 2, figsize=(8, 4))
    abtem.show_atoms(sto_lto, ax=ax1)
    abtem.show_atoms(sto_lto, ax=ax2, plane="yz");
    from ase.io import write
    write("sto_lto.cif", sto_lto)
>>
*)
Definition export_cells : list stmt := cells_from 14 4 atomic_models_with_ase.

(** The cells between the substitution and the export. *)
Definition centre_and_show : list stmt := cells_from 15 2 atomic_models_with_ase.

Definition export_cell : list stmt := cells_from 17 1 atomic_models_with_ase.

(** From the detectors to the scan of image_simulation_with_abtem:
<<
    bright = abtem.AnnularDetector(inner=0, outer=20)
    maadf = abtem.AnnularDetector(inner=50, outer=120)
    haadf = abtem.AnnularDetector(inner=100, outer=180)
    detectors = [bright, maadf, haadf]
    ...
    scanned_measurements = probe.scan(scan=scan, detectors=detectors,
                                      potential=potential)
    scanned_measurements.compute()
    stacked_measurements = abtem.stack(scanned_measurements,
                                       ("BF", "MAADF", "HAADF"))
>>
*)
Definition detector_cell : list stmt := cells_from 28 1 image_simulation_with_abtem.

Definition detector_regions : list stmt := cells_from 29 3 image_simulation_with_abtem.

(** The scan, its computation and the stacking of its result (the
    first statement of the next cell). *)
Definition scan_and_stack : list stmt :=
  cells_from 32 1 image_simulation_with_abtem ++
  take 1 (cells_from 33 1 image_simulation_with_abtem).

Definition detector_cells : list stmt :=
  detector_cell ++ detector_regions ++ scan_and_stack.

(** The three notebooks of the tutorial proper. *)
Definition tutorial_notebooks : list notebook :=
  [atomic_models_with_ase; image_simulation_with_abtem;
   image_simulation_with_abtem_supplement].

(** The namespace a run leaves, when it completes. *)
Definition final_env {W : World} (r : outcome env * kstate W) : env :=
  match fst r with Ok g => g | Fail _ => ∅ end.

(** A namespace in which the names the export cells read are bound, in
    the quiet world. *)
Definition export_env : env :=
  <["repeated_srtio3" := VObject 0]>
    (<["plt" := VModule ["matplotlib"; "pyplot"]]>
       (<["abtem" := VModule ["abtem"]]> ∅)).

Definition export_run : outcome env * kstate quiet :=
  exec_all quiet export_env export_cells (start quiet 1%N).

Definition substitution_run : outcome env * kstate quiet :=
  exec_all quiet export_env substitution_cell (start quiet 1%N).

(** A namespace for the detector cells, in the quiet world. *)
Definition detector_env : env :=
  <["probe" := VObject 0]>
    (<["scan" := VObject 1]>
       (<["potential" := VObject 2]> (<["abtem" := VModule ["abtem"]]> ∅))).

Definition detector_run : outcome env * kstate quiet :=
  exec_all quiet detector_env detector_cells (start quiet 3%N).

(** The small structure of [Ase] after the substitution cell, and the
    same structure with La in place of the Sr atom below y = 7.5. *)
Definition demo_substituted : Ase.loc * Ase.heap :=
  match Ase.substitute 3 Ase.demo_heap with
  | Some rh => rh
  | None => (3%positive, Ase.demo_heap)
  end.

Definition lto_numbers : list Z := [57; 38; 22; 8]%Z.

Definition lto_heap : Ase.heap :=
  <[1%positive := Ase.OArray (Ase.IntArray lto_numbers)]> Ase.demo_heap.

End Cells.

(** * Facts *)

(** ** The substitution cell *)

Section AseFacts.
Import Ase.

Lemma chemical_symbols_NoDup : NoDup chemical_symbols.
Proof. apply (bool_decide_unpack (NoDup chemical_symbols)). vm_compute. exact I. Qed.

Lemma symbol_Sr (n : Z) : symbol n = Some "Sr" ↔ n = 38%Z.
Proof.
  split.
  - unfold symbol. destruct (n <? 0)%Z eqn:Hn; [discriminate|].
    intros H. apply Z.ltb_ge in Hn.
    assert (Hk : Z.to_nat n = 38%nat).
    { eapply NoDup_lookup; [apply chemical_symbols_NoDup | exact H | reflexivity]. }
    lia.
  - intros ->. reflexivity.
Qed.

Lemma atomic_number_Sr : atomic_number "Sr" = Some 38%Z.
Proof. vm_compute. reflexivity. Qed.

Lemma alloc_fresh o h l h' : alloc o h = (l, h') → h !! l = None ∧ h' = <[l := o]> h.
Proof.
  unfold alloc. intros [= <- <-]. split; [|done].
  apply not_elem_of_dom. apply is_fresh.
Qed.

Lemma view_inv h r ns ps c b :
  view h r = Some (ns, ps, c, b) →
  ∃ a, h !! r = Some (OAtoms a) ∧ h !! numbers_ref a = Some (OArray (IntArray ns)) ∧
       h !! positions_ref a = Some (OArray (Float3Array ps)) ∧ cell a = c ∧ pbc a = b.
Proof.
  unfold view, get_atoms, get_ints, get_float3. intros H.
  destruct (h !! r) as [[|a]|] eqn:Hr; simplify_eq/=.
  destruct (h !! numbers_ref a) as [[[d|]|]|] eqn:Hn; simplify_eq/=.
  destruct (h !! positions_ref a) as [[[|d']|]|] eqn:Hp; simplify_eq/=.
  eauto 10.
Qed.

Lemma mapM_coord_1 (ps : list vec3) : mapM (coord 1) ps = Some (map (fun p => snd (fst p)) ps).
Proof.
  apply mapM_Some. induction ps; constructor; auto.
Qed.


Lemma zip_with_mask_lookup (mask : list bool) (ns : list Z) (v : Z) (i : nat) (m : bool) (n : Z) :
  mask !! i = Some m → ns !! i = Some n →
  zip_with (fun (m : bool) n => if m then v else n) mask ns !! i = Some (if m then v else n).
Proof.
  intros Hm Hn. rewrite lookup_zip_with, Hm. simpl. rewrite Hn. reflexivity.
Qed.

Lemma lt_scalar_length xs c : length (lt_scalar xs c) = length xs.
Proof. apply length_map. Qed.

Lemma copy_eq (h : heap) r a ns ps :
  h !! r = Some (OAtoms a) →
  h !! numbers_ref a = Some (OArray (IntArray ns)) →
  h !! positions_ref a = Some (OArray (Float3Array ps)) →
  copy r h =
    let ln := fresh (dom h) in
    let h1 := <[ln := OArray (IntArray ns)]> h in
    let lp := fresh (dom h1) in
    let h2 := <[lp := OArray (Float3Array ps)]> h1 in
    let r' := fresh (dom h2) in
    Some (r', <[r' := OAtoms {| numbers_ref := ln; positions_ref := lp;
                                cell := cell a; pbc := pbc a |}]> h2).
Proof.
  intros Hr Hn Hp. unfold copy, get_atoms, get_ints, get_float3, alloc.
  rewrite Hr; simpl. rewrite Hn; simpl. rewrite Hp; reflexivity.
Qed.

(** C8: the substitution cell sets to 57 the atomic number of exactly the
    atoms of [sto_lto] whose symbol is Sr and whose y coordinate is below
    7.5; the other numbers, the positions, the cell and the periodicity of
    [sto_lto] are those of the source, [sto_lto] is a new object, and the
    source structure and everything else in the store are unchanged. *)
Theorem substitute_spec (h : heap) (r : loc) ns ps c b :
  view h r = Some (ns, ps, c, b) →
  length ns = length ps →
  ∃ r' h' ns',
    substitute r h = Some (r', h') ∧
    h !! r' = None ∧
    (∀ l o, h !! l = Some o → h' !! l = Some o) ∧
    view h' r = Some (ns, ps, c, b) ∧
    view h' r' = Some (ns', ps, c, b) ∧
    length ns' = length ns ∧
    ∀ i n p, ns !! i = Some n → ps !! i = Some p →
      ns' !! i = Some (if substituted n p then 57%Z else n).
Proof.
  intros Hv Hlen.
  destruct (view_inv _ _ _ _ _ _ Hv) as (a & Hr & Hn & Hp & <- & <-).
  unfold substitute. rewrite (copy_eq h r a ns ps Hr Hn Hp). cbv zeta.
  pose proof (is_fresh (dom h)) as F1.
  remember (fresh (dom h)) as ln eqn:Eln.
  remember (<[ln := OArray (IntArray ns)]> h) as h1 eqn:Eh1.
  pose proof (is_fresh (dom h1)) as F2.
  remember (fresh (dom h1)) as lp eqn:Elp.
  remember (<[lp := OArray (Float3Array ps)]> h1) as h2 eqn:Eh2.
  pose proof (is_fresh (dom h2)) as F3.
  remember (fresh (dom h2)) as r' eqn:Er'.
  remember {| numbers_ref := ln; positions_ref := lp; cell := cell a; pbc := pbc a |} as a' eqn:Ea'.
  remember (<[r' := OAtoms a']> h2) as h3 eqn:Eh3.
  clear Eln Elp Er'.
  rewrite not_elem_of_dom in F1, F2, F3.
  assert (Hlnlp : ln ≠ lp) by (intros ->; subst h1; rewrite lookup_insert_eq in F2; discriminate).
  assert (Hr'lp : lp ≠ r') by (intros ->; subst h2; rewrite lookup_insert_eq in F3; discriminate).
  assert (Hr'ln : ln ≠ r').
  { intros ->. subst h2 h1. rewrite lookup_insert_ne, lookup_insert_eq in F3 by done. discriminate. }
  assert (F3' : h !! r' = None).
  { subst h2 h1. rewrite !lookup_insert_ne in F3 by done. exact F3. }
  assert (F2' : h !! lp = None).
  { subst h1. rewrite lookup_insert_ne in F2 by done. exact F2. }
  assert (L3r : h3 !! r' = Some (OAtoms a')) by (subst h3; apply lookup_insert_eq).
  assert (L3n : h3 !! ln = Some (OArray (IntArray ns))).
  { subst h3 h2 h1. rewrite !lookup_insert_ne by done. apply lookup_insert_eq. }
  assert (L3p : h3 !! lp = Some (OArray (Float3Array ps))).
  { subst h3 h2. rewrite lookup_insert_ne by done. apply lookup_insert_eq. }
  assert (Hold3 : ∀ l o, h !! l = Some o → h3 !! l = Some o).
  { intros l o Hl. subst h3 h2 h1.
    rewrite !lookup_insert_ne by (intros <-; congruence). exact Hl. }
  assert (Han : numbers_ref a' = ln) by (subst a'; reflexivity).
  assert (Hap : positions_ref a' = lp) by (subst a'; reflexivity).
  assert (Hac : cell a' = cell a) by (subst a'; reflexivity).
  assert (Hab : pbc a' = pbc a) by (subst a'; reflexivity).
  clear Eh1 Eh2 Eh3 Ea' F2 F3.
  remember (zip_with andb (map (fun n => Z.eqb n 38) ns)
              (lt_scalar (map (fun p : float * float * float => snd (fst p)) ps) 7.5%float)) as mask eqn:Emask.
  remember (zip_with (fun (m : bool) n => if m then 57%Z else n) mask ns) as ns' eqn:Ens'.
  assert (Hmasklen : length mask = length ns).
  { subst mask. unfold lt_scalar. rewrite length_zip_with, !length_map. lia. }
  exists r', (<[ln := OArray (IntArray ns')]> h3), ns'.
  assert (Hold : ∀ l o, h !! l = Some o → <[ln := OArray (IntArray ns')]> h3 !! l = Some o).
  { intros l o Hl. rewrite lookup_insert_ne by (intros <-; congruence).
    auto. }
  split; [|split; [exact F3'|split; [exact Hold|split; [|split; [|split]]]]].
  - cbn [mbind option_bind]. unfold symbols_eq, positions_column, get_atoms, get_ints, get_float3.
    rewrite L3r. cbn [mbind option_bind fmap option_fmap option_map]. rewrite Han, Hap, L3n.
    cbn [mbind option_bind]. rewrite atomic_number_Sr. cbn [mbind option_bind].
    rewrite L3p. cbn [mbind option_bind]. rewrite mapM_coord_1. cbn [mbind option_bind].
    unfold mul_bool. rewrite length_map, lt_scalar_length, length_map, Hlen, Nat.eqb_refl.
    cbn [mbind option_bind]. rewrite <- Emask.
    unfold setitem_mask, get_ints. rewrite L3n. cbn [mbind option_bind].
    rewrite Hmasklen, Nat.eqb_refl. rewrite <- Ens'. reflexivity.
  - unfold view, get_atoms, get_ints, get_float3.
    rewrite (Hold _ _ Hr); simpl. rewrite (Hold _ _ Hn); simpl. rewrite (Hold _ _ Hp); simpl.
    reflexivity.
  - unfold view, get_atoms, get_ints, get_float3.
    rewrite lookup_insert_ne, L3r by done; simpl.
    rewrite Han, Hap, lookup_insert_eq; simpl.
    rewrite lookup_insert_ne, L3p by done; simpl. rewrite Hac, Hab. reflexivity.
  - subst ns'. rewrite length_zip_with. lia.
  - intros i n p Hi Hpi. subst ns'.
    assert (Hm : mask !! i = Some (substituted n p)).
    { subst mask. unfold lt_scalar. rewrite lookup_zip_with, !list_lookup_fmap, Hi, Hpi. simpl.
      f_equal. unfold substituted. f_equal.
      destruct (Z.eqb_spec n 38) as [->|Hne].
      - symmetry. apply bool_decide_eq_true. reflexivity.
      - symmetry. apply bool_decide_eq_false. rewrite symbol_Sr. exact Hne. }
    erewrite zip_with_mask_lookup; eauto.
Qed.

End AseFacts.

(** ** The kernel: bounds on a run, and where exceptions come from *)

Import Py Kernel.

Section KernelFacts.
Context {W : World}.

Abbreviation M := (M W).

Lemma within_ret {A} (a : A) : within (ret W a) 0 0.
Proof. intros k. exists []. simpl. rewrite app_nil_r. repeat split; auto with lia. Qed.

Lemma within_raise {A} (e : exn) :
  (∀ v, e ≠ Raised v) → within (@raise W A e) 0 0.
Proof.
  intros He k. exists []. simpl. rewrite app_nil_r. repeat split; auto with lia.
  destruct e; try constructor. exfalso. eapply He. reflexivity.
Qed.

Lemma within_tick : within (tick W) 1 0.
Proof. intros k. exists []. simpl. rewrite app_nil_r. repeat split; auto with lia. Qed.

Lemma within_ask r : within (ask W r) 0 1.
Proof.
  intros k. unfold ask. destruct (respond W r (world k)) as [rep w] eqn:E.
  exists [(r, rep)]. simpl. repeat split; auto with lia.
  destruct rep; simpl.
  - repeat constructor.
  - exists r, []. split; [reflexivity | constructor].
Qed.

Lemma within_weaken {A} (c : M A) n m n' m' :
  within c n m → n ≤ n' → m ≤ m' → within c n' m'.
Proof.
  intros H ? ? k. destruct (H k) as (d & ? & ? & ? & ?). exists d. repeat split; auto with lia.
Qed.

Lemma within_bind {A B} (c : M A) (f : A → M B) n1 m1 n2 m2 :
  within c n1 m1 → (∀ a, within (f a) n2 m2) →
  within (bind W c f) (n1 + n2) (m1 + m2).
Proof.
  intros Hc Hf k. unfold bind.
  destruct (Hc k) as (d1 & Ht & Hs & Hl & Hd).
  destruct (c k) as [[a|e] k1]; simpl in *.
  - destruct (Hf a k1) as (d2 & Ht2 & Hs2 & Hl2 & Hd2).
    exists (d1 ++ d2). rewrite Ht2, Ht, app_assoc, length_app.
    repeat split; auto with lia.
    destruct (f a k1) as [[b|e] k2]; simpl in *.
    + apply Forall_app; auto.
    + destruct e; try (apply Forall_app; auto).
      destruct Hd2 as (r & d' & -> & Hd').
      exists r, (d1 ++ d'). rewrite app_assoc. split; [reflexivity|].
      apply Forall_app; auto.
  - exists d1. repeat split; auto with lia.
Qed.

Lemma size_pos e : 1 ≤ size e.
Proof. unfold size. destruct e; simpl; lia. Qed.

Lemma mapM_cons {A B} (f : A → M B) a l :
  mapM W f (a :: l) = bind W (f a) (fun b => bind W (mapM W f l) (fun bs => ret W (b :: bs))).
Proof. reflexivity. Qed.

Lemma within_mapM (f : expr → M value) (es : list expr) :
  list_all expr (fun e => within (f e) (size e) (2 * size e)) es →
  within (mapM W f es) (length (flat_map subexprs es)) (2 * length (flat_map subexprs es)).
Proof.
  induction 1 as [|e He es Hes IH].
  - apply within_ret.
  - rewrite mapM_cons. simpl. rewrite length_app. fold (size e).
    eapply within_weaken.
    + eapply within_bind; [exact He|]. intros b.
      eapply within_bind; [exact IH|]. intros bs. apply within_ret.
    + lia.
    + lia.
Qed.

Ltac within_steps :=
  repeat first
    [ apply within_ret
    | apply within_tick
    | apply within_ask
    | apply within_raise; congruence
    | eassumption
    | eapply within_bind; [|intros ?] ].

Ltac within_arith :=
  unfold size in *; simpl; rewrite ?length_app; simpl; lia.

Lemma list_all_impl {A} (P Q : A → Prop) l :
  (∀ a, P a → Q a) → list_all A P l → list_all A Q l.
Proof. intros H. induction 1; constructor; auto. Qed.

Lemma within_opt (g : env) (o : option expr) :
  option_all expr (fun e => within (eval W g e) (size e) (2 * size e)) o →
  within (match o with
          | Some x => bind W (eval W g x) (fun v => ret W (Some v))
          | None => ret W None
          end) (osize o) (2 * osize o).
Proof.
  destruct 1 as [x Hx|]; simpl.
  - eapply within_weaken; [within_steps | lia | lia].
  - apply within_ret.
Qed.

Lemma eval_within_deep (g : env) (e : expr) :
  within (eval W g e) (size e) (2 * size e) ∧
  match e with
  | EAttribute r _ => within (eval W g r) (size r) (2 * size r)
  | _ => True
  end.
Proof.
  induction e using expr_ind; (split; [|try exact I]).
  all: try match goal with H : list_all _ _ _ |- _ =>
         apply (list_all_impl _ (fun e => within (eval W g e) (size e) (2 * size e))) in H;
           [apply within_mapM in H | intros ? [? _]; assumption] end.
  all: repeat match goal with H : _ ∧ _ |- _ => destruct H end.
  all: try (simpl eval; eapply within_weaken; [within_steps | within_arith | within_arith]).
  all: try assumption.
  - (* name *)
    simpl eval. unfold lookup_name.
    destruct (g !! id); [|destruct (is_builtin id)];
      (eapply within_weaken; [within_steps | within_arith | within_arith]).
  - (* call *)
    destruct e; simpl eval;
      (eapply within_weaken; [within_steps | within_arith | within_arith]).
  - (* slice *)
    simpl eval.
    pose proof (within_opt g lower) as Hl. pose proof (within_opt g upper) as Hu.
    pose proof (within_opt g step) as Hs.
    eapply within_weaken.
    + eapply within_bind; [apply within_tick|intros _].
      eapply within_bind; [apply Hl; destruct H as [x [Hx _]|]; constructor; exact Hx|intros a].
      eapply within_bind; [apply Hu; destruct H0 as [x [Hx _]|]; constructor; exact Hx|intros b].
      eapply within_bind; [apply Hs; destruct H1 as [x [Hx _]|]; constructor; exact Hx|intros c].
      apply within_ret.
    + destruct lower, upper, step; unfold osize; within_arith.
    + destruct lower, upper, step; unfold osize; within_arith.
Qed.

Lemma eval_within (g : env) (e : expr) : within (eval W g e) (size e) (2 * size e).
Proof. apply eval_within_deep. Qed.

Lemma unpack_within v n : within (unpack W v n) 0 1.
Proof.
  unfold unpack.
  eapply within_weaken.
  - eapply within_bind.
    + instantiate (1 := 1). instantiate (1 := 0).
      destruct (items_of v); [eapply within_weaken; [apply within_ret|lia|lia]|apply within_ask].
    + intros s. instantiate (1 := 0). instantiate (1 := 0).
      destruct (items_of s) as [vs|]; [destruct (Nat.eqb (length vs) n)|];
        first [apply within_ret | apply within_raise; congruence].
  - lia.
  - lia.
Qed.

Lemma assign_each_within (f : env → expr → value → M env) ts :
  list_all expr (fun t => ∀ g v, within (f g t v) (size t) (2 * size t)) ts →
  ∀ g vs, within (assign_each W f g ts vs)
            (length (flat_map subexprs ts)) (2 * length (flat_map subexprs ts)).
Proof.
  induction 1 as [|t Ht ts Hts IH]; intros g vs.
  - simpl. apply within_ret.
  - destruct vs as [|x vs].
    + simpl. eapply within_weaken; [apply within_ret|lia|lia].
    + simpl. rewrite length_app. fold (size t).
      eapply within_weaken.
      * eapply within_bind; [apply Ht|]. intros g'. apply IH.
      * lia.
      * lia.
Qed.

Lemma assign_within (t : expr) :
  ∀ g v, within (assign W g t v) (size t) (2 * size t).
Proof.
  induction t using expr_ind; intros g v.
  all: try match goal with H : list_all _ _ _ |- _ =>
         pose proof (assign_each_within (assign W) _ H) end.
  all: simpl assign;
    try (eapply within_weaken;
         [ repeat first
             [ apply within_ret | apply within_tick | apply within_ask
             | apply eval_within | apply unpack_within
             | apply within_raise; congruence
             | match goal with H : ∀ g vs, within (assign_each _ _ g _ vs) _ _ |- _ => apply H end
             | eapply within_bind; [|intros ?] ]
         | within_arith | within_arith ]).
Qed.

Lemma exec_within (g : env) (s : stmt) :
  within (exec W g s) (stmt_size s) (2 * stmt_size s).
Proof.
  unfold stmt_size.
  destruct s as [n l|p [a|]|p n|t v|t op v|e| | | | | | | | | | | |];
    try destruct p; try destruct t; simpl exec;
    (eapply within_weaken;
     [ repeat first
         [ apply within_ret | apply within_tick | apply within_ask
         | apply eval_within | apply assign_within
         | apply within_raise; congruence
         | eapply within_bind; [|intros ?] ]
     | within_arith | within_arith ]).
Qed.

Lemma exec_all_within (ss : list stmt) :
  ∀ g, within (exec_all W g ss) (stmts_size ss) (2 * stmts_size ss).
Proof.
  induction ss as [|s ss IH]; intros g; cbn [exec_all stmts_size].
  - apply within_ret.
  - eapply within_weaken.
    + eapply within_bind; [apply exec_within|]. intros g'. apply IH.
    + lia.
    + lia.
Qed.

End KernelFacts.

Lemma stmt_size_nodes (s : stmt) :
  stmt_size s ≤ length (substmts s) +
                length (flat_map subexprs (flat_map stmt_exprs (substmts s))).
Proof.
  unfold stmt_size.
  assert (H : ∃ r, substmts s = s :: r) by (destruct s; simpl; eauto).
  destruct H as [r ->]. simpl. rewrite flat_map_app, length_app. lia.
Qed.

Lemma stmts_size_nodes (ss : list stmt) :
  stmts_size ss ≤ length (flat_map substmts ss) +
                  length (flat_map subexprs (flat_map stmt_exprs (flat_map substmts ss))).
Proof.
  induction ss as [|s ss IH]; [simpl; lia|].
  pose proof (stmt_size_nodes s).
  cbn [stmts_size].
  change (flat_map substmts (s :: ss)) with (substmts s ++ flat_map substmts ss).
  rewrite !flat_map_app, !length_app. lia.
Qed.

(** Running any notebook in any world visits at most as many nodes as the
    notebook has, and sends at most twice as many requests. *)
Lemma run_bounded (W : World) (nb : notebook) (w : wstate W) :
  steps (snd (run W nb w)) ≤ nodes nb ∧
  length (trace (snd (run W nb w))) ≤ 2 * nodes nb.
Proof.
  unfold run.
  destruct (exec_all_within (concat nb) ∅ (start W w)) as (d & Ht & Hs & Hl & _).
  pose proof (stmts_size_nodes (concat nb)) as Hn.
  fold (all_stmts nb) in Hn. fold (all_exprs nb) in Hn. fold (nodes nb) in Hn.
  rewrite Ht. simpl in *. lia.
Qed.

(** ** The kernel: scoping *)

Section Scope.
Context {W : World}.
Abbreviation M := (M W).

Lemma triple_ret {A} (a : A) (Q : A → Prop) E : Q a → triple (ret W a) Q E.
Proof. intros H k. exact H. Qed.

Lemma triple_raise {A} e (Q : A → Prop) (E : exn → Prop) : E e → triple (raise W e) Q E.
Proof. intros H k. exact H. Qed.

Lemma triple_tick (Q : unit → Prop) E : Q tt → triple (tick W) Q E.
Proof. intros H k. exact H. Qed.

Lemma triple_ask r (Q : value → Prop) (E : exn → Prop) :
  (∀ v, Q v) → (∀ v, E (Raised v)) → triple (ask W r) Q E.
Proof.
  intros HQ HE k. unfold ask. destruct (respond W r (world k)) as [[v|v] w]; simpl; auto.
Qed.

Lemma triple_bind {A B} (c : M A) (f : A → M B) Q1 Q2 E :
  triple c Q1 E → (∀ a, Q1 a → triple (f a) Q2 E) → triple (bind W c f) Q2 E.
Proof.
  intros Hc Hf k. unfold bind. specialize (Hc k).
  destruct (c k) as [[a|e] k1]; simpl in *; [apply Hf, Hc | exact Hc].
Qed.

Lemma triple_seq {A B} (c : M A) (f : A → M B) Q E :
  triple c (fun _ => True) E → (∀ a, triple (f a) Q E) → triple (bind W c f) Q E.
Proof. intros Hc Hf. eapply triple_bind; [exact Hc|]. intros a _. apply Hf. Qed.

Lemma triple_conseq {A} (c : M A) (Q Q' : A → Prop) E :
  triple c Q E → (∀ a, Q a → Q' a) → triple c Q' E.
Proof.
  intros Hc HQ k. specialize (Hc k). destruct (fst (c k)); auto.
Qed.

Lemma triple_mapM {A B} (f : A → M B) (T : A → Prop) l E :
  (∀ a, T a → triple (f a) (fun _ => True) E) →
  Forall T l → triple (mapM W f l) (fun _ => True) E.
Proof.
  intros Hf. induction 1 as [|a l Ha Hl IH].
  - apply triple_ret. exact I.
  - rewrite mapM_cons. apply triple_seq; [apply Hf, Ha|]. intros b.
    apply triple_seq; [apply IH|]. intros bs. apply triple_ret. exact I.
Qed.

Abbreviation oks b e := (forallb (name_ok b) (subexprs e) = true).

Lemma list_all_Forall (b : list string) (P : expr → Prop) es :
  list_all expr (fun e => oks b e → P e) es →
  forallb (name_ok b) (flat_map subexprs es) = true → Forall P es.
Proof.
  induction 1 as [|e He es Hes IH]; simpl; intros H; constructor.
  - apply He. rewrite forallb_app in H. apply andb_prop in H. tauto.
  - apply IH. rewrite forallb_app in H. apply andb_prop in H. tauto.
Qed.

Ltac split_ok H :=
  simpl in H; rewrite ?forallb_app in H;
  repeat match type of H with
         | (_ && _)%bool = true => let H1 := fresh "Hok" in apply andb_prop in H as [H1 H]
         end.

Ltac triple_steps :=
  repeat first
    [ apply triple_ret; exact I
    | apply triple_tick; exact I
    | apply triple_ask; [intros ?; exact I | intros ?; exact I]
    | apply triple_raise; exact I
    | match goal with H : oks _ ?e → triple (eval _ _ ?e) _ _ |- triple (eval _ _ ?e) _ _ =>
        apply H; assumption end
    | match goal with H : Forall _ ?es |- triple (mapM _ _ ?es) _ _ =>
        eapply triple_mapM; [|exact H]; intros ? Ht; exact Ht end
    | apply triple_seq; [|intros ?] ].

Lemma eval_call_method (g : env) r m args :
  eval W g (ECall (EAttribute r m) args) =
  bind W (tick W) (fun _ =>
    bind W (eval W g r) (fun recv =>
      bind W (ask W (RLoadMethod recv m)) (fun _ =>
        bind W (mapM W (eval W g) args) (fun vs =>
          ask W (RCallMethod recv m vs))))).
Proof. reflexivity. Qed.

Lemma eval_call_function (g : env) f args :
  is_attribute f = false →
  eval W g (ECall f args) =
  bind W (tick W) (fun _ =>
    bind W (eval W g f) (fun fv =>
      bind W (mapM W (eval W g) args) (fun vs => ask W (RCall fv vs)))).
Proof. destruct f; simpl; intros; try discriminate; reflexivity. Qed.

Lemma eval_safe_deep (b : list string) (g : env) (e : expr) :
  covers g b →
  (oks b e → triple (eval W g e) (fun _ => True) foreign) ∧
  match e with
  | EAttribute r _ => oks b r → triple (eval W g r) (fun _ => True) foreign
  | _ => True
  end.
Proof.
  intros Hg.
  induction e using expr_ind; (split; [intros Hok|try exact I]).
  all: try match goal with H : list_all _ _ _ |- _ =>
         apply (list_all_impl _ (fun e => oks b e → triple (eval W g e) (fun _ => True) foreign)) in H;
           [|intros ? [? _]; assumption] end.
  all: repeat match goal with H : _ ∧ _ |- _ => destruct H end.
  all: try (split_ok Hok;
            repeat match goal with
                   | H : list_all _ _ ?es, H' : forallb _ (flat_map subexprs ?es) = true |- _ =>
                       pose proof (list_all_Forall _ _ _ H H'); clear H
                   end;
            simpl eval; solve [triple_steps]).
  all: try assumption.
  all: try (simpl in Hok; discriminate).
  - (* name *)
    simpl in Hok. rewrite andb_true_r in Hok. simpl eval.
    apply triple_seq; [apply triple_tick; exact I|intros _].
    unfold lookup_name.
    destruct (g !! id) eqn:Hid; [apply triple_ret; exact I|].
    destruct (is_builtin id); [apply triple_ret; exact I|].
    rewrite orb_false_r in Hok. apply bool_decide_eq_true in Hok.
    destruct (Hg _ Hok) as [v Hv]. congruence.
  - (* call *)
    split_ok Hok.
    pose proof (list_all_Forall _ _ _ H Hok) as Hargs.
    destruct (is_attribute e) eqn:Hattr.
    + destruct e; try discriminate. rewrite eval_call_method.
      simpl in Hok0. triple_steps.
    + rewrite eval_call_function by exact Hattr. triple_steps.
  - (* slice *)
    split_ok Hok. simpl eval.
    apply triple_seq; [apply triple_tick; exact I|intros _].
    apply triple_seq.
    { destruct H as [x [Hx _]|]; [simpl in Hok0|]; triple_steps. }
    intros a. apply triple_seq.
    { destruct H0 as [x [Hx _]|]; [simpl in Hok1|]; triple_steps. }
    intros c. apply triple_seq.
    { destruct H1 as [x [Hx _]|]; [simpl in Hok|]; triple_steps. }
    intros d. apply triple_ret. exact I.
Qed.

Lemma eval_safe (b : list string) (g : env) (e : expr) :
  covers g b → expr_ok b e = true →
  triple (eval W g e) (fun _ => True) foreign.
Proof. intros Hg. apply (eval_safe_deep b g e Hg). Qed.

Lemma covers_insert (g : env) c x v : covers g c → covers (<[x := v]> g) (x :: c).
Proof.
  intros H y Hy. destruct (decide (x = y)) as [->|Hne].
  - rewrite lookup_insert_eq. eauto.
  - rewrite lookup_insert_ne by done. apply H.
    apply elem_of_cons in Hy as [->|Hy]; [congruence|exact Hy].
Qed.

Lemma covers_incl (g : env) c c' : covers g c → c' ⊆ c → covers g c'.
Proof. intros H Hi x Hx. apply H, Hi, Hx. Qed.

Lemma unpack_safe v n : triple (unpack W v n) (fun vs => length vs = n) foreign.
Proof.
  unfold unpack. apply triple_seq.
  - destruct (items_of v); [apply triple_ret; exact I|].
    apply triple_ask; intros; exact I.
  - intros s. destruct (items_of s) as [vs|]; [|apply triple_raise; exact I].
    destruct (Nat.eqb_spec (length vs) n); [apply triple_ret; assumption|].
    apply triple_raise. exact I.
Qed.

Lemma assign_each_safe (b : list string) (f : env → expr → value → M env) ts :
  list_all expr
    (fun t => ∀ g c v, b ⊆ c → covers g c → target_ok b t = true →
                       triple (f g t v) (fun g' => covers g' (target_names t ++ c)) foreign) ts →
  ∀ g c vs, length vs = length ts → b ⊆ c → covers g c →
    forallb (target_ok b) ts = true →
    triple (assign_each W f g ts vs)
      (fun g' => covers g' (flat_map target_names ts ++ c)) foreign.
Proof.
  induction 1 as [|t Ht ts Hts IH]; intros g c vs Hlen Hb Hg Hok.
  - simpl. apply triple_ret. exact Hg.
  - destruct vs as [|x vs]; [discriminate|].
    simpl in Hok. apply andb_prop in Hok as [Hok1 Hok2].
    cbn [assign_each]. eapply triple_bind; [apply (Ht g c x Hb Hg Hok1)|].
    intros g' Hg'. cbn beta.
    eapply triple_conseq.
    + apply (IH g' (target_names t ++ c) vs); [simpl in Hlen; lia| |exact Hg'|exact Hok2].
      intros y Hy. apply elem_of_app. right. apply Hb, Hy.
    + intros g'' Hg''. simpl. eapply covers_incl; [exact Hg''|].
      intros y. rewrite !elem_of_app. tauto.
Qed.

Lemma assign_safe (b : list string) (t : expr) :
  ∀ g c v, b ⊆ c → covers g c → target_ok b t = true →
    triple (assign W g t v) (fun g' => covers g' (target_names t ++ c)) foreign.
Proof.
  induction t using expr_ind; intros g c v Hb Hg Hok; try discriminate.
  all: try match goal with H : list_all _ _ _ |- _ =>
         pose proof (assign_each_safe b (assign W) _ H) as Heach; clear H end.
  - (* name *)
    simpl. apply triple_seq; [apply triple_tick; exact I|intros _].
    apply triple_ret. apply covers_insert, Hg.
  - (* tuple *)
    cbn [assign]. apply triple_seq; [apply triple_tick; exact I|intros _].
    eapply triple_bind; [apply unpack_safe|]. intros vs Hvs. cbn beta.
    apply Heach; assumption.
  - (* list *)
    cbn [assign]. apply triple_seq; [apply triple_tick; exact I|intros _].
    eapply triple_bind; [apply unpack_safe|]. intros vs Hvs. cbn beta.
    apply Heach; assumption.
  - (* attribute *)
    cbn [assign]. simpl in Hok.
    apply triple_seq; [apply triple_tick; exact I|intros _].
    apply triple_seq; [apply (eval_safe b); [eapply covers_incl; eauto|exact Hok]|intros ov].
    apply triple_seq; [apply triple_ask; intros; exact I|intros _].
    apply triple_ret. exact Hg.
  - (* subscript *)
    cbn [assign]. simpl in Hok. apply andb_prop in Hok as [Hok1 Hok2].
    apply triple_seq; [apply triple_tick; exact I|intros _].
    apply triple_seq; [apply (eval_safe b); [eapply covers_incl; eauto|exact Hok1]|intros ov].
    apply triple_seq; [apply (eval_safe b); [eapply covers_incl; eauto|exact Hok2]|intros iv].
    apply triple_seq; [apply triple_ask; intros; exact I|intros _].
    apply triple_ret. exact Hg.
Qed.

Ltac safe_steps b Hg :=
  repeat first
    [ apply triple_tick; exact I
    | apply triple_ask; intros; exact I
    | apply (eval_safe b); [exact Hg|assumption]
    | apply triple_seq; [|intros ?] ].

Lemma exec_safe (b : list string) (g : env) (s : stmt) :
  covers g b → stmt_ok b s = true →
  triple (exec W g s) (fun g' => covers g' (binds s ++ b)) foreign.
Proof.
  intros Hg Hok.
  destruct s as [n l|p [a|]|p n|t v|t op v|e| | | | | | | | | | | |];
    try discriminate.
  - safe_steps b Hg. apply triple_ret. exact Hg.
  - destruct p; cbn [exec];
      (apply triple_seq; [apply triple_tick; exact I|intros _]);
      (eapply triple_bind; [apply triple_ask; intros; exact I|]); intros m _;
      apply triple_ret; apply covers_insert, Hg.
  - destruct p as [|top rest]; [discriminate|].
    cbn [exec]. apply triple_seq; [apply triple_tick; exact I|intros _].
    eapply triple_bind; [apply triple_ask; intros; exact I|]. intros m _.
    apply triple_ret. apply covers_insert, Hg.
  - cbn [exec]. apply triple_seq; [apply triple_tick; exact I|intros _].
    eapply triple_bind; [apply triple_ask; intros; exact I|]. intros m _.
    apply triple_ret. apply covers_insert, Hg.
  - simpl in Hok. apply andb_prop in Hok as [Hv Ht].
    cbn [exec]. apply triple_seq; [apply triple_tick; exact I|intros _].
    apply triple_seq; [apply (eval_safe b); assumption|intros x].
    apply (assign_safe b t g b x); [intros y Hy; exact Hy|exact Hg|exact Ht].
  - destruct t; try discriminate; simpl in Hok.
    + apply andb_prop in Hok as [Hx Hv].
      cbn [exec]. apply triple_seq; [apply triple_tick; exact I|intros _].
      apply triple_seq; [apply (eval_safe b); assumption|intros old].
      apply triple_seq; [apply (eval_safe b); assumption|intros r].
      eapply triple_bind; [apply triple_ask; intros; exact I|]. intros new _.
      apply triple_ret. apply covers_insert, Hg.
    + apply andb_prop in Hok as [Ho Hv].
      cbn [exec]. safe_steps b Hg. apply triple_ret. exact Hg.
    + apply andb_prop in Hok as [Hoi Hv]. apply andb_prop in Hoi as [Ho Hi].
      cbn [exec]. safe_steps b Hg. apply triple_ret. exact Hg.
  - cbn [exec]. simpl in Hok. safe_steps b Hg. apply triple_ret. exact Hg.
  - cbn [exec]. apply triple_seq; [apply triple_tick; exact I|intros _].
    apply triple_ret. exact Hg.
Qed.

Lemma exec_all_safe (ss : list stmt) :
  ∀ b g, covers g b → scoped_from b ss = true →
    triple (exec_all W g ss) (fun _ => True) foreign.
Proof.
  induction ss as [|s ss IH]; intros b g Hg Hok.
  - apply triple_ret. exact I.
  - simpl in Hok. apply andb_prop in Hok as [Hs Hss].
    cbn [exec_all]. eapply triple_bind; [apply (exec_safe b); assumption|].
    intros g' Hg'. cbn beta. apply (IH (binds s ++ b)); assumption.
Qed.

End Scope.

(** A well-scoped notebook never fails with an exception of the kernel's
    own making other than an unpacking error, whatever the world does. *)
Lemma run_safe (W : World) (nb : notebook) (w : wstate W) :
  well_scoped nb = true →
  match fst (run W nb w) with
  | Ok _ => True
  | Fail e => foreign e
  end.
Proof.
  intros H. unfold run.
  apply (exec_all_safe (concat nb) [] ∅); [|exact H].
  intros x Hx. inversion Hx.
Qed.

(** ** The kernel: the names a run binds *)

Section Only.
Context {W : World}.

Lemma triple_any {A} (c : M W A) : triple c (fun _ => True) any_exn.
Proof. intros k. destruct (fst (c k)); exact I. Qed.

Lemma triple_and {A} (c : M W A) Q1 Q2 (E1 E2 : exn → Prop) :
  triple c Q1 E1 → triple c Q2 E2 →
  triple c (fun a => Q1 a ∧ Q2 a) (fun e => E1 e ∧ E2 e).
Proof.
  intros H1 H2 k. specialize (H1 k). specialize (H2 k).
  destruct (fst (c k)); auto.
Qed.

Lemma only_insert (g : env) c x v : only g c → only (<[x := v]> g) (x :: c).
Proof.
  intros H y Hy. destruct (decide (x = y)) as [->|Hne]; [left|].
  rewrite lookup_insert_ne in Hy by done. right. apply H, Hy.
Qed.

Lemma only_incl (g : env) c c' : only g c → c ⊆ c' → only g c'.
Proof. intros H Hi x Hx. apply Hi, H, Hx. Qed.

Lemma assign_each_only (f : env → expr → value → M W env) ts :
  list_all expr
    (fun t => ∀ g c v, only g c →
                triple (f g t v) (fun g' => only g' (target_names t ++ c)) any_exn) ts →
  ∀ g c vs, only g c →
    triple (assign_each W f g ts vs)
      (fun g' => only g' (flat_map target_names ts ++ c)) any_exn.
Proof.
  induction 1 as [|t Ht ts Hts IH]; intros g c vs Hg.
  - simpl. apply triple_ret. exact Hg.
  - destruct vs as [|x vs].
    + simpl. apply triple_ret. eapply only_incl; [exact Hg|].
      intros y Hy. rewrite elem_of_app. right. exact Hy.
    + cbn [assign_each]. eapply triple_bind; [apply (Ht g c x Hg)|].
      intros g' Hg'. cbn beta. eapply triple_conseq; [apply (IH g' _ vs Hg')|].
      intros g'' Hg''. simpl. eapply only_incl; [exact Hg''|].
      intros y. rewrite !elem_of_app. tauto.
Qed.

Lemma assign_only (t : expr) :
  ∀ g c v, only g c →
    triple (assign W g t v) (fun g' => only g' (target_names t ++ c)) any_exn.
Proof.
  induction t using expr_ind; intros g c v Hg.
  all: try match goal with H : list_all _ _ _ |- _ =>
         pose proof (assign_each_only (assign W) _ H) as Heach; clear H end.
  all: cbn [assign]; (eapply triple_bind; [apply triple_any|intros _ _]).
  all: try (apply triple_raise; exact I).
  - apply triple_ret. apply only_insert, Hg.
  - eapply triple_bind; [apply triple_any|intros vs _]. apply Heach, Hg.
  - eapply triple_bind; [apply triple_any|intros vs _]. apply Heach, Hg.
  - eapply triple_bind; [apply triple_any|intros ov _].
    eapply triple_bind; [apply triple_any|intros _ _]. apply triple_ret. exact Hg.
  - eapply triple_bind; [apply triple_any|intros ov _].
    eapply triple_bind; [apply triple_any|intros iv _].
    eapply triple_bind; [apply triple_any|intros _ _]. apply triple_ret. exact Hg.
Qed.

Ltac only_steps Hg :=
  repeat first
    [ apply triple_ret; first [exact Hg | apply only_insert, Hg]
    | apply triple_raise; exact I
    | eapply triple_bind; [apply triple_any|intros ? _] ].

Lemma exec_only (g : env) (c : list string) (s : stmt) :
  only g c →
  triple (exec W g s) (fun g' => only g' (binds s ++ c)) any_exn.
Proof.
  intros Hg.
  destruct s as [n l|p [a|]|p n|t v|t op v|e| | | | | | | | | | | |];
    try destruct p; try destruct t; cbn [exec binds app];
    try solve [only_steps Hg].
  all: eapply triple_bind; [apply triple_any|intros _ _].
  all: eapply triple_bind; [apply triple_any|intros x _].
  all: apply assign_only, Hg.
Qed.

Lemma exec_all_only (ss : list stmt) :
  ∀ g c, only g c →
    triple (exec_all W g ss) (fun g' => only g' (flat_map binds ss ++ c)) any_exn.
Proof.
  induction ss as [|s ss IH]; intros g c Hg.
  - apply triple_ret. exact Hg.
  - cbn [exec_all]. eapply triple_bind; [apply exec_only, Hg|].
    intros g' Hg'. cbn beta. eapply triple_conseq; [apply IH, Hg'|].
    intros g'' Hg''. simpl. eapply only_incl; [exact Hg''|].
    intros y. rewrite !elem_of_app. tauto.
Qed.

Lemma exec_all_app (g : env) (ss1 ss2 : list stmt) :
  ∀ k, exec_all W g (ss1 ++ ss2) k =
       bind W (exec_all W g ss1) (fun g' => exec_all W g' ss2) k.
Proof.
  revert g. induction ss1 as [|s ss1 IH]; intros g k.
  - reflexivity.
  - simpl. unfold bind. destruct (exec W g s k) as [[g'|e] k']; [|reflexivity].
    rewrite IH. reflexivity.
Qed.

(** Calling a name that is neither bound nor a builtin raises
    [NameError], whatever the world. *)
Lemma call_unbound (g : env) (f : string) (args : list expr) (k : kstate W) :
  g !! f = None → is_builtin f = false →
  fst (exec W g (SExpr (ECall (EName f) args)) k) = Fail (NameError f).
Proof.
  intros Hg Hb. unfold exec. rewrite eval_call_function by reflexivity.
  cbn [eval]. unfold bind, tick, lookup_name. rewrite Hg, Hb. reflexivity.
Qed.

End Only.

(** ** Exceptions of whole runs *)

Section RunFacts.
Import Notebooks.

Lemma run_disciplined (W : World) (nb : notebook) (w : wstate W) :
  disciplined (trace (snd (run W nb w))) (fst (run W nb w)).
Proof.
  unfold run.
  destruct (exec_all_within (concat nb) ∅ (start W w)) as (d & Ht & _ & _ & Hd).
  rewrite Ht. exact Hd.
Qed.

Lemma nanoparticle_split :
  concat nanoparticle_on_carbon =
  nanoparticle_init ++
  [SExpr (ECall (EName "write") [EStr "cluster_on_carbon.cfg"; EName "cluster_on_carbon"])].
Proof. reflexivity. Qed.

Lemma nanoparticle_never_completes (W : World) (w : wstate W) :
  ∃ e, fst (run W nanoparticle_on_carbon w) = Fail e ∧
       (e = NameError "write" ∨ foreign e).
Proof.
  unfold run. rewrite nanoparticle_split, exec_all_app. unfold bind.
  pose proof (triple_and _ _ _ _ _
                (exec_all_safe (W := W) nanoparticle_init [] ∅
                   ltac:(intros x Hx; inversion Hx) ltac:(vm_compute; reflexivity))
                (exec_all_only (W := W) nanoparticle_init ∅ []
                   ltac:(intros x [v Hx]; rewrite lookup_empty in Hx; discriminate))
                (start W w)) as H.
  destruct (exec_all W ∅ nanoparticle_init (start W w)) as [[g|e] k]; cbn [fst] in *.
  - destruct H as [_ Honly].
    assert (Hg : g !! "write" = None).
    { destruct (g !! "write") eqn:E; [|reflexivity].
      exfalso.
      assert (Hin : "write" ∈ flat_map binds nanoparticle_init ++ []) by (apply Honly; eauto).
      revert Hin.
      apply (proj1 (bool_decide_eq_false ("write" ∈ flat_map binds nanoparticle_init ++ []))).
      vm_compute. reflexivity. }
    exists (NameError "write"). split; [|left; reflexivity].
    cbn [exec_all]. unfold bind.
    pose proof (call_unbound (W := W) g "write"
                  [EStr "cluster_on_carbon.cfg"; EName "cluster_on_carbon"] k Hg eq_refl) as Hc.
    destruct (exec W g _ k) as [[g'|e'] k']; cbn [fst] in *; congruence.
  - exists e. split; [reflexivity|right; apply H].
Qed.

End RunFacts.


(** * The notebooks *)

Section Claims.
Import Notebooks Analysis.

(** ** Delegation of the simulations *)

(** C1: no notebook defines a function, a class or a lambda, so none
    implements a multislice or PRISM engine; [abtem] is the imported
    module in each of them, and every [multislice], [scan] and [build] is
    a method called on a variable that only ever holds the result of a
    call [abtem.C(...)] (a [Probe], [PlaneWave], [SMatrix] or
    [Potential]). *)
Theorem simulations_are_delegated :
  Forall (fun nb => has_definition nb = false /\ abtem_imported nb = true /\
                    delegated nb = true) all_notebooks /\
  simulation_calls atomic_models_with_ase = [] /\
  simulation_calls image_simulation_with_abtem =
    [ (Some ["potential"], "build"); (Some ["probe"], "build");
      (Some ["focal_series_probe"], "build"); (Some ["focal_series_probe"], "build");
      (Some ["probe"], "multislice"); (Some ["probe"], "scan") ] /\
  simulation_calls image_simulation_with_abtem_supplement =
    [ (Some ["plane_wave"], "multislice"); (Some ["probe"], "scan");
      (Some ["frozen_phonon_potential"], "build"); (Some ["probe"], "multislice");
      (Some ["S"], "build"); (Some ["S"], "build"); (Some ["S"], "scan");
      (Some ["probe"], "multislice"); (Some ["probe"], "multislice");
      (Some ["probe"], "multislice") ] /\
  simulation_calls nanoparticle_on_carbon = [ (Some ["potential"], "build") ].
Proof.
  split; [|repeat split; vm_compute; reflexivity].
  unfold all_notebooks. repeat constructor; vm_compute; reflexivity.
Qed.

(** The objects the simulation calls are made on, by what constructs
    them. *)
Example simulation_objects :
  map (constructors image_simulation_with_abtem_supplement)
      ["plane_wave"; "probe"; "frozen_phonon_potential"; "S"] =
  [ [["abtem"; "PlaneWave"]]; [["abtem"; "Probe"]];
    [["abtem"; "Potential"]]; [["abtem"; "SMatrix"]] ].
Proof. reflexivity. Qed.

(** ** Files *)

(** C2, refuted: when every library call succeeds, running
    atomic_models_with_ase.ipynb calls ASE's [write] with the path
    "sto_lto.cif". *)
Lemma atomic_models_writes_a_file :
  files_written (trace (snd (run quiet atomic_models_with_ase 0%N))) = ["sto_lto.cif"] /\
  ~ writes_nothing atomic_models_with_ase.
Proof.
  assert (H : files_written (trace (snd (run quiet atomic_models_with_ase 0%N))) =
              ["sto_lto.cif"]) by (vm_compute; reflexivity).
  split; [exact H|].
  intros Hn. specialize (Hn quiet 0%N). rewrite H in Hn. discriminate.
Qed.

(** C2, amended: the notebooks write files through four call sites, each
    naming its file by a string literal: [write("sto_lto.cif", ...)],
    [to_zarr("measurement_4d.zarr")],
    [save("../intro_multislice/potential.gif", ...)] and
    [write("cluster_on_carbon.cfg", ...)]; image_simulation_with_abtem
    has none.  When every library call succeeds, the runs write
    sto_lto.cif, measurement_4d.zarr and potential.gif. *)
Theorem files_written_by_notebooks :
  map (paths_of writers) all_notebooks =
    [ ["sto_lto.cif"]; []; ["measurement_4d.zarr"];
      ["../intro_multislice/potential.gif"; "cluster_on_carbon.cfg"] ] /\
  Forall (fun nb => length (paths_of writers nb) = length (calls_named writers nb))
         all_notebooks /\
  map (fun nb => files_written (trace (snd (run quiet nb 0%N)))) all_notebooks =
    [ ["sto_lto.cif"]; []; ["measurement_4d.zarr"];
      ["../intro_multislice/potential.gif"] ].
Proof.
  split; [vm_compute; reflexivity|]. split; [|vm_compute; reflexivity].
  unfold all_notebooks. repeat constructor; vm_compute; reflexivity.
Qed.

(** C4: every call of ASE's [read] and [write] names its file by a string
    literal whose extension is cif or cfg and gives no [format], so the
    format is the extension's; the files are srtio3.cif, sto_lto.cif and
    cluster_on_carbon.cfg, and both formats occur. *)
Theorem structure_files_are_cif_or_cfg :
  Forall (fun nb => forallb (by_extension ["cif"; "cfg"]) (calls_named structure_io nb) = true)
         all_notebooks /\
  map (paths_of structure_io) all_notebooks =
    [ ["srtio3.cif"; "sto_lto.cif"]; ["sto_lto.cif"];
      ["sto_lto.cif"; "sto_lto.cif"; "cluster_on_carbon.cfg"];
      ["cluster_on_carbon.cfg"] ] /\
  remove_dups (omap extension (flat_map (paths_of structure_io) all_notebooks)) =
    ["cif"; "cfg"].
Proof.
  split; [|split; vm_compute; reflexivity].
  unfold all_notebooks. repeat constructor; vm_compute; reflexivity.
Qed.

(** [read] and [write] are ASE's where they are imported. *)
Example read_write_imports :
  imported_from atomic_models_with_ase "write" = [["ase"; "io"]] /\
  imported_from image_simulation_with_abtem_supplement "read" = [["ase"; "io"]] /\
  imported_from nanoparticle_on_carbon "write" = [].
Proof. repeat split; reflexivity. Qed.

(** ** Control flow and the length of a run *)

(** A straight-line notebook has no loop, branch or definition, and its
    runs are bounded by its size. *)
Lemma straight_line_run (nb : notebook) (bound : nat) :
  straight_line nb = true -> (nodes nb <=? bound) = true ->
  straight_line nb = true /\
  has_loop nb = false /\ has_branch nb = false /\ has_definition nb = false /\
  nodes nb <= bound /\
  forall (W : World) (w : wstate W),
    steps (snd (run W nb w)) <= nodes nb /\
    length (trace (snd (run W nb w))) <= 2 * nodes nb.
Proof.
  intros Hs Hn. split; [exact Hs|].
  unfold straight_line in Hs.
  apply andb_prop in Hs as [Hs Hd]. apply andb_prop in Hs as [Hs Hb].
  apply andb_prop in Hs as [_ Hl].
  apply negb_true_iff in Hl, Hb, Hd.
  repeat (split; [assumption|]).
  split; [apply Nat.leb_le, Hn|].
  intros W w. apply run_bounded.
Qed.

(** C3: every notebook is a straight line of IPython lines, imports,
    assignments and expression statements, with no loop, no branch and no
    definition; hence a run, in any world, visits at most as many syntax
    nodes as the notebook has and sends at most twice as many requests.
    The largest notebook has 664 nodes. *)
Theorem notebooks_are_straight_line :
  Forall (fun nb =>
            straight_line nb = true /\
            has_loop nb = false /\ has_branch nb = false /\ has_definition nb = false /\
            nodes nb <= 664 /\
            forall (W : World) (w : wstate W),
              steps (snd (run W nb w)) <= nodes nb /\
              length (trace (snd (run W nb w))) <= 2 * nodes nb)
         all_notebooks.
Proof.
  unfold all_notebooks.
  repeat apply Forall_cons_2; try apply Forall_nil_2.
  all: apply straight_line_run; vm_compute; reflexivity.
Qed.

(** The check is not vacuous: a notebook with a loop fails it. *)
Example loop_is_not_straight_line :
  straight_line [[SFor (EName "i") (ECall (EName "range") [ENum "3"])
                    [SExpr (ECall (EName "print") [EName "i"])] []]] = false.
Proof. reflexivity. Qed.

(** ** Exceptions *)

(** No notebook has a [try], an [except], a [raise], an [assert] or a
    [with], or defines a class. *)
Lemma notebooks_have_no_handler :
  Forall (fun nb => has_handler nb = false /\ has_definition nb = false) all_notebooks.
Proof. unfold all_notebooks. repeat constructor; vm_compute; reflexivity. Qed.

(** The three notebooks of the tutorial proper read only names they have
    bound; the nanoparticle notebook does not. *)
Lemma notebooks_scoping :
  map well_scoped all_notebooks = [true; true; true; false].
Proof. vm_compute. reflexivity. Qed.

(** In a well-scoped notebook an exception is the world's: it is the one
    thrown in reply to the last request, no earlier request threw, and
    the kernel adds nothing of its own except when a value unpacks to the
    wrong number of items. *)
Lemma well_scoped_raises_from_outside (W : World) (nb : notebook) (w : wstate W) :
  well_scoped nb = true ->
  match fst (run W nb w) with
  | Ok _ => Forall calm (trace (snd (run W nb w)))
  | Fail (Raised v) =>
      exists r t, trace (snd (run W nb w)) = t ++ [(r, Threw v)] /\ Forall calm t
  | Fail (UnpackError _ _) => Forall calm (trace (snd (run W nb w)))
  | Fail _ => False
  end.
Proof.
  intros Hs.
  pose proof (run_disciplined W nb w) as Hd.
  pose proof (run_safe W nb w Hs) as Hf.
  destruct (fst (run W nb w)) as [g|[x|a b| |v]]; simpl in *; auto.
Qed.

(** C6, where the code departs from it: run in a fresh kernel in which
    every library call succeeds, the nanoparticle notebook raises
    [NameError] for [write], which it never imports, although no request
    threw and the notebook has no handler. *)
Theorem nanoparticle_raises_NameError :
  fst (run quiet nanoparticle_on_carbon 0%N) = Fail (NameError "write") /\
  existsb threw (trace (snd (run quiet nanoparticle_on_carbon 0%N))) = false /\
  has_handler nanoparticle_on_carbon = false /\
  imported_from nanoparticle_on_carbon "write" = [].
Proof. repeat split; vm_compute; reflexivity. Qed.

(** The other notebooks complete when every library call succeeds. *)
Example tutorial_notebooks_complete :
  map (fun nb => match fst (run quiet nb 0%N) with Ok _ => true | Fail _ => false end)
      all_notebooks = [true; true; true; false].
Proof. vm_compute. reflexivity. Qed.

(** ** What the notebooks pass to the libraries *)

(** The modules imported: the libraries, the plotting module and Dask's
    client; no threading or process module. *)
Example imported_modules :
  remove_dups (flat_map imports all_notebooks) =
  [ ["ase"; "io"]; ["dask"; "distributed"]; ["abtem"]; ["ase"];
    ["matplotlib"; "pyplot"]; ["numpy"]; ["ase"; "visualize"]; ["ase"; "build"];
    ["ase"; "cluster"] ].
Proof. vm_compute. reflexivity. Qed.

(** The scheduler parameters (C7): one [compute] is given a scheduler,
    and the distributed client is made with four single-threaded workers. *)
Example scheduler_parameters :
  List.filter (fun c => negb (Nat.eqb (length (snd c)) 0))
    (flat_map (calls_named ["compute"]) all_notebooks) =
  [ (EAttribute (EName "exit_waves") "compute",
     [EKeyword "scheduler" (EStr "threads"); EKeyword "num_workers" (ENum "2")]) ] /\
  flat_map (calls_named ["Client"]) all_notebooks =
  [ (EName "Client",
     [EKeyword "n_workers" (ENum "4"); EKeyword "threads_per_worker" (ENum "1")]) ].
Proof. split; vm_compute; reflexivity. Qed.

(** The noise calls (C9): the one of image_simulation_with_abtem gives
    the dose and the seed 100, the one of the supplement gives no seed. *)
Example poisson_noise_arguments :
  map snd (calls_named ["poisson_noise"] image_simulation_with_abtem) =
  [ [EKeyword "dose_per_area" (ENum "1e4"); EKeyword "seed" (ENum "100")] ] /\
  map snd (calls_named ["poisson_noise"] image_simulation_with_abtem_supplement) =
  [ [ENum "1e4"] ].
Proof. split; vm_compute; reflexivity. Qed.

(** The structure file of the tutorial (C10): written once, by
    atomic_models_with_ase, and read under the same name by the two
    image-simulation notebooks. *)
Example sto_lto_written_and_read :
  paths_of ["write"] atomic_models_with_ase = ["sto_lto.cif"] /\
  paths_of ["read"] image_simulation_with_abtem = ["sto_lto.cif"] /\
  paths_of ["read"] image_simulation_with_abtem_supplement =
    ["sto_lto.cif"; "sto_lto.cif"; "cluster_on_carbon.cfg"].
Proof. repeat split; vm_compute; reflexivity. Qed.

End Claims.

(** ** The substitution cell on a small structure *)

Section SubstitutionDemo.
Import Ase.

(** The cell on the small structure, through the theorem. *)
Lemma substitute_spec_witness :
  exists r' h' ns',
    substitute 3 demo_heap = Some (r', h') /\
    demo_heap !! r' = None /\
    (forall l o, demo_heap !! l = Some o -> h' !! l = Some o) /\
    view h' 3 = Some (demo_numbers, demo_positions, demo_cell, (true, true, true)) /\
    view h' r' = Some (ns', demo_positions, demo_cell, (true, true, true)) /\
    length ns' = length demo_numbers /\
    forall i n p, demo_numbers !! i = Some n -> demo_positions !! i = Some p ->
      ns' !! i = Some (if substituted n p then 57%Z else n).
Proof.
  apply (substitute_spec demo_heap 3 demo_numbers demo_positions demo_cell
           (true, true, true)).
  - vm_compute. reflexivity.
  - reflexivity.
Defined.

(** Only the Sr atom below y = 7.5 becomes La; the source keeps its Sr. *)
Example substitute_demo :
  match substitute 3 demo_heap with
  | Some (r', h') =>
      (option_map (fun s => fst (fst (fst s))) (view h' r'),
       option_map (fun s => fst (fst (fst s))) (view h' 3))
  | None => (None, None)
  end = (Some [57; 38; 22; 8]%Z, Some [38; 38; 22; 8]%Z).
Proof. vm_compute. reflexivity. Qed.

End SubstitutionDemo.

(** * Further facts *)

(** ** The substitution cell: the store it leaves *)

Section AseStore.
Import Ase.

Lemma mask_numbers (ns : list Z) (ps : list vec3) :
  length ns = length ps →
  zip_with (fun (m : bool) n => if m then 57%Z else n)
    (zip_with andb (map (fun n => Z.eqb n 38) ns)
       (lt_scalar (map (fun p : vec3 => snd (fst p)) ps) 7.5%float)) ns =
  zip_with (fun n p => if substituted n p then 57%Z else n) ns ps.
Proof.
  intros Hlen. apply list_eq. intros i.
  rewrite !lookup_zip_with. unfold lt_scalar. rewrite !list_lookup_fmap.
  destruct (ns !! i) as [n|] eqn:Hn; simpl.
  - destruct (ps !! i) as [p|] eqn:Hp; simpl; [|reflexivity].
    f_equal. unfold substituted.
    destruct (Z.eqb_spec n 38) as [->|Hne].
    + rewrite bool_decide_eq_true_2 by reflexivity. reflexivity.
    + rewrite bool_decide_eq_false_2 by (rewrite symbol_Sr; exact Hne). reflexivity.
  - reflexivity.
Qed.

(** The store after the cell, in full: three new objects, the numbers
    array of the copy holding the substituted numbers. *)
Lemma substitute_store (h : heap) (r : loc) ns ps c b :
  view h r = Some (ns, ps, c, b) →
  length ns = length ps →
  ∃ ln lp r',
    h !! ln = None ∧ h !! lp = None ∧ h !! r' = None ∧
    ln ≠ lp ∧ ln ≠ r' ∧ lp ≠ r' ∧
    substitute r h =
      Some (r',
            <[ln := OArray (IntArray
                      (zip_with (fun n p => if substituted n p then 57%Z else n) ns ps))]>
              (<[r' := OAtoms {| numbers_ref := ln; positions_ref := lp;
                                 cell := c; pbc := b |}]>
                 (<[lp := OArray (Float3Array ps)]>
                    (<[ln := OArray (IntArray ns)]> h)))).
Proof.
  intros Hv Hlen.
  destruct (view_inv _ _ _ _ _ _ Hv) as (a & Hr & Hn & Hp & <- & <-).
  unfold substitute. rewrite (copy_eq h r a ns ps Hr Hn Hp). cbv zeta.
  pose proof (is_fresh (dom h)) as F1.
  remember (fresh (dom h)) as ln eqn:Eln.
  remember (<[ln := OArray (IntArray ns)]> h) as h1 eqn:Eh1.
  pose proof (is_fresh (dom h1)) as F2.
  remember (fresh (dom h1)) as lp eqn:Elp.
  remember (<[lp := OArray (Float3Array ps)]> h1) as h2 eqn:Eh2.
  pose proof (is_fresh (dom h2)) as F3.
  remember (fresh (dom h2)) as r' eqn:Er'.
  remember {| numbers_ref := ln; positions_ref := lp; cell := cell a; pbc := pbc a |}
    as a' eqn:Ea'.
  remember (<[r' := OAtoms a']> h2) as h3 eqn:Eh3.
  clear Eln Elp Er'.
  rewrite not_elem_of_dom in F1, F2, F3.
  assert (Hlnlp : ln ≠ lp) by (intros ->; subst h1; rewrite lookup_insert_eq in F2; discriminate).
  assert (Hr'lp : lp ≠ r') by (intros ->; subst h2; rewrite lookup_insert_eq in F3; discriminate).
  assert (Hr'ln : ln ≠ r').
  { intros ->. subst h2 h1. rewrite lookup_insert_ne, lookup_insert_eq in F3 by done. discriminate. }
  assert (F3' : h !! r' = None).
  { subst h2 h1. rewrite !lookup_insert_ne in F3 by done. exact F3. }
  assert (F2' : h !! lp = None).
  { subst h1. rewrite lookup_insert_ne in F2 by done. exact F2. }
  assert (L3r : h3 !! r' = Some (OAtoms a')) by (subst h3; apply lookup_insert_eq).
  assert (L3n : h3 !! ln = Some (OArray (IntArray ns))).
  { subst h3 h2 h1. rewrite !lookup_insert_ne by done. apply lookup_insert_eq. }
  assert (L3p : h3 !! lp = Some (OArray (Float3Array ps))).
  { subst h3 h2. rewrite lookup_insert_ne by done. apply lookup_insert_eq. }
  assert (Han : numbers_ref a' = ln) by (subst a'; reflexivity).
  assert (Hap : positions_ref a' = lp) by (subst a'; reflexivity).
  exists ln, lp, r'. repeat (split; [assumption|]).
  cbn [mbind option_bind]. unfold symbols_eq, positions_column, get_atoms, get_ints, get_float3.
  rewrite L3r. cbn [mbind option_bind fmap option_fmap option_map]. rewrite Han, Hap, L3n.
  cbn [mbind option_bind]. rewrite atomic_number_Sr. cbn [mbind option_bind].
  rewrite L3p. cbn [mbind option_bind]. rewrite mapM_coord_1. cbn [mbind option_bind].
  unfold mul_bool. rewrite length_map, lt_scalar_length, length_map, Hlen, Nat.eqb_refl.
  cbn [mbind option_bind].
  unfold setitem_mask, get_ints. rewrite L3n. cbn [mbind option_bind].
  rewrite length_zip_with, length_map, lt_scalar_length, length_map.
  replace (length ns `min` length ps) with (length ns) by lia.
  rewrite Nat.eqb_refl. cbn [mbind option_bind].
  rewrite (mask_numbers ns ps Hlen). subst h3 h2 h1 a'. reflexivity.
Qed.

(** The structure at the new object of such a store. *)
Lemma view_substituted (h : heap) (ln lp r' : loc) ns ns' ps c b :
  ln ≠ lp → ln ≠ r' → lp ≠ r' →
  view (<[ln := OArray (IntArray ns')]>
          (<[r' := OAtoms {| numbers_ref := ln; positions_ref := lp;
                             cell := c; pbc := b |}]>
             (<[lp := OArray (Float3Array ps)]>
                (<[ln := OArray (IntArray ns)]> h)))) r' =
  Some (ns', ps, c, b).
Proof.
  intros H1 H2 H3. unfold view, get_atoms, get_ints, get_float3.
  rewrite lookup_insert_ne, lookup_insert_eq by done. cbn.
  rewrite lookup_insert_eq. cbn.
  rewrite !lookup_insert_ne, lookup_insert_eq by done. reflexivity.
Qed.

Lemma substituted_length (ns : list Z) (ps : list vec3) :
  length ns = length ps →
  length (zip_with (fun n p => if substituted n p then 57%Z else n) ns ps) = length ps.
Proof. intros H. rewrite length_zip_with. lia. Qed.

Lemma substituted_La (p : vec3) : substituted 57 p = false.
Proof.
  unfold substituted. rewrite bool_decide_eq_false_2; [reflexivity|].
  rewrite symbol_Sr. discriminate.
Qed.

End AseStore.

(** ** Requests and call sites *)

Section SitesFacts.
Import Sites.
Context {W : World}.

Section Says.
Context (P : request → Prop).

Lemma says_ret {A} (a : A) (Q : A → Prop) : Q a → says (ret W a) P Q.
Proof. intros H k. exists []. simpl. rewrite app_nil_r. auto. Qed.

Lemma says_raise {A} (e : exn) (Q : A → Prop) : says (@raise W A e) P Q.
Proof. intros k. exists []. simpl. rewrite app_nil_r. auto. Qed.

Lemma says_tick (Q : unit → Prop) : Q tt → says (tick W) P Q.
Proof. intros H k. exists []. simpl. rewrite app_nil_r. auto. Qed.

Lemma says_ask (r : request) (Q : value → Prop) :
  P r → (∀ v, Q v) → says (ask W r) P Q.
Proof.
  intros Hr HQ k. unfold ask. destruct (respond W r (world k)) as [rep w].
  exists [(r, rep)]. simpl. split; [reflexivity|]. split.
  - repeat constructor. exact Hr.
  - destruct rep; auto.
Qed.

Lemma says_bind {A B} (c : M W A) (f : A → M W B) (Q1 : A → Prop) (Q2 : B → Prop) :
  says c P Q1 → (∀ a, Q1 a → says (f a) P Q2) → says (bind W c f) P Q2.
Proof.
  intros Hc Hf k. unfold bind.
  destruct (Hc k) as (d1 & Ht & Hd & HQ).
  destruct (c k) as [[a|e] k1]; simpl in *.
  - destruct (Hf a HQ k1) as (d2 & Ht2 & Hd2 & HQ2).
    exists (d1 ++ d2). rewrite Ht2, Ht, app_assoc.
    split; [reflexivity|]. split; [apply Forall_app; auto|exact HQ2].
  - exists d1. auto.
Qed.

Lemma says_seq {A B} (c : M W A) (f : A → M W B) (Q : B → Prop) :
  says c P (fun _ => True) → (∀ a, says (f a) P Q) → says (bind W c f) P Q.
Proof. intros Hc Hf. eapply says_bind; [exact Hc|]. intros a _. apply Hf. Qed.

Lemma says_conseq {A} (c : M W A) (Q Q' : A → Prop) :
  says c P Q → (∀ a, Q a → Q' a) → says c P Q'.
Proof.
  intros Hc HQ k. destruct (Hc k) as (d & Ht & Hd & Ha).
  exists d. split; [exact Ht|]. split; [exact Hd|].
  destruct (fst (c k)); auto.
Qed.

End Says.

(** The state after a computation that says something has a trace that
    extends the one before. *)
Lemma says_trace {A} (c : M W A) P Q (k : kstate W) :
  says c P Q → Forall (fun ev => P (fst ev)) (trace k) →
  Forall (fun ev => P (fst ev)) (trace (snd (c k))).
Proof.
  intros Hc Hk. destruct (Hc k) as (d & -> & Hd & _). apply Forall_app; auto.
Qed.

Section Explained.
Context (S : list stmt) (N : list expr).

Abbreviation E := (fun r => explains S N r = true).
Abbreviation lit e := (fun v => literal e v = true).

Lemma method_site_In (r : expr) (m : string) (args : list expr) :
  In (ECall (EAttribute r m) args) N → In args (method_sites m N).
Proof.
  intros H. unfold method_sites. apply in_flat_map.
  exists (ECall (EAttribute r m) args). split; [exact H|].
  rewrite String.eqb_refl. left. reflexivity.
Qed.

Lemma function_site_In (f : expr) (args : list expr) :
  is_attribute f = false → In (ECall f args) N → In args (function_sites N).
Proof.
  intros Hf H. unfold function_sites. apply in_flat_map.
  exists (ECall f args). split; [exact H|]. rewrite Hf. left. reflexivity.
Qed.

Lemma says_mapM (g : env) (es : list expr) :
  list_all expr (fun e => incl (subexprs e) N → says (eval W g e) E (lit e)) es →
  incl (flat_map subexprs es) N →
  says (mapM W (eval W g) es) E (fun vs => literals literal es vs = true).
Proof.
  induction 1 as [|e He es Hes IH]; intros HN.
  - apply says_ret. reflexivity.
  - rewrite mapM_cons. simpl in HN.
    eapply says_bind; [apply He; intros y Hy; apply HN, in_or_app; auto|].
    intros v Hv. eapply says_bind; [apply IH; intros y Hy; apply HN, in_or_app; auto|].
    intros vs Hvs. apply says_ret. simpl. rewrite Hv, Hvs. reflexivity.
Qed.

Lemma says_opt (g : env) (o : option expr) :
  option_all expr (fun e => incl (subexprs e) N → says (eval W g e) E (lit e)) o →
  incl (match o with Some x => subexprs x | None => [] end) N →
  says (match o with
        | Some x => bind W (eval W g x) (fun v => ret W (Some v))
        | None => ret W None
        end) E (fun w => literal_opt literal o w = true).
Proof.
  destruct 1 as [x Hx|]; intros HN.
  - eapply says_bind; [apply Hx, HN|]. intros v Hv. apply says_ret. exact Hv.
  - apply says_ret. reflexivity.
Qed.

Ltac sub_incl HN :=
  let y := fresh "y" in let Hy := fresh "Hy" in
  intros y Hy; apply HN; simpl in Hy |- *;
  rewrite ?in_app_iff; rewrite ?in_app_iff in Hy; tauto.

Ltac ih HN :=
  match goal with
  | H : incl (subexprs ?x) _ → says (eval _ _ ?x) _ _ |- says (eval _ _ ?x) _ _ =>
      apply H; first [assumption | sub_incl HN]
  end.

Ltac ih_any HN := eapply says_conseq; [ih HN|auto].

Ltac ih_list :=
  match goal with
  | H : says (mapM _ _ ?es) _ _ |- says (mapM _ _ ?es) _ _ => exact H
  end.

Lemma eval_says_deep (g : env) (e : expr) :
  (incl (subexprs e) N → says (eval W g e) E (lit e)) ∧
  match e with
  | EAttribute r _ => incl (subexprs r) N → says (eval W g r) E (lit r)
  | _ => True
  end.
Proof.
  induction e using expr_ind; (split; [intros HN|try exact I]).
  all: try match goal with H : list_all _ _ _ |- _ =>
         apply (list_all_impl _
                  (fun e => incl (subexprs e) N → says (eval W g e) E (lit e))) in H;
           [apply says_mapM in H; [|sub_incl HN] | intros ? [? _]; assumption] end.
  all: repeat match goal with H : _ ∧ _ |- _ => destruct H end.
  all: cbn [eval]; try (apply says_seq; [apply says_tick; exact I|intros _]).
  - (* name *)
    unfold lookup_name. destruct (g !! id); [|destruct (is_builtin id)];
      first [apply says_ret; reflexivity | apply says_raise].
  - apply says_ret. simpl. apply bool_decide_eq_true. reflexivity.
  - apply says_ret. simpl. apply bool_decide_eq_true. reflexivity.
  - apply says_ret. simpl. destruct b; reflexivity.
  - apply says_ret. reflexivity.
  - eapply says_bind; [ih_list|]. intros vs Hvs. apply says_ret. exact Hvs.
  - eapply says_bind; [ih_list|]. intros vs Hvs. apply says_ret. exact Hvs.
  - eapply says_bind; [ih_list|]. intros vs Hvs. apply says_ret. exact Hvs.
  - (* item *)
    eapply says_bind; [ih HN|]. intros a Ha.
    eapply says_bind; [ih HN|]. intros b Hb.
    apply says_ret. simpl. rewrite Ha, Hb. reflexivity.
  - (* attribute *)
    apply says_seq; [ih_any HN|]. intros x.
    apply says_ask; [reflexivity|reflexivity].
  - assumption.
  - (* call *)
    assert (He : incl (subexprs e) N) by sub_incl HN.
    assert (Hc : In (ECall e args) N) by (apply HN; left; reflexivity).
    destruct e; cbv beta match in *.
    all: try (apply says_seq; [ih_any HN|]; intros fv;
              eapply says_bind; [ih_list|]; intros vs Hvs;
              apply says_ask; [|reflexivity];
              cbn [explains]; apply existsb_exists; eexists; split; [|exact Hvs];
              eapply function_site_In; [|exact Hc]; reflexivity).
    apply says_seq; [ih_any He|]. intros recv.
    apply says_seq.
    { apply says_ask; [|intros; exact I]. cbn [explains]. apply existsb_exists.
      exists args. split; [|reflexivity].
      eapply method_site_In. exact Hc. }
    intros _. eapply says_bind; [ih_list|]. intros vs Hvs.
    apply says_ask; [|reflexivity].
    cbn [explains]. apply existsb_exists. exists args. split; [|exact Hvs].
    eapply method_site_In. exact Hc.
  - (* keyword *)
    eapply says_bind; [ih HN|]. intros x Hx. apply says_ret.
    simpl. rewrite Hx, bool_decide_eq_true_2 by reflexivity. reflexivity.
  - eapply says_bind; [ih HN|]. intros x Hx. apply says_ret. exact Hx.
  - (* subscript *)
    apply says_seq; [ih_any HN|]. intros x.
    apply says_seq; [ih_any HN|]. intros i.
    apply says_ask; reflexivity.
  - (* slice *)
    pose proof (says_opt g lower) as Hl. pose proof (says_opt g upper) as Hu.
    pose proof (says_opt g step) as Hs.
    eapply says_bind.
    { apply Hl; [match goal with H : option_all _ _ lower |- _ =>
                   destruct H as [x [Hx _]|]; constructor; exact Hx end|].
      destruct lower; [sub_incl HN|intros ? []]. }
    intros a Ha. eapply says_bind.
    { apply Hu; [match goal with H : option_all _ _ upper |- _ =>
                   destruct H as [x [Hx _]|]; constructor; exact Hx end|].
      destruct upper; [sub_incl HN|intros ? []]. }
    intros b Hb. eapply says_bind.
    { apply Hs; [match goal with H : option_all _ _ step |- _ =>
                   destruct H as [x [Hx _]|]; constructor; exact Hx end|].
      destruct step; [sub_incl HN|intros ? []]. }
    intros c Hc. apply says_ret. simpl. rewrite Ha, Hb, Hc. reflexivity.
  - (* binary operator *)
    apply says_seq; [ih_any HN|]. intros a.
    apply says_seq; [ih_any HN|]. intros b.
    apply says_ask; reflexivity.
  - apply says_seq; [ih_any HN|]. intros a.
    apply says_ask; reflexivity.
  - apply says_seq; [ih_any HN|]. intros a.
    apply says_seq; [ih_any HN|]. intros b.
    apply says_ask; reflexivity.
  - eapply says_bind; [ih_list|]. intros vs Hvs. apply says_ret. exact Hvs.
  - apply says_seq; [ih_any HN|]. intros a.
    apply says_ask; reflexivity.
  - apply says_raise.
  - apply says_raise.
  - apply says_raise.
  - apply says_raise.
Qed.

Lemma eval_says (g : env) (e : expr) :
  incl (subexprs e) N → says (eval W g e) E (lit e).
Proof. apply eval_says_deep. Qed.

Lemma eval_says_any (g : env) (e : expr) :
  incl (subexprs e) N → says (eval W g e) E (fun _ => True).
Proof. intros H. eapply says_conseq; [apply eval_says, H|auto]. Qed.

Lemma unpack_says (v : value) (n : nat) : says (unpack W v n) E (fun _ => True).
Proof.
  unfold unpack. apply says_seq.
  - destruct (items_of v); [apply says_ret; exact I|apply says_ask; [reflexivity|auto]].
  - intros s. destruct (items_of s) as [vs|]; [destruct (Nat.eqb (length vs) n)|];
      first [apply says_ret; exact I | apply says_raise].
Qed.

Lemma assign_each_says (f : env → expr → value → M W env) (ts : list expr) :
  list_all expr
    (fun t => incl (subexprs t) N → ∀ g v, says (f g t v) E (fun _ => True)) ts →
  incl (flat_map subexprs ts) N →
  ∀ g vs, says (assign_each W f g ts vs) E (fun _ => True).
Proof.
  induction 1 as [|t Ht ts Hts IH]; intros HN g vs.
  - simpl. apply says_ret. exact I.
  - destruct vs as [|x vs]; [simpl; apply says_ret; exact I|].
    cbn [assign_each]. simpl in HN. apply says_seq.
    + apply Ht. intros y Hy. apply HN, in_or_app. auto.
    + intros g'. apply IH. intros y Hy. apply HN, in_or_app. auto.
Qed.

Lemma assign_says (t : expr) :
  incl (subexprs t) N → ∀ g v, says (assign W g t v) E (fun _ => True).
Proof.
  induction t using expr_ind; intros HN g v.
  all: try match goal with H : list_all _ _ _ |- _ =>
         pose proof (assign_each_says (assign W) _ H) as Heach; clear H end.
  all: cbn [assign]; (apply says_seq; [apply says_tick; exact I|intros _]).
  all: try apply says_raise.
  - apply says_ret. exact I.
  - apply says_seq; [apply unpack_says|]. intros vs. apply Heach. sub_incl HN.
  - apply says_seq; [apply unpack_says|]. intros vs. apply Heach. sub_incl HN.
  - apply says_seq; [apply eval_says_any; sub_incl HN|]. intros ov.
    apply says_seq; [apply says_ask; [reflexivity|auto]|]. intros _.
    apply says_ret. exact I.
  - apply says_seq; [apply eval_says_any; sub_incl HN|]. intros ov.
    apply says_seq; [apply eval_says_any; sub_incl HN|]. intros iv.
    apply says_seq; [apply says_ask; [reflexivity|auto]|]. intros _.
    apply says_ret. exact I.
Qed.

Ltac says_steps HN :=
  repeat first
    [ apply says_ret; exact I
    | apply says_raise
    | apply says_tick; exact I
    | apply says_ask; [reflexivity|auto]
    | apply eval_says_any; sub_incl HN
    | apply assign_says; sub_incl HN
    | apply says_seq; [|intros ?] ].

Lemma exec_says (g : env) (s : stmt) :
  In s S → incl (flat_map subexprs (stmt_exprs s)) N →
  says (exec W g s) E (fun _ => True).
Proof.
  intros Hs HN.
  assert (Hex : ∀ (f : stmt → bool), f s = true → existsb f S = true).
  { intros f Hf. apply existsb_exists. exists s. auto. }
  destruct s as [n l|p [a|]|p n|t v|t op v|e| | | | | | | | | | | |];
    try destruct p; try destruct t; cbn [exec];
    try solve [says_steps HN].
  all: apply says_seq; [apply says_tick; exact I|intros _].
  all: try (apply says_seq; [|intros ?; apply says_ret; exact I]).
  all: apply says_ask; [|auto]; cbn [explains]; apply Hex; simpl;
    rewrite ?bool_decide_eq_true_2 by reflexivity; reflexivity.
Qed.

Lemma exec_all_says (ss : list stmt) :
  incl ss S → incl (nodes_of ss) N →
  ∀ g, says (exec_all W g ss) E (fun _ => True).
Proof.
  induction ss as [|s ss IH]; intros HS HN g; cbn [exec_all].
  - apply says_ret. exact I.
  - unfold nodes_of in HN. simpl in HN. rewrite flat_map_app in HN.
    apply says_seq.
    + apply exec_says; [apply HS; left; reflexivity|].
      intros y Hy. apply HN, in_or_app. auto.
    + intros g'. apply IH; [intros y Hy; apply HS; right; exact Hy|].
      intros y Hy. apply HN, in_or_app. auto.
Qed.

End Explained.
End SitesFacts.

(** Every request of a run is explained by the notebook. *)
Lemma run_explained (W : World) (nb : notebook) (w : wstate W) :
  Forall (fun ev => Sites.explains (concat nb) (Sites.nodes_of (concat nb)) (fst ev) = true)
         (trace (snd (run W nb w))).
Proof.
  unfold run.
  destruct (exec_all_says (concat nb) (Sites.nodes_of (concat nb)) (concat nb)
              (incl_refl _) (incl_refl _) ∅ (start W w)) as (d & Ht & Hd & _).
  rewrite Ht. exact Hd.
Qed.

(** ** Literal arguments *)

Section Literals.
Import Sites.

Lemma literals_constants (es : list expr) :
  list_all expr (fun e => ∀ v c, constant e = Some c → literal e v = true → v = c) es →
  ∀ vs cs, constants constant es = Some cs → literals literal es vs = true → vs = cs.
Proof.
  induction 1 as [|e He es Hes IH]; intros vs cs Hc Hl.
  - destruct vs; [|discriminate]. simpl in Hc. congruence.
  - destruct vs as [|v vs]; [discriminate|]. simpl in Hc, Hl.
    destruct (constant e) as [c|] eqn:Ec; [|discriminate].
    destruct (constants constant es) as [cs'|] eqn:Ecs; [|discriminate].
    apply andb_prop in Hl as [Hv Hvs]. injection Hc as <-.
    f_equal; [apply He; auto|apply IH; auto].
Qed.

Lemma literal_opt_constant (o : option expr) :
  option_all expr (fun e => ∀ v c, constant e = Some c → literal e v = true → v = c) o →
  ∀ w c, constant_opt constant o = Some c → literal_opt literal o w = true → w = c.
Proof.
  destruct 1 as [e He|]; intros w c Hc Hl.
  - destruct w as [v|]; [|discriminate]. simpl in Hc, Hl.
    destruct (constant e) as [c'|] eqn:Ec; [|discriminate].
    injection Hc as <-. f_equal. apply He; auto.
  - destruct w; [discriminate|]. simpl in Hc. congruence.
Qed.

(** An expression made of literals has one value only. *)
Lemma literal_constant (e : expr) :
  ∀ v c, constant e = Some c → literal e v = true → v = c.
Proof.
  induction e using expr_ind; intros v c Hc Hl; try discriminate.
  all: try match goal with H : list_all _ _ _ |- _ =>
         pose proof (literals_constants _ H) as Hlist; clear H end.
  all: destruct v; try discriminate; simpl in Hc, Hl.
  - apply bool_decide_eq_true in Hl. congruence.
  - apply bool_decide_eq_true in Hl. congruence.
  - apply Bool.eqb_prop in Hl. congruence.
  - congruence.
  - destruct (constants constant elts) as [cs|] eqn:E; [|discriminate].
    injection Hc as <-. f_equal. eapply Hlist; eauto.
  - destruct (constants constant elts) as [cs|] eqn:E; [|discriminate].
    injection Hc as <-. f_equal. eapply Hlist; eauto.
  - destruct (constants constant items) as [cs|] eqn:E; [|discriminate].
    injection Hc as <-. f_equal. eapply Hlist; eauto.
  - destruct (constant e1) as [a|] eqn:E1; [|discriminate].
    destruct (constant e2) as [b|] eqn:E2; [|discriminate].
    apply andb_prop in Hl as [Hlk Hlx]. injection Hc as <-.
    f_equal; eauto.
  - destruct (constant e) as [a|] eqn:E1; [|discriminate].
    apply andb_prop in Hl as [Hlk Hlx]. apply bool_decide_eq_true in Hlk.
    injection Hc as <-. f_equal; [congruence|eauto].
  - destruct (constant e) as [a|] eqn:E1; [|discriminate].
    injection Hc as <-. f_equal. eauto.
  - destruct (constant_opt constant lower) as [a|] eqn:E1; [|discriminate].
    destruct (constant_opt constant upper) as [b|] eqn:E2; [|discriminate].
    destruct (constant_opt constant step) as [d|] eqn:E3; [|discriminate].
    apply andb_prop in Hl as [Hl Hl3]. apply andb_prop in Hl as [Hl1 Hl2].
    injection Hc as <-.
    f_equal;
      [ eapply (literal_opt_constant lower) | eapply (literal_opt_constant upper)
      | eapply (literal_opt_constant step) ]; eassumption.
  - destruct (constants constant values) as [cs|] eqn:E; [|discriminate].
    injection Hc as <-. f_equal. eapply Hlist; eauto.
Qed.

Lemma literals_constant (es : list expr) (vs cs : list value) :
  constants constant es = Some cs → literals literal es vs = true → vs = cs.
Proof.
  apply literals_constants.
  induction es; constructor; [apply literal_constant|assumption].
Qed.

(** When every call site of the method [m] has literal arguments only,
    every request that calls [m] carries the arguments of one of them. *)
Lemma method_calls_constant (W : World) (nb : notebook) (w : wstate W) (m : string) :
  all_constant m nb = true →
  Forall (fun ev => ∀ recv vs, fst ev = RCallMethod recv m vs →
                               In vs (constant_sites m nb))
         (trace (snd (run W nb w))).
Proof.
  intros Hall. eapply Forall_impl; [apply run_explained|].
  intros [r rep] Hr recv vs Hev. cbn [fst] in Hev, Hr. subst r. cbn [explains] in Hr.
  apply existsb_exists in Hr as (args & Hin & Hl).
  unfold all_constant in Hall. rewrite forallb_forall in Hall.
  specialize (Hall args Hin).
  destruct (constants constant args) as [cs|] eqn:Hcs; [|discriminate].
  rewrite (literals_constant _ _ _ Hcs Hl).
  apply list_elem_of_In. unfold constant_sites. apply list_elem_of_omap.
  exists args. split; [apply list_elem_of_In, Hin|exact Hcs].
Qed.

(** The imports requested in a run are import statements of the
    notebook. *)
Lemma imports_listed (W : World) (nb : notebook) (w : wstate W) :
  incl (import_requests (trace (snd (run W nb w)))) (import_statements (concat nb)).
Proof.
  pose proof (run_explained W nb w) as H.
  induction H as [|[r rep] t Hr Ht IH]; [intros x []|].
  unfold import_requests. cbn [flat_map]. fold (import_requests t).
  apply incl_app; [|exact IH].
  destruct r; cbn [fst]; try apply incl_nil_l.
  - cbn [fst explains] in Hr. apply existsb_exists in Hr as (s & Hs & His).
    destruct s; try discriminate. apply andb_prop in His as [Hp _].
    apply bool_decide_eq_true in Hp. subst.
    intros x [<-|[]]. unfold import_statements. apply in_flat_map.
    eexists; split; [exact Hs|]. left. reflexivity.
  - cbn [fst explains] in Hr. apply existsb_exists in Hr as (s & Hs & His).
    destruct s; try discriminate. apply andb_prop in His as [Hp Hn].
    apply bool_decide_eq_true in Hp, Hn. subst.
    intros x [<-|[]]. unfold import_statements. apply in_flat_map.
    eexists; split; [exact Hs|]. left. reflexivity.
Qed.

End Literals.

(** ** The names a run binds *)

Section Names.
Import Sites.
Context {W : World}.

Lemma updates_refl (g : env) : updates g [] g.
Proof. split; [reflexivity|]. intros x Hx. inversion Hx. Qed.

Lemma updates_insert (g : env) (x : string) (v : value) : updates g [x] (<[x := v]> g).
Proof.
  split.
  - intros y Hy. apply lookup_insert_ne. intros ->. apply Hy. left.
  - intros y Hy. apply list_elem_of_singleton in Hy as ->.
    rewrite lookup_insert_eq. eauto.
Qed.

Lemma updates_trans (g g1 g2 : env) (b1 b2 : list string) :
  updates g b1 g1 → updates g1 b2 g2 → updates g (b1 ++ b2) g2.
Proof.
  intros [F1 B1] [F2 B2]. split.
  - intros x Hx. rewrite elem_of_app in Hx.
    rewrite F2, F1 by tauto. reflexivity.
  - intros x Hx. destruct (decide (x ∈ b2)) as [H2|H2]; [apply B2, H2|].
    rewrite F2 by exact H2. apply B1. rewrite elem_of_app in Hx. tauto.
Qed.

Lemma unpack_length (v : value) (n : nat) :
  triple (unpack W v n) (fun vs => length vs = n) any_exn.
Proof.
  unfold unpack. eapply triple_bind; [apply triple_any|]. intros s _.
  destruct (items_of s) as [vs|]; [|apply triple_raise; exact I].
  destruct (Nat.eqb (length vs) n) eqn:E.
  - apply triple_ret. apply Nat.eqb_eq, E.
  - apply triple_raise. exact I.
Qed.

Lemma assign_each_updates (f : env → expr → value → M W env) (ts : list expr) :
  list_all expr
    (fun t => ∀ g v, triple (f g t v) (updates g (target_names t)) any_exn) ts →
  ∀ g vs, length vs = length ts →
    triple (assign_each W f g ts vs) (updates g (flat_map target_names ts)) any_exn.
Proof.
  induction 1 as [|t Ht ts Hts IH]; intros g vs Hlen.
  - simpl. apply triple_ret. apply updates_refl.
  - destruct vs as [|x vs]; [discriminate|].
    cbn [assign_each]. eapply triple_bind; [apply Ht|].
    intros g' Hg'. cbn beta. eapply triple_conseq; [apply IH; simpl in Hlen; lia|].
    intros g'' Hg''. simpl. eapply updates_trans; eassumption.
Qed.

Lemma assign_updates (t : expr) :
  ∀ g v, triple (assign W g t v) (updates g (target_names t)) any_exn.
Proof.
  induction t using expr_ind; intros g v.
  all: try match goal with H : list_all _ _ _ |- _ =>
         pose proof (assign_each_updates (assign W) _ H) as Heach; clear H end.
  all: cbn [assign]; (eapply triple_bind; [apply triple_any|intros _ _]).
  all: try (apply triple_raise; exact I).
  - apply triple_ret. apply updates_insert.
  - eapply triple_bind; [apply unpack_length|]. intros vs Hvs. apply Heach, Hvs.
  - eapply triple_bind; [apply unpack_length|]. intros vs Hvs. apply Heach, Hvs.
  - eapply triple_bind; [apply triple_any|intros ov _].
    eapply triple_bind; [apply triple_any|intros _ _]. apply triple_ret, updates_refl.
  - eapply triple_bind; [apply triple_any|intros ov _].
    eapply triple_bind; [apply triple_any|intros iv _].
    eapply triple_bind; [apply triple_any|intros _ _]. apply triple_ret, updates_refl.
Qed.

Ltac updates_steps :=
  repeat first
    [ apply triple_ret; first [apply updates_refl | apply updates_insert]
    | apply triple_raise; exact I
    | eapply triple_bind; [apply triple_any|intros ? _] ].

Lemma exec_updates (g : env) (s : stmt) :
  triple (exec W g s) (updates g (binds s)) any_exn.
Proof.
  destruct s as [n l|p [a|]|p n|t v|t op v|e| | | | | | | | | | | |];
    try destruct p; try destruct t; cbn [exec binds];
    try solve [updates_steps].
  all: eapply triple_bind; [apply triple_any|intros _ _].
  all: eapply triple_bind; [apply triple_any|intros x _].
  all: apply assign_updates.
Qed.

Lemma exec_all_updates (ss : list stmt) :
  ∀ g, triple (exec_all W g ss) (updates g (flat_map binds ss)) any_exn.
Proof.
  induction ss as [|s ss IH]; intros g.
  - apply triple_ret. apply updates_refl.
  - cbn [exec_all]. eapply triple_bind; [apply exec_updates|].
    intros g' Hg'. cbn beta. eapply triple_conseq; [apply IH|].
    intros g'' Hg''. simpl. eapply updates_trans; eassumption.
Qed.

(** What a completed sequence of statements leaves of a binding: a name
    the statements do not bind keeps its value. *)
Lemma exec_all_frame (ss : list stmt) (g g' : env) (k k' : kstate W) (x : string) :
  exec_all W g ss k = (Ok g', k') → x ∉ flat_map binds ss → g' !! x = g !! x.
Proof.
  intros Hrun Hx. pose proof (exec_all_updates ss g k) as H.
  rewrite Hrun in H. apply H, Hx.
Qed.

(** The trace of a sequence of statements extends the trace before. *)
Lemma exec_all_extends (ss : list stmt) (g : env) (k : kstate W) :
  ∃ d, trace (snd (exec_all W g ss k)) = trace k ++ d.
Proof.
  destruct (exec_all_within ss g k) as (d & Ht & _). eauto.
Qed.

End Names.

(** ** Cells, request by request *)

Section CellFacts.
Import Sites Cells.
Context {W : World}.

Ltac unfold_run H :=
  unfold exec_all, exec in H; rewrite ?eval_call_method in H;
  cbn [eval mapM assign] in H;
  unfold lookup_name, bind, tick, ask, ret, raise in H;
  cbn [fst snd world trace steps] in H.

Ltac look H :=
  repeat first [ rewrite lookup_insert_eq in H
               | rewrite lookup_insert_ne in H by discriminate ];
  cbn -[lookup insert respond] in H.

Ltac step H v w E :=
  match type of H with
  | context [respond ?W ?r ?s] =>
      let e := fresh "e" in
      destruct (respond W r s) as [[v|e] w] eqn:E;
      cbn -[lookup insert respond] in H; [|discriminate H]
  end.

Lemma substitution_cell_eq :
  substitution_cell =
  [ SAssign (EName "sto_lto") (ECall (EAttribute (EName "repeated_srtio3") "copy") []);
    SAssign (EName "mask")
      (ECompare (EAttribute (EName "sto_lto") "symbols") CmpEq (EStr "Sr"));
    SAssign (EName "mask")
      (EBinOp (EName "mask") OpMult
         (ECompare
            (ESubscript (EAttribute (EName "sto_lto") "positions")
               (ETuple [ESlice None None None; ENum "1"]))
            CmpLt (ENum "7.5")));
    SAssign (ESubscript (EAttribute (EName "sto_lto") "numbers") (EName "mask"))
      (ENum "57") ].
Proof. reflexivity. Qed.

Lemma substitution_cell_run (g g' : env) (k k' : kstate W) (src : value) :
  g !! "repeated_srtio3" = Some src →
  exec_all W g substitution_cell k = (Ok g', k') →
  ∃ u sto_lto symbols m1 positions ys m2 mask numbers u',
    trace k' = trace k ++
      substitution_events src u sto_lto symbols m1 positions ys m2 mask numbers u' ∧
    g' = <["mask" := mask]> (<["sto_lto" := sto_lto]> g).
Proof.
  intros Hsrc Hrun. rewrite substitution_cell_eq in Hrun.
  unfold_run Hrun. rewrite Hsrc in Hrun. cbn -[lookup insert respond] in Hrun.
  step Hrun u w1 E1. step Hrun s w2 E2. look Hrun.
  step Hrun sy w3 E3. step Hrun m1 w4 E4. look Hrun.
  step Hrun ps w5 E5. step Hrun ys w6 E6. step Hrun m2 w7 E7. step Hrun m w8 E8.
  look Hrun.
  step Hrun ns w9 E9. step Hrun u' w10 E10.
  injection Hrun as <- <-. exists u, s, sy, m1, ps, ys, m2, m, ns, u'. split.
  - cbn [trace]. unfold substitution_events. rewrite <- !app_assoc. reflexivity.
  - apply insert_insert_eq.
Qed.

(** X8: the substitution cell, request by request.  When the cell
    completes, in any world, it has sent exactly ten requests: the copy
    of the object bound to [repeated_srtio3]; on the copy, [symbols]
    compared with "Sr", and [positions] indexed by [[:, 1]] compared
    with 7.5; the product of the two masks; and the assignment of 57 at
    that mask in the copy's [numbers].  It binds [sto_lto] to the copy and
    [mask] to the product, and nothing else. *)
Theorem substitution_cell_requests (g g' : env) (k k' : kstate W) (src : value) :
  g !! "repeated_srtio3" = Some src →
  exec_all W g substitution_cell k = (Ok g', k') →
  ∃ u sto_lto symbols m1 positions ys m2 mask numbers u',
    trace k' = trace k ++
      substitution_events src u sto_lto symbols m1 positions ys m2 mask numbers u' ∧
    g' = <["mask" := mask]> (<["sto_lto" := sto_lto]> g).
Proof. apply substitution_cell_run. Qed.




(** [exec_keeping] is [exec_all] with the namespace kept at an
    exception. *)
Lemma exec_keeping_all (ss : list stmt) (g : env) (k : kstate W) :
  exec_all W g ss k =
  (match raised (exec_keeping g ss k) with
   | None => Ok (names (exec_keeping g ss k))
   | Some e => Fail e
   end, state (exec_keeping g ss k)).
Proof.
  revert g k. induction ss as [|s ss IH]; intros g k; [reflexivity|].
  cbn [exec_all exec_keeping]. unfold bind.
  destruct (exec W g s k) as [[g'|e] k']; [apply IH|reflexivity].
Qed.


Lemma export_cells_split :
  export_cells = substitution_cell ++ centre_and_show ++ export_cell.
Proof. reflexivity. Qed.

Lemma export_cell_eq :
  export_cell =
  [ SImportFrom ["ase"; "io"] "write";
    SExpr (ECall (EName "write") [EStr "sto_lto.cif"; EName "sto_lto"]) ].
Proof. reflexivity. Qed.

(** X9: the structure written to "sto_lto.cif" is the copy made at the
    start of the substitution cell.  When the cells from the substitution
    to the export complete, in any world, the trace starts with the
    [copy] of the object bound to [repeated_srtio3] and ends with the
    import of [write] and the call of what the import returned on
    "sto_lto.cif" and the object that [copy] returned, which is still
    the one bound to [sto_lto]. *)
Theorem exported_structure_is_the_copy (g g' : env) (k k' : kstate W) (src : value) :
  g !! "repeated_srtio3" = Some src →
  exec_all W g export_cells k = (Ok g', k') →
  ∃ u sto_lto d write u',
    trace k' = trace k ++
      [ (RLoadMethod src "copy", Returned u);
        (RCallMethod src "copy" [], Returned sto_lto) ] ++ d ++
      [ (RImportFrom ["ase"; "io"] "write", Returned write);
        (RCall write [VStr "sto_lto.cif"; sto_lto], Returned u') ] ∧
    g' !! "sto_lto" = Some sto_lto.
Proof.
  intros Hsrc Hrun. rewrite export_cells_split, exec_all_app in Hrun.
  unfold bind in Hrun.
  destruct (exec_all W g substitution_cell k) as [[g1|e1] k1] eqn:E1;
    cbv beta match in Hrun; [|discriminate Hrun].
  rewrite exec_all_app in Hrun. unfold bind in Hrun.
  destruct (exec_all W g1 centre_and_show k1) as [[g2|e2] k2] eqn:E2;
    cbv beta match in Hrun; [|discriminate Hrun].
  destruct (substitution_cell_run g g1 k k1 src Hsrc E1)
    as (u & s & sy & m1 & ps & ys & m2 & m & ns & u1 & Ht1 & ->).
  assert (Hs : g2 !! "sto_lto" = Some s).
  { rewrite (exec_all_frame _ _ _ _ _ "sto_lto" E2).
    - rewrite lookup_insert_ne by discriminate. apply lookup_insert_eq.
    - apply (bool_decide_unpack ("sto_lto" ∉ flat_map binds centre_and_show)).
      vm_compute. exact I. }
  destruct (exec_all_extends centre_and_show (<["mask" := m]> (<["sto_lto" := s]> g)) k1)
    as (d & Ht2).
  rewrite E2 in Ht2. cbn [snd] in Ht2.
  rewrite export_cell_eq in Hrun.
  unfold_run Hrun.
  step Hrun wr w1 E3. look Hrun. rewrite Hs in Hrun. cbn -[lookup insert respond] in Hrun.
  step Hrun u' w2 E4.
  injection Hrun as <- <-.
  exists u, s,
    ([ (RGetAttr s "symbols", Returned sy);
       (RCompare CmpEq sy (VStr "Sr"), Returned m1);
       (RGetAttr s "positions", Returned ps);
       (RGetItem ps (VTuple [VSlice None None None; VNum "1"]), Returned ys);
       (RCompare CmpLt ys (VNum "7.5"), Returned m2);
       (RBinOp OpMult m1 m2, Returned m);
       (RGetAttr s "numbers", Returned ns);
       (RSetItem ns m (VNum "57"), Returned u1) ] ++ d), wr, u'.
  split.
  - cbn [trace]. rewrite Ht2, Ht1. unfold substitution_events.
    rewrite <- !app_assoc. reflexivity.
  - rewrite lookup_insert_ne by discriminate. exact Hs.
Qed.



Lemma detector_cell_eq :
  detector_cell =
  [ SAssign (EName "bright")
      (ECall (EAttribute (EName "abtem") "AnnularDetector")
         [EKeyword "inner" (ENum "0"); EKeyword "outer" (ENum "20")]);
    SAssign (EName "maadf")
      (ECall (EAttribute (EName "abtem") "AnnularDetector")
         [EKeyword "inner" (ENum "50"); EKeyword "outer" (ENum "120")]);
    SAssign (EName "haadf")
      (ECall (EAttribute (EName "abtem") "AnnularDetector")
         [EKeyword "inner" (ENum "100"); EKeyword "outer" (ENum "180")]);
    SAssign (EName "detectors") (EList [EName "bright"; EName "maadf"; EName "haadf"]) ].
Proof. vm_compute. reflexivity. Qed.

Lemma scan_and_stack_eq :
  scan_and_stack =
  [ SAssign (EName "scanned_measurements")
      (ECall (EAttribute (EName "probe") "scan")
         [EKeyword "scan" (EName "scan"); EKeyword "detectors" (EName "detectors");
          EKeyword "potential" (EName "potential")]);
    SExpr (ECall (EAttribute (EName "scanned_measurements") "compute") []);
    SAssign (EName "stacked_measurements")
      (ECall (EAttribute (EName "abtem") "stack")
         [EName "scanned_measurements";
          ETuple [EStr "BF"; EStr "MAADF"; EStr "HAADF"]]) ].
Proof. vm_compute. reflexivity. Qed.

(** X11: the scan of image_simulation_with_abtem receives the three
    annular detectors in the order bright (0 to 20), MAADF (50 to 120),
    HAADF (100 to 180), the order of the labels "BF", "MAADF", "HAADF"
    under which its result is stacked.  When the cells complete, in any
    world, the [detectors] argument of the [scan] request is the list of
    what the three [AnnularDetector] calls returned, in that order, and
    [abtem.stack] is called on what [scan] returned ([compute] is called
    on it in between and its result dropped). *)
Theorem detectors_reach_the_scan (g g' : env) (k k' : kstate W)
    (abtem probe scan potential : value) :
  g !! "abtem" = Some abtem → g !! "probe" = Some probe →
  g !! "scan" = Some scan → g !! "potential" = Some potential →
  exec_all W g detector_cells k = (Ok g', k') →
  ∃ u1 bright u2 maadf u3 haadf d u4 measurements u5 computed u6 stacked,
    trace k' = trace k ++
      [ (RLoadMethod abtem "AnnularDetector", Returned u1);
        (RCallMethod abtem "AnnularDetector"
           [VKeyword "inner" (VNum "0"); VKeyword "outer" (VNum "20")], Returned bright);
        (RLoadMethod abtem "AnnularDetector", Returned u2);
        (RCallMethod abtem "AnnularDetector"
           [VKeyword "inner" (VNum "50"); VKeyword "outer" (VNum "120")], Returned maadf);
        (RLoadMethod abtem "AnnularDetector", Returned u3);
        (RCallMethod abtem "AnnularDetector"
           [VKeyword "inner" (VNum "100"); VKeyword "outer" (VNum "180")], Returned haadf) ]
      ++ d ++
      [ (RLoadMethod probe "scan", Returned u4);
        (RCallMethod probe "scan"
           [VKeyword "scan" scan; VKeyword "detectors" (VList [bright; maadf; haadf]);
            VKeyword "potential" potential], Returned measurements);
        (RLoadMethod measurements "compute", Returned u5);
        (RCallMethod measurements "compute" [], Returned computed);
        (RLoadMethod abtem "stack", Returned u6);
        (RCallMethod abtem "stack"
           [measurements; VTuple [VStr "BF"; VStr "MAADF"; VStr "HAADF"]],
         Returned stacked) ] ∧
    g' !! "stacked_measurements" = Some stacked.
Proof.
  intros Ha Hp Hs Hv Hrun. unfold detector_cells in Hrun.
  rewrite exec_all_app in Hrun. unfold bind in Hrun.
  destruct (exec_all W g detector_cell k) as [[g1|e1] k1] eqn:E1;
    cbv beta match in Hrun; [|discriminate Hrun].
  rewrite exec_all_app in Hrun. unfold bind in Hrun.
  destruct (exec_all W g1 detector_regions k1) as [[g2|e2] k2] eqn:E2;
    cbv beta match in Hrun; [|discriminate Hrun].
  (* the detectors *)
  rewrite detector_cell_eq in E1. unfold_run E1.
  rewrite Ha in E1. cbn -[lookup insert respond] in E1.
  step E1 u1 w1 R1. step E1 b w2 R2. look E1. rewrite ?Ha in E1.
  cbn -[lookup insert respond] in E1.
  step E1 u2 w3 R3. step E1 m w4 R4. look E1. rewrite ?Ha in E1.
  cbn -[lookup insert respond] in E1.
  step E1 u3 w5 R5. step E1 h w6 R6. look E1.
  injection E1 as Hg1 Hk1.
  (* the cells in between *)
  assert (Hframe : ∀ x, bool_decide (x ∉ flat_map binds detector_regions) = true →
                        g2 !! x = g1 !! x).
  { intros x Hx. apply (exec_all_frame _ _ _ _ _ x E2).
    apply bool_decide_eq_true in Hx. exact Hx. }
  assert (Ha2 : g2 !! "abtem" = Some abtem).
  { rewrite Hframe by (vm_compute; reflexivity). subst g1.
    rewrite !lookup_insert_ne by discriminate. exact Ha. }
  assert (Hp2 : g2 !! "probe" = Some probe).
  { rewrite Hframe by (vm_compute; reflexivity). subst g1.
    rewrite !lookup_insert_ne by discriminate. exact Hp. }
  assert (Hs2 : g2 !! "scan" = Some scan).
  { rewrite Hframe by (vm_compute; reflexivity). subst g1.
    rewrite !lookup_insert_ne by discriminate. exact Hs. }
  assert (Hv2 : g2 !! "potential" = Some potential).
  { rewrite Hframe by (vm_compute; reflexivity). subst g1.
    rewrite !lookup_insert_ne by discriminate. exact Hv. }
  assert (Hd2 : g2 !! "detectors" = Some (VList [b; m; h])).
  { rewrite Hframe by (vm_compute; reflexivity). subst g1.
    apply lookup_insert_eq. }
  destruct (exec_all_extends detector_regions g1 k1) as (d & Ht2).
  rewrite E2 in Ht2. cbn [snd] in Ht2.
  (* the scan and the stack *)
  rewrite scan_and_stack_eq in Hrun. unfold_run Hrun.
  rewrite Hp2 in Hrun. cbn -[lookup insert respond] in Hrun.
  step Hrun u4 w7 R7.
  rewrite Hs2, Hd2, Hv2 in Hrun. cbn -[lookup insert respond] in Hrun.
  step Hrun r w8 R8. look Hrun.
  step Hrun u5 w9 R9. step Hrun c w10 R10. look Hrun.
  rewrite Ha2 in Hrun. cbn -[lookup insert respond] in Hrun.
  step Hrun u6 w11 R11. step Hrun st w12 R12.
  injection Hrun as <- <-.
  exists u1, b, u2, m, u3, h, d, u4, r, u5, c, u6, st. split.
  - cbn [trace]. rewrite Ht2. subst k1. cbn [trace].
    rewrite <- !app_assoc. reflexivity.
  - apply lookup_insert_eq.
Qed.

End CellFacts.

(** ** The cells in the quiet world *)

Section CellWitnesses.
Import Sites Cells.

Lemma substitution_cell_requests_witness :
  export_env !! "repeated_srtio3" = Some (VObject 0) ∧
  ∃ u sto_lto symbols m1 positions ys m2 mask numbers u',
    trace (snd substitution_run) = trace (start quiet 1%N) ++
      substitution_events (VObject 0) u sto_lto symbols m1 positions ys m2 mask numbers u' ∧
    final_env substitution_run = <["mask" := mask]> (<["sto_lto" := sto_lto]> export_env).
Proof.
  split; [vm_compute; reflexivity|].
  apply (substitution_cell_requests (W := quiet) export_env (final_env substitution_run)
           (start quiet 1%N) (snd substitution_run) (VObject 0)).
  - vm_compute. reflexivity.
  - vm_compute. reflexivity.
Defined.

Lemma exported_structure_is_the_copy_witness :
  export_env !! "repeated_srtio3" = Some (VObject 0) ∧
  ∃ u sto_lto d write u',
    trace (snd export_run) = trace (start quiet 1%N) ++
      [ (RLoadMethod (VObject 0) "copy", Returned u);
        (RCallMethod (VObject 0) "copy" [], Returned sto_lto) ] ++ d ++
      [ (RImportFrom ["ase"; "io"] "write", Returned write);
        (RCall write [VStr "sto_lto.cif"; sto_lto], Returned u') ] ∧
    final_env export_run !! "sto_lto" = Some sto_lto.
Proof.
  split; [vm_compute; reflexivity|].
  apply (exported_structure_is_the_copy (W := quiet) export_env (final_env export_run)
           (start quiet 1%N) (snd export_run) (VObject 0)).
  - vm_compute. reflexivity.
  - vm_compute. reflexivity.
Defined.

Lemma detectors_reach_the_scan_witness :
  ∃ u1 bright u2 maadf u3 haadf d u4 measurements u5 computed u6 stacked,
    trace (snd detector_run) = trace (start quiet 3%N) ++
      [ (RLoadMethod (VModule ["abtem"]) "AnnularDetector", Returned u1);
        (RCallMethod (VModule ["abtem"]) "AnnularDetector"
           [VKeyword "inner" (VNum "0"); VKeyword "outer" (VNum "20")], Returned bright);
        (RLoadMethod (VModule ["abtem"]) "AnnularDetector", Returned u2);
        (RCallMethod (VModule ["abtem"]) "AnnularDetector"
           [VKeyword "inner" (VNum "50"); VKeyword "outer" (VNum "120")], Returned maadf);
        (RLoadMethod (VModule ["abtem"]) "AnnularDetector", Returned u3);
        (RCallMethod (VModule ["abtem"]) "AnnularDetector"
           [VKeyword "inner" (VNum "100"); VKeyword "outer" (VNum "180")], Returned haadf) ]
      ++ d ++
      [ (RLoadMethod (VObject 0) "scan", Returned u4);
        (RCallMethod (VObject 0) "scan"
           [VKeyword "scan" (VObject 1); VKeyword "detectors" (VList [bright; maadf; haadf]);
            VKeyword "potential" (VObject 2)], Returned measurements);
        (RLoadMethod measurements "compute", Returned u5);
        (RCallMethod measurements "compute" [], Returned computed);
        (RLoadMethod (VModule ["abtem"]) "stack", Returned u6);
        (RCallMethod (VModule ["abtem"]) "stack"
           [measurements; VTuple [VStr "BF"; VStr "MAADF"; VStr "HAADF"]],
         Returned stacked) ] ∧
    final_env detector_run !! "stacked_measurements" = Some stacked.
Proof.
  apply (detectors_reach_the_scan (W := quiet) detector_env (final_env detector_run)
           (start quiet 3%N) (snd detector_run)
           (VModule ["abtem"]) (VObject 0) (VObject 1) (VObject 2)).
  all: vm_compute; reflexivity.
Defined.


(** The requests of the two versions of the cell that repeats the
    surface, in the quiet world. *)
Example repeated_surface_requests :
  map fst (trace (state (exec_keeping (W := quiet) repeat_env repeat_cell (start quiet 1%N)))) =
  [ RLoadMethod (VObject 0) "copy";
    RCallMethod (VObject 0) "copy" [];
    RBinOp OpMult (VObject 0) (VTuple [VNum "3"; VNum "4"; VNum "10"]);
    RLoadMethod (VModule ["abtem"]) "show_atoms";
    RCallMethod (VModule ["abtem"]) "show_atoms"
      [VObject 2; VKeyword "legend" (VBool true)] ] ∧
  trace (state (exec_keeping (W := quiet) repeat_env repeat_cell_unbound (start quiet 1%N))) =
  trace (state (exec_keeping (W := quiet) repeat_env repeat_cell (start quiet 1%N))).
Proof. split; vm_compute; reflexivity. Qed.

(** Where the two differ: in a world in which the product raises, the
    cell stops with [repeated_srtio3] bound to the copy, the other cell
    with the name unbound. *)
Example repeated_surface_when_the_product_raises :
  raised (exec_keeping (W := no_product) repeat_env repeat_cell (start no_product 1%N)) =
    Some (Raised (VStr "ValueError")) ∧
  names (exec_keeping (W := no_product) repeat_env repeat_cell (start no_product 1%N))
    !! "repeated_srtio3" = Some (VObject 1) ∧
  names (exec_keeping (W := no_product) repeat_env repeat_cell_unbound (start no_product 1%N))
    !! "repeated_srtio3" = None.
Proof. repeat split; vm_compute; reflexivity. Qed.

End CellWitnesses.


(** * Properties of the runs of the notebooks *)

Section Runs.
Import Notebooks Sites Cells.

(** ** Exceptions *)

(** X1: in the three notebooks of the tutorial proper, whatever the
    world does, a run never stops on a name that is not defined or on
    syntax the kernel does not run.  It completes, or it stops on the
    exception that the world threw in reply to the last request, no
    earlier request having thrown, or on a value that unpacks to the
    wrong number of items. *)
Theorem tutorial_runs_stop_only_on_outside_exceptions :
  Forall (fun nb => ∀ (W : World) (w : wstate W),
            match fst (run W nb w) with
            | Ok _ | Fail (UnpackError _ _) =>
                Forall calm (trace (snd (run W nb w)))
            | Fail (Raised v) =>
                ∃ r t, trace (snd (run W nb w)) = t ++ [(r, Threw v)] ∧ Forall calm t
            | Fail (NameError _) | Fail SyntaxUnsupported => False
            end)
         tutorial_notebooks.
Proof.
  unfold tutorial_notebooks.
  repeat apply Forall_cons_2; try apply Forall_nil_2.
  all: intros W w.
  all: match goal with |- context [run ?V ?nb ?v] =>
         pose proof (well_scoped_raises_from_outside V nb v
                       ltac:(vm_compute; reflexivity)) as H;
         revert H; destruct (fst (run V nb v)) as [g|[x|a b| |e]]; auto
       end.
Qed.

(** X2: the nanoparticle notebook completes in no world.  A run stops
    on an exception of the world or on an unpacking error; otherwise it
    reaches the last cell, where it stops on [NameError] for [write],
    no request having thrown. *)
Theorem nanoparticle_completes_in_no_world (W : World) (w : wstate W) :
  match fst (run W nanoparticle_on_carbon w) with
  | Ok _ | Fail SyntaxUnsupported => False
  | Fail (NameError x) =>
      x = "write" ∧ Forall calm (trace (snd (run W nanoparticle_on_carbon w)))
  | Fail (UnpackError _ _) => Forall calm (trace (snd (run W nanoparticle_on_carbon w)))
  | Fail (Raised v) =>
      ∃ r t, trace (snd (run W nanoparticle_on_carbon w)) = t ++ [(r, Threw v)] ∧
             Forall calm t
  end.
Proof.
  pose proof (run_disciplined W nanoparticle_on_carbon w) as Hd.
  destruct (nanoparticle_never_completes W w) as (e & He & Hw).
  rewrite He in *. destruct e as [x|a b| |v]; cbn in *.
  - destruct Hw as [[= ->]|[]]. auto.
  - exact Hd.
  - destruct Hw as [Hw|[]]. discriminate Hw.
  - exact Hd.
Qed.

(** ** What the requests carry *)

(** X4: whatever the world does, a run imports nothing but what the
    import statements of the notebooks name: the modules [abtem], [ase],
    [matplotlib.pyplot] and [numpy], and eight names from [ase.build],
    [ase.io], [ase.visualize], [ase.cluster] and [dask.distributed]. *)
Theorem runs_import_what_the_notebooks_name :
  Forall (fun nb => ∀ (W : World) (w : wstate W),
            incl (import_requests (trace (snd (run W nb w))))
              [ (["abtem"], None); (["ase"], None); (["matplotlib"; "pyplot"], None);
                (["numpy"], None);
                (["ase"; "visualize"], Some "view"); (["ase"; "build"], Some "surface");
                (["ase"; "io"], Some "write"); (["ase"; "io"], Some "read");
                (["dask"; "distributed"], Some "Client"); (["ase"; "build"], Some "bulk");
                (["ase"; "cluster"], Some "Decahedron") ])
         all_notebooks.
Proof.
  unfold all_notebooks.
  repeat apply Forall_cons_2; try apply Forall_nil_2.
  all: intros W w; eapply incl_tran; [apply imports_listed|].
  all: intros x Hx; vm_compute in Hx; cbn [In].
  all: repeat (destruct Hx as [<-|Hx]; [tauto|]); destruct Hx.
Qed.

(** The imports of the runs in the quiet world. *)
Example imports_of_the_quiet_runs :
  map (fun nb => length (import_requests (trace (snd (run quiet nb 0%N))))) all_notebooks =
  [8; 4; 6; 7].
Proof. vm_compute. reflexivity. Qed.

(** X5: whatever the world does, every [poisson_noise] request of a
    run of image_simulation_with_abtem carries the dose 1e4 and the seed
    100, and every one of a run of the supplement carries the dose 1e4
    and no seed. *)
Theorem poisson_noise_requests (W : World) (w : wstate W) :
  Forall (fun ev => ∀ recv vs, fst ev = RCallMethod recv "poisson_noise" vs →
            vs = [VKeyword "dose_per_area" (VNum "1e4"); VKeyword "seed" (VNum "100")])
         (trace (snd (run W image_simulation_with_abtem w))) ∧
  Forall (fun ev => ∀ recv vs, fst ev = RCallMethod recv "poisson_noise" vs →
            vs = [VNum "1e4"])
         (trace (snd (run W image_simulation_with_abtem_supplement w))).
Proof.
  split.
  all: eapply Forall_impl;
    [apply (method_calls_constant W _ w "poisson_noise"); vm_compute; reflexivity|].
  all: intros ev H recv vs Hev; specialize (H recv vs Hev); vm_compute in H.
  all: destruct H as [<-|[]]; reflexivity.
Qed.

(** The request does occur: once in each of the two runs in the quiet
    world. *)
Example poisson_noise_in_the_quiet_runs :
  method_calls "poisson_noise" (trace (snd (run quiet image_simulation_with_abtem 0%N))) =
    [[VKeyword "dose_per_area" (VNum "1e4"); VKeyword "seed" (VNum "100")]] ∧
  method_calls "poisson_noise"
    (trace (snd (run quiet image_simulation_with_abtem_supplement 0%N))) = [[VNum "1e4"]].
Proof. split; vm_compute; reflexivity. Qed.

(** X6: whatever the world does, [to_zarr], [from_zarr] and [save],
    the methods through which the notebooks write a file or read one
    back, are called on the paths written in the notebooks only:
    [to_zarr] and [from_zarr] on "measurement_4d.zarr", and [save] on
    "../intro_multislice/potential.gif" with the writer "pillow".  (The
    three are called as methods at every call site; [read] and [write],
    which are also called through imported names, are not the subject
    here.) *)
Theorem file_methods_are_called_on_literal_paths :
  Forall (fun nb => ∀ (W : World) (w : wstate W),
            Forall (fun ev => ∀ recv vs,
                      (fst ev = RCallMethod recv "to_zarr" vs →
                       vs = [VStr "measurement_4d.zarr"]) ∧
                      (fst ev = RCallMethod recv "from_zarr" vs →
                       vs = [VStr "measurement_4d.zarr"]) ∧
                      (fst ev = RCallMethod recv "save" vs →
                       vs = [VStr "../intro_multislice/potential.gif";
                             VKeyword "writer" (VStr "pillow")]))
                   (trace (snd (run W nb w))))
         all_notebooks.
Proof.
  unfold all_notebooks.
  repeat apply Forall_cons_2; try apply Forall_nil_2.
  all: intros W w.
  all: match goal with |- Forall _ (trace (snd (run ?V ?nb ?v))) =>
         pose proof (method_calls_constant V nb v "to_zarr" ltac:(vm_compute; reflexivity)) as H1;
         pose proof (method_calls_constant V nb v "from_zarr" ltac:(vm_compute; reflexivity)) as H2;
         pose proof (method_calls_constant V nb v "save" ltac:(vm_compute; reflexivity)) as H3
       end.
  all: rewrite Forall_forall in *; intros ev Hev recv vs.
  all: specialize (H1 ev Hev recv vs); specialize (H2 ev Hev recv vs);
       specialize (H3 ev Hev recv vs).
  all: vm_compute in H1, H2, H3.
  all: repeat split; intros Hr;
       [ specialize (H1 Hr) | specialize (H2 Hr) | specialize (H3 Hr) ];
       intuition congruence.
Qed.

(** The three are called as methods wherever the notebooks call them:
    no call site names one of them as a plain function. *)
Example file_methods_are_method_calls :
  flat_map (fun nb => List.filter
                        (fun c => match fst c with
                                  | EName f => bool_decide (f ∈ ["to_zarr"; "from_zarr"; "save"])
                                  | _ => false
                                  end) (all_calls nb)) all_notebooks = [].
Proof. vm_compute. reflexivity. Qed.

(** The requests do occur in the runs in the quiet world. *)
Example file_methods_in_the_quiet_runs :
  method_calls "to_zarr"
    (trace (snd (run quiet image_simulation_with_abtem_supplement 0%N))) =
    [[VStr "measurement_4d.zarr"]] ∧
  method_calls "from_zarr"
    (trace (snd (run quiet image_simulation_with_abtem_supplement 0%N))) =
    [[VStr "measurement_4d.zarr"]] ∧
  method_calls "save" (trace (snd (run quiet nanoparticle_on_carbon 0%N))) =
    [[VStr "../intro_multislice/potential.gif"; VKeyword "writer" (VStr "pillow")]].
Proof. repeat split; vm_compute; reflexivity. Qed.

(** X7: whatever the world does, every [compute] request of a run has
    no argument, except in the supplement, where it may also carry the
    scheduler "threads" with two workers; no other scheduler parameter
    is ever passed to [compute]. *)
Theorem compute_requests (W : World) (w : wstate W) :
  Forall (fun nb =>
            Forall (fun ev => ∀ recv vs, fst ev = RCallMethod recv "compute" vs → vs = [])
                   (trace (snd (run W nb w))))
         [atomic_models_with_ase; image_simulation_with_abtem; nanoparticle_on_carbon] ∧
  Forall (fun ev => ∀ recv vs, fst ev = RCallMethod recv "compute" vs →
            vs = [] ∨
            vs = [VKeyword "scheduler" (VStr "threads"); VKeyword "num_workers" (VNum "2")])
         (trace (snd (run W image_simulation_with_abtem_supplement w))).
Proof.
  split; [repeat apply Forall_cons_2; try apply Forall_nil_2|].
  all: eapply Forall_impl;
    [apply (method_calls_constant W _ w "compute"); vm_compute; reflexivity|].
  all: intros ev H recv vs Hev; specialize (H recv vs Hev); vm_compute in H.
  all: intuition congruence.
Qed.

(** The requests of the supplement's run in the quiet world. *)
Example compute_in_the_quiet_run :
  method_calls "compute"
    (trace (snd (run quiet image_simulation_with_abtem_supplement 0%N))) =
  [ []; []; []; []; []; [];
    [VKeyword "scheduler" (VStr "threads"); VKeyword "num_workers" (VNum "2")]; [] ].
Proof. vm_compute. reflexivity. Qed.

End Runs.

(** * Properties of the substitution cell's store *)

Section Substitution.
Import Ase Cells.

(** X13: on a structure in which no atom is Sr with y below 7.5, the
    substitution cell makes a plain copy: the new object has the numbers,
    positions, cell and periodicity of the source. *)
Theorem substitute_without_match_copies (h : heap) (r : loc) ns ps c b :
  view h r = Some (ns, ps, c, b) →
  length ns = length ps →
  (∀ i n p, ns !! i = Some n → ps !! i = Some p → substituted n p = false) →
  ∃ r' h', substitute r h = Some (r', h') ∧ view h' r' = Some (ns, ps, c, b).
Proof.
  intros Hv Hlen Hno.
  destruct (substitute_store h r ns ps c b Hv Hlen)
    as (ln & lp & r' & Fn & Fp & Fr & Hnp & Hnr & Hpr & Hs).
  eexists r', _. split; [exact Hs|].
  rewrite view_substituted by assumption. repeat f_equal.
  apply list_eq. intros i. rewrite lookup_zip_with.
  destruct (ns !! i) as [n|] eqn:Hn; [|reflexivity]. cbn.
  destruct (ps !! i) as [p|] eqn:Hp; cbn.
  - rewrite (Hno i n p Hn Hp). reflexivity.
  - apply lookup_lt_Some in Hn. apply lookup_ge_None in Hp. lia.
Qed.

Lemma substitute_without_match_copies_witness :
  ∃ r' h', substitute 3 lto_heap = Some (r', h') ∧
           view h' r' = Some (lto_numbers, demo_positions, demo_cell, (true, true, true)).
Proof.
  apply (substitute_without_match_copies lto_heap 3 lto_numbers demo_positions
           demo_cell (true, true, true)).
  - vm_compute. reflexivity.
  - reflexivity.
  - intros i n p Hn Hp.
    destruct i as [|[|[|[|i]]]]; cbn in Hn, Hp; try discriminate;
      injection Hn as <-; injection Hp as <-; vm_compute; reflexivity.
Defined.

(** X14: the substitution is idempotent.  Run on its own result, the
    cell substitutes nothing more: the second copy has the structure of
    the first. *)
Theorem substitute_idempotent (h : heap) (r : loc) ns ps c b r' h' :
  view h r = Some (ns, ps, c, b) →
  length ns = length ps →
  substitute r h = Some (r', h') →
  ∃ r'' h'', substitute r' h' = Some (r'', h'') ∧ view h'' r'' = view h' r'.
Proof.
  intros Hv Hlen Hs.
  destruct (substitute_store h r ns ps c b Hv Hlen)
    as (ln & lp & r1 & Fn & Fp & Fr & Hnp & Hnr & Hpr & Hs1).
  rewrite Hs in Hs1. injection Hs1 as -> ->.
  set (ns' := zip_with (fun n p => if substituted n p then 57%Z else n) ns ps).
  assert (Hv' : view (<[ln := OArray (IntArray ns')]>
                        (<[r1 := OAtoms {| numbers_ref := ln; positions_ref := lp;
                                           cell := c; pbc := b |}]>
                           (<[lp := OArray (Float3Array ps)]>
                              (<[ln := OArray (IntArray ns)]> h)))) r1 =
                Some (ns', ps, c, b))
    by (apply view_substituted; assumption).
  assert (Hlen' : length ns' = length ps) by (apply substituted_length, Hlen).
  destruct (substitute_without_match_copies _ r1 ns' ps c b Hv' Hlen')
    as (r'' & h'' & Hs2 & Hv2).
  - intros i n p Hn Hp. unfold ns' in Hn. rewrite lookup_zip_with in Hn.
    destruct (ns !! i) as [n0|] eqn:Hn0; [|discriminate]. cbn in Hn.
    rewrite Hp in Hn. cbn in Hn. injection Hn as <-.
    destruct (substituted n0 p) eqn:E; [apply substituted_La|exact E].
  - exists r'', h''. split; [exact Hs2|]. rewrite Hv2, Hv'. reflexivity.
Qed.

Lemma substitute_idempotent_witness :
  substitute 3 demo_heap = Some demo_substituted ∧
  ∃ r'' h'', substitute (fst demo_substituted) (snd demo_substituted) = Some (r'', h'') ∧
             view h'' r'' = view (snd demo_substituted) (fst demo_substituted).
Proof.
  split; [vm_compute; reflexivity|].
  apply (substitute_idempotent demo_heap 3 demo_numbers demo_positions demo_cell
           (true, true, true)).
  - vm_compute. reflexivity.
  - reflexivity.
  - vm_compute. reflexivity.
Defined.

End Substitution.
